(** * UTP: a selective-repeat transport over UDP (DVA218, lab 3)

  A shallow embedding of [utp.h], [utp.c] and [main.c].  Frames are
  records, the three window buffers are lists of frames indexed by slot,
  the C globals and the operating-system interface (clock, socket,
  terminal) are threaded through a small state-and-fault monad. *)

From Stdlib Require Import ZArith Lia Bool.
From Stdlib Require Import Init.Byte Strings.Byte.
From stdpp Require Import base list.

Local Open Scope Z_scope.

(** ** Machine integers *)

Module Int.

(** A value stored in a signed [w]-bit variable (two's complement). *)
Definition signed (w : Z) (z : Z) : Z :=
  (z + 2 ^ (w - 1)) mod 2 ^ w - 2 ^ (w - 1).

Definition wrap64 : Z -> Z := signed 64.
Definition wrap32 : Z -> Z := signed 32.
Definition wrap16 : Z -> Z := signed 16.
Definition wrap8u (z : Z) : Z := z mod 256.

Definition min64 : Z := - 2 ^ 63.
Definition max64 : Z := 2 ^ 63 - 1.

Definition in64 (z : Z) : Prop := min64 <= z <= max64.





(** Little-endian bytes of the low [8 * n] bits of [z]. *)
Fixpoint le_bytes (n : nat) (z : Z) : list byte :=
  match n with
  | O => []
  | S n' =>
      default x00 (Byte.of_N (Z.to_N (z mod 256))) :: le_bytes n' (z / 256)
  end.

Fixpoint le_value (bs : list byte) : Z :=
  match bs with
  | [] => 0
  | b :: bs' => Z.of_N (Byte.to_N b) + 256 * le_value bs'
  end.


End Int.

(** ** MD5

  [MD5] is OpenSSL's one-shot digest, a library outside the repository;
  it is written here after RFC 1321 so that frames can be hashed by
  evaluation. *)

Module Md5.

Definition add32 (a b : Z) : Z := (a + b) mod 2 ^ 32.
Definition not32 (a : Z) : Z := Z.lxor a (2 ^ 32 - 1).
Definition rotl32 (x c : Z) : Z :=
  Z.lor (Z.shiftl x c mod 2 ^ 32) (Z.shiftr x (32 - c)).

Definition K : list Z :=
  [ 0xd76aa478; 0xe8c7b756; 0x242070db; 0xc1bdceee; 0xf57c0faf; 0x4787c62a;
    0xa8304613; 0xfd469501; 0x698098d8; 0x8b44f7af; 0xffff5bb1; 0x895cd7be;
    0x6b901122; 0xfd987193; 0xa679438e; 0x49b40821; 0xf61e2562; 0xc040b340;
    0x265e5a51; 0xe9b6c7aa; 0xd62f105d; 0x02441453; 0xd8a1e681; 0xe7d3fbc8;
    0x21e1cde6; 0xc33707d6; 0xf4d50d87; 0x455a14ed; 0xa9e3e905; 0xfcefa3f8;
    0x676f02d9; 0x8d2a4c8a; 0xfffa3942; 0x8771f681; 0x6d9d6122; 0xfde5380c;
    0xa4beea44; 0x4bdecfa9; 0xf6bb4b60; 0xbebfbc70; 0x289b7ec6; 0xeaa127fa;
    0xd4ef3085; 0x04881d05; 0xd9d4d039; 0xe6db99e5; 0x1fa27cf8; 0xc4ac5665;
    0xf4292244; 0x432aff97; 0xab9423a7; 0xfc93a039; 0x655b59c3; 0x8f0ccc92;
    0xffeff47d; 0x85845dd1; 0x6fa87e4f; 0xfe2ce6e0; 0xa3014314; 0x4e0811a1;
    0xf7537e82; 0xbd3af235; 0x2ad7d2bb; 0xeb86d391 ].

Definition S : list Z :=
  [ 7; 12; 17; 22; 7; 12; 17; 22; 7; 12; 17; 22; 7; 12; 17; 22;
    5; 9; 14; 20; 5; 9; 14; 20; 5; 9; 14; 20; 5; 9; 14; 20;
    4; 11; 16; 23; 4; 11; 16; 23; 4; 11; 16; 23; 4; 11; 16; 23;
    6; 10; 15; 21; 6; 10; 15; 21; 6; 10; 15; 21; 6; 10; 15; 21 ].

Record regs := Regs { rA : Z; rB : Z; rC : Z; rD : Z }.

Definition init : regs :=
  Regs 0x67452301 0xefcdab89 0x98badcfe 0x10325476.

(** One of the 64 operations on the words [M] of a block. *)
Definition operation (M : list Z) (r : regs) (i : nat) : regs :=
  let '(Regs a b c d) := r in
  let iz := Z.of_nat i in
  let '(f, g) :=
    if iz <? 16 then (Z.lor (Z.land b c) (Z.land (not32 b) d), iz)
    else if iz <? 32 then
      (Z.lor (Z.land d b) (Z.land (not32 d) c), (5 * iz + 1) mod 16)
    else if iz <? 48 then (Z.lxor b (Z.lxor c d), (3 * iz + 5) mod 16)
    else (Z.lxor c (Z.lor b (not32 d)), (7 * iz) mod 16) in
  let f' := add32 (add32 (add32 f a) (nth i K 0)) (nth (Z.to_nat g) M 0) in
  Regs d (add32 b (rotl32 f' (nth i S 0))) b c.

(** The 16 little-endian words of a 64-byte block. *)
Fixpoint words (n : nat) (bs : list byte) : list Z :=
  match n with
  | O => []
  | Datatypes.S n' => Int.le_value (take 4 bs) :: words n' (drop 4 bs)
  end.

Definition block (r : regs) (bs : list byte) : regs :=
  let r' := fold_left (operation (words 16 bs)) (seq 0 64) r in
  Regs (add32 (rA r) (rA r')) (add32 (rB r) (rB r'))
       (add32 (rC r) (rC r')) (add32 (rD r) (rD r')).

Fixpoint blocks (n : nat) (r : regs) (bs : list byte) : regs :=
  match n with
  | O => r
  | Datatypes.S n' => blocks n' (block r (take 64 bs)) (drop 64 bs)
  end.

Definition pad (bs : list byte) : list byte :=
  let len := Z.of_nat (length bs) in
  let zeros := Z.to_nat ((55 - len) mod 64) in
  bs ++ [x80] ++ replicate zeros x00 ++ Int.le_bytes 8 (8 * len).

Definition MD5 (bs : list byte) : list byte :=
  let p := pad bs in
  let r := blocks (length p / 64)%nat init p in
  Int.le_bytes 4 (rA r) ++ Int.le_bytes 4 (rB r)
    ++ Int.le_bytes 4 (rC r) ++ Int.le_bytes 4 (rD r).





End Md5.

(** ** utp.h: flags, frames, connection, tracker, windows *)

Module Utp.

Import Int.

(** Bit flags to define the type of message, and the upper flags. *)
Definition MSG : Z := 0.
Definition NAK : Z := 1.
Definition ACK : Z := 2.
Definition SYN : Z := 4.
Definition FIN : Z := 8.
Definition END : Z := 16.
Definition REQ : Z := 32.
Definition RES : Z := 64.

Definition UTP_DEFAULT_PORT : Z := 5555.
Definition UTP_DEFAULT_WSIZE : Z := 16.
Definition UTP_DEFAULT_PSIZE : Z := 32.
Definition UTP_DEFAULT_TIMEOUT : Z := 60000.
Definition UTP_HANDSHAKE_SIZE : Z := 16.
Definition UTP_TEARDOWN_MAX : Z := 16.
Definition MD5_DIGEST_LENGTH : Z := 16.

(** [struct utp_pack].  [size] is an [int16_t], [seq] and [time] are
    [int64_t], [flags] is a [uint8_t], [md5] holds [MD5_DIGEST_LENGTH]
    bytes and [msg] is the payload region that follows the header. *)
Record utp_pack := Pack {
  size : Z;
  seq : Z;
  time : Z;
  flags : Z;
  md5 : list byte;
  msg : list byte
}.

(** [struct utp_conn]; the socket and the two addresses carry no protocol
    state and are left to the operating-system part of the model. *)
Record utp_conn := Conn {
  seqSend : Z;
  seqRecv : Z
}.

Record utp_tracker := Tracker {
  sendLast : Z;
  recvLast : Z;
  sendNext : Z;
  recvNext : Z
}.

(** [struct utp_window]: each buffer is an array of frame slots. *)
Record utp_window := Window {
  send : list utp_pack;
  recv : list utp_pack;
  acks : list utp_pack
}.

(** [sizeof(struct utp_pack)] under the LP64 layout: [size] at offset 0,
    [seq] at 8, [time] at 16, [flags] at 24, [md5] at 25, [msg] at 41, the
    whole rounded up to the alignment of [int64_t]. *)
Definition sizeof_utp_pack : Z := 48.

Definition set_size (v : Z) (f : utp_pack) : utp_pack :=
  Pack v (seq f) (time f) (flags f) (md5 f) (msg f).
Definition set_seq (v : Z) (f : utp_pack) : utp_pack :=
  Pack (size f) v (time f) (flags f) (md5 f) (msg f).
Definition set_time (v : Z) (f : utp_pack) : utp_pack :=
  Pack (size f) (seq f) v (flags f) (md5 f) (msg f).
Definition set_flags (v : Z) (f : utp_pack) : utp_pack :=
  Pack (size f) (seq f) (time f) v (md5 f) (msg f).
Definition set_md5 (v : list byte) (f : utp_pack) : utp_pack :=
  Pack (size f) (seq f) (time f) (flags f) v (msg f).
Definition set_msg (v : list byte) (f : utp_pack) : utp_pack :=
  Pack (size f) (seq f) (time f) (flags f) (md5 f) v.

(** *** Byte buffers *)

Definition zeros (n : Z) : list byte := replicate (Z.to_nat n) x00.

(** [memcpy(dst + off, src, length src)]; [None] when the destination range
    does not lie inside [dst]. *)
Definition mem_write (off : Z) (src dst : list byte) : option (list byte) :=
  if (0 <=? off) && (off + Z.of_nat (length src) <=? Z.of_nat (length dst))
  then Some (take (Z.to_nat off) dst ++ src
               ++ drop (Z.to_nat off + length src) dst)
  else None.

(** [n] bytes read at [src + off]; [None] when the range leaves [src]. *)
Definition mem_read (off n : Z) (src : list byte) : option (list byte) :=
  if (0 <=? off) && (0 <=? n) && (off + n <=? Z.of_nat (length src))
  then Some (take (Z.to_nat n) (drop (Z.to_nat off) src))
  else None.

(** [memset(dst + off, 0, n)]. *)
Definition mem_zero (off n : Z) (dst : list byte) : option (list byte) :=
  if 0 <=? n then mem_write off (zeros n) dst else None.

(** [strlen(s + off)]: the distance to the first NUL byte; [None] when the
    scan leaves the buffer. *)
Fixpoint scan_nul (s : list byte) : option Z :=
  match s with
  | [] => None
  | b :: s' => if Byte.eqb b x00 then Some 0 else Z.succ <$> scan_nul s'
  end.

Definition strlen (off : Z) (s : list byte) : option Z :=
  if (0 <=? off) && (off <=? Z.of_nat (length s))
  then scan_nul (drop (Z.to_nat off) s) else None.

(** [memcmp(a, b, n) == 0] on two arrays read in full. *)
Fixpoint bytes_eqb (a b : list byte) : bool :=
  match a, b with
  | [], [] => true
  | x :: a', y :: b' => Byte.eqb x y && bytes_eqb a' b'
  | _, _ => false
  end.


(** *** Payload and window size (globals of utp.c) *)

Record config := Config {
  UTP_WINDOW : Z;
  UTP_PAYLOAD : Z;
  UTP_TIMEOUT : Z
}.

(** The initial values of the three globals. *)
Definition config_init : config :=
  Config 1 UTP_HANDSHAKE_SIZE UTP_DEFAULT_TIMEOUT.

Definition UTP_FORCE_WINDOW_SIZE (sz : Z) (c : config) : config :=
  Config (if sz >? 1 then sz else UTP_WINDOW c) (UTP_PAYLOAD c) (UTP_TIMEOUT c).

Definition UTP_FORCE_PAYLOAD_SIZE (sz : Z) (c : config) : config :=
  Config (UTP_WINDOW c) (if sz >? 1 then sz else UTP_PAYLOAD c) (UTP_TIMEOUT c).

Definition UTP_SET_WINDOW_SIZE (recvSize sendSize : Z) (c : config) : config :=
  UTP_FORCE_WINDOW_SIZE (if recvSize >? sendSize then sendSize else recvSize) c.

Definition UTP_SET_PAYLOAD_SIZE (recvSize sendSize : Z) (c : config) : config :=
  UTP_FORCE_PAYLOAD_SIZE (if recvSize >? sendSize then sendSize else recvSize) c.

Definition UTP_GET_WINDOW_SIZE (c : config) : Z := UTP_WINDOW c.
Definition UTP_GET_PAYLOAD_SIZE (c : config) : Z := UTP_PAYLOAD c.
Definition UTP_GET_FRAME_SIZE (c : config) : Z := sizeof_utp_pack + UTP_PAYLOAD c.
Definition UTP_GET_BUFFER_SIZE (c : config) (numFrames : Z) : Z :=
  UTP_GET_FRAME_SIZE c * numFrames.
Definition UTP_GET_TIMEOUT (c : config) : Z := UTP_TIMEOUT c.
Definition UTP_SET_TIMEOUT (timeout : Z) (c : config) : config :=
  Config (UTP_WINDOW c) (UTP_PAYLOAD c) (wrap32 timeout).

(** *** MD5 hash wrappers *)

(** The [UTP_GET_FRAME_SIZE()] bytes that [MD5] and [sendto] read at the
    address of a frame: the fields in little-endian order at their LP64
    offsets.  The alignment bytes after [size] and after the payload carry
    no field; they are taken to be zero. *)
Definition frame_bytes (f : utp_pack) : list byte :=
  le_bytes 2 (size f) ++ zeros 6
    ++ le_bytes 8 (seq f) ++ le_bytes 8 (time f)
    ++ le_bytes 1 (flags f) ++ md5 f ++ msg f ++ zeros 7.

Definition UTP_MD5_PREPARE : list byte := zeros MD5_DIGEST_LENGTH.

Definition UTP_MD5_ADD (f : utp_pack) : utp_pack :=
  let f0 := set_md5 UTP_MD5_PREPARE f in
  let digest := Md5.MD5 (frame_bytes f0) in
  set_md5 digest f0.

(** Returns the frame as it is left behind, and the verdict. *)
Definition UTP_MD5_VERIFY (f : utp_pack) : utp_pack * Z :=
  let recv := md5 f in
  let f' := UTP_MD5_ADD f in
  (f', if bytes_eqb recv (md5 f') then 1 else 0).

(** *** Flags *)

Definition UTP_FLAG (f : utp_pack) (option : Z) : bool :=
  Z.land (flags f) option =? option.

Definition UTP_FLAG_EXACT (f : utp_pack) (option : Z) : bool :=
  flags f =? option.

Definition UTP_FLAG_ADD (option : Z) (f : utp_pack) : utp_pack :=
  set_flags (Z.lor (flags f) option) f.

(** The shifts work on a [uint8_t]: the left shift drops the upper bits. *)
Definition UTP_TYPE (fl : Z) : Z :=
  let fl := wrap8u (Z.shiftl fl 4) in
  Z.shiftr fl 4.


End Utp.

(** ** The machine: globals, operating system, and the monad over them *)

Module Machine.

Import Int Utp.

(** What one [select]/[recvfrom] pair finds on the socket. *)
Inductive net_event :=
| NoDatagram
| Datagram (d : utp_pack).

(** The automatic variables of [eventHandler], which live across the
    iterations of its loop. *)
Record ev_locals := Locals {
  input : list byte;
  output : list byte;
  inPos : Z;
  outPos : Z;
  frameCount : Z
}.

(** The globals of utp.c ([cfg]) and of main.c, followed by the operating
    system: [clock] lists the successive readings of [gettimeofday] and
    [socket] the successive outcomes of a receive attempt; [ticks] and
    [reads] count how many were consumed; [wire] collects the datagrams
    handed to [sendto] and [terminal] the messages printed for the user. *)
Record world := World {
  cfg : config;
  running : Z;
  tdClean : Z;
  buffer : utp_window;
  status : utp_tracker;
  conn : utp_conn;
  frame : utp_pack;
  ev : ev_locals;
  clock : nat -> Z;
  ticks : nat;
  socket : nat -> net_event;
  reads : nat;
  wire : list utp_pack;
  terminal : list (list byte)
}.

Definition with_cfg (v : config) (w : world) : world :=
  World v (running w) (tdClean w) (buffer w) (status w) (conn w) (frame w)
    (ev w) (clock w) (ticks w) (socket w) (reads w) (wire w) (terminal w).
Definition with_running (v : Z) (w : world) : world :=
  World (cfg w) v (tdClean w) (buffer w) (status w) (conn w) (frame w)
    (ev w) (clock w) (ticks w) (socket w) (reads w) (wire w) (terminal w).
Definition with_tdClean (v : Z) (w : world) : world :=
  World (cfg w) (running w) v (buffer w) (status w) (conn w) (frame w)
    (ev w) (clock w) (ticks w) (socket w) (reads w) (wire w) (terminal w).
Definition with_buffer (v : utp_window) (w : world) : world :=
  World (cfg w) (running w) (tdClean w) v (status w) (conn w) (frame w)
    (ev w) (clock w) (ticks w) (socket w) (reads w) (wire w) (terminal w).
Definition with_status (v : utp_tracker) (w : world) : world :=
  World (cfg w) (running w) (tdClean w) (buffer w) v (conn w) (frame w)
    (ev w) (clock w) (ticks w) (socket w) (reads w) (wire w) (terminal w).
Definition with_conn (v : utp_conn) (w : world) : world :=
  World (cfg w) (running w) (tdClean w) (buffer w) (status w) v (frame w)
    (ev w) (clock w) (ticks w) (socket w) (reads w) (wire w) (terminal w).
Definition with_frame (v : utp_pack) (w : world) : world :=
  World (cfg w) (running w) (tdClean w) (buffer w) (status w) (conn w) v
    (ev w) (clock w) (ticks w) (socket w) (reads w) (wire w) (terminal w).
Definition with_ev (v : ev_locals) (w : world) : world :=
  World (cfg w) (running w) (tdClean w) (buffer w) (status w) (conn w) (frame w)
    v (clock w) (ticks w) (socket w) (reads w) (wire w) (terminal w).
Definition with_ticks (v : nat) (w : world) : world :=
  World (cfg w) (running w) (tdClean w) (buffer w) (status w) (conn w) (frame w)
    (ev w) (clock w) v (socket w) (reads w) (wire w) (terminal w).
Definition with_reads (v : nat) (w : world) : world :=
  World (cfg w) (running w) (tdClean w) (buffer w) (status w) (conn w) (frame w)
    (ev w) (clock w) (ticks w) (socket w) v (wire w) (terminal w).
Definition with_wire (v : list utp_pack) (w : world) : world :=
  World (cfg w) (running w) (tdClean w) (buffer w) (status w) (conn w) (frame w)
    (ev w) (clock w) (ticks w) (socket w) (reads w) v (terminal w).
Definition with_terminal (v : list (list byte)) (w : world) : world :=
  World (cfg w) (running w) (tdClean w) (buffer w) (status w) (conn w) (frame w)
    (ev w) (clock w) (ticks w) (socket w) (reads w) (wire w) v.

(** A run of a C function ends with a value and a new world, or leaves the
    model: [Fault] is an access outside the object it addresses (undefined
    behaviour in C), [Diverge] is a loop that used up the iterations the
    model grants it. *)
Inductive outcome (A : Type) :=
| Ret (a : A) (w : world)
| Fault
| Diverge.
Arguments Ret {A} a w.
Arguments Fault {A}.
Arguments Diverge {A}.

Definition M (A : Type) : Type := world -> outcome A.

Definition ret {A} (a : A) : M A := fun w => Ret a w.
Definition fault {A} : M A := fun _ => Fault.
Definition diverge {A} : M A := fun _ => Diverge.
Definition bind {A B} (m : M A) (k : A -> M B) : M B :=
  fun w => match m w with
           | Ret a w' => k a w'
           | Fault => Fault
           | Diverge => Diverge
           end.
Definition get : M world := fun w => Ret w w.
Definition modify (g : world -> world) : M unit := fun w => Ret tt (g w).
Definition lift {A} (o : option A) : M A :=
  match o with Some a => ret a | None => fault end.

Notation "'let*' x ':=' m 'in' k" := (bind m (fun x => k))
(at level 10, x name, m at level 100, k at level 200).
Notation "m >> k" := (bind m (fun _ => k))
  (at level 90, right associativity).

(** Main sets its size parameters once the handshake is over; the globals
    they are read from do not change afterwards. *)
Definition wsize (w : world) : Z := UTP_GET_WINDOW_SIZE (cfg w).
Definition fsize (w : world) : Z := UTP_GET_FRAME_SIZE (cfg w).
Definition psize (w : world) : Z := UTP_GET_PAYLOAD_SIZE (cfg w).

Definition BUFFER_SIZE : Z := 1024.
Definition THREAD_SLEEP : Z := 20000.

(** The bytes of [QUIT_MSG]. *)
Definition QUIT_MSG : list byte := [x51; x55; x49; x54; x0a].

End Machine.

(** ** utp.c: packing, sending, receiving, teardown *)

Module Transport.

Import Int Utp Machine.

(** *** Timer and timeout *)

Definition UTP_TIME : M Z :=
  fun w => Ret (clock w (ticks w)) (with_ticks (S (ticks w)) w).

Definition UTP_TIMEOUT_EXPIRED (timestamp : Z) : M Z :=
  let* now := UTP_TIME in
  let* w := get in
  ret (if wrap64 (timestamp + UTP_TIMEOUT (cfg w)) <? now then 1 else 0).

(** *** Pack preparation *)

(** The parameters are converted to the types of the prototype; the payload
    region is cleared over [UTP_PAYLOAD] bytes. *)
Definition UTP_PACK_PROPERTIES (c : config) (sz sq fl : Z) (f : utp_pack)
  : option utp_pack :=
  let f := set_flags (wrap8u fl) f in
  let f := set_size (wrap16 sz) f in
  let f := set_seq (wrap64 sq) f in
  m ← mem_zero 0 (UTP_PAYLOAD c) (msg f);
  Some (set_msg m f).

Definition UTP_PACK_MESSAGE (c : config) (stream : list byte) (sq fl : Z)
    (f : utp_pack) : option utp_pack :=
  msgLength ← strlen 0 stream;
  let overflow := msgLength >? UTP_PAYLOAD c in
  let psize := if overflow then UTP_PAYLOAD c else msgLength in
  let modflag := if overflow then UTP_TYPE (wrap8u fl) else Z.lor END fl in
  f ← UTP_PACK_PROPERTIES c psize sq modflag f;
  chunk ← mem_read 0 psize stream;
  m ← mem_write 0 chunk (msg f);
  Some (set_msg m f).

(** *** Message handling *)

(** [UTP_SEND(&conn, p)] for the frame [*p]: the caller stores the
    returned frame back where [p] points.  This is the clean send function,
    which the volatile one equals while [bonkers] keeps its initial 0. *)
Definition UTP_SEND (f : utp_pack) : M utp_pack :=
  let* t := UTP_TIME in
  let f := UTP_MD5_ADD (set_time t f) in
  modify (fun w => with_wire (wire w ++ [f]) w) >>
  ret f.

(** A datagram lands at the start of the frame; what the frame holds beyond
    the datagram stays, and what the datagram holds beyond the frame is
    discarded. *)
Definition recvfrom (d old : utp_pack) : utp_pack :=
  set_msg (take (length (msg old)) (msg d ++ drop (length (msg d)) (msg old))) d.

(** [UTP_RECV(&conn, frame, timeout)] on the shared frame of main.c. *)
Definition UTP_RECV : M Z :=
  let* w := get in
  modify (with_reads (S (reads w))) >>
  match socket w (reads w) with
  | Datagram d =>
      let '(f, ok) := UTP_MD5_VERIFY (recvfrom d (frame w)) in
      modify (with_frame f) >> ret ok
  | NoDatagram => ret 0
  end.

(** The shared frame, packed in place and sent. *)
Definition pack_frame (g : utp_pack -> option utp_pack) : M unit :=
  let* w := get in
  let* f := lift (g (frame w)) in
  modify (with_frame f).

Definition send_frame : M unit :=
  let* w := get in
  let* f := UTP_SEND (frame w) in
  modify (with_frame f).

(** [conn.seqSend++] *)
Definition next_seqSend : M Z :=
  fun w => Ret (seqSend (conn w))
             (with_conn (Conn (wrap64 (seqSend (conn w) + 1)) (seqRecv (conn w))) w).

(** [memset(frame, 0, UTP_GET_FRAME_SIZE())] *)
Definition clear_frame : M unit :=
  modify (fun w => with_frame
            (Pack 0 0 0 0 (zeros MD5_DIGEST_LENGTH) (zeros (UTP_PAYLOAD (cfg w)))) w).

(** *** Teardown *)

(** The [while] loop of [UTP_CLOSE_RECV]; the result is the value returned. *)
Fixpoint close_recv_loop (n : nat) (countdown : Z) : M Z :=
  match n with
  | O => diverge
  | S n' =>
      let* w := get in
      if UTP_FLAG_EXACT (frame w) ACK then ret 1
      else
        pack_frame (UTP_PACK_PROPERTIES (cfg w) 0 (seq (frame w)) (Z.lor FIN ACK)) >>
        send_frame >>
        let* _ := UTP_RECV in
        if countdown <? 0 then ret 0
        else close_recv_loop n' (countdown - 1)
  end.

Definition UTP_CLOSE_RECV : M Z :=
  clear_frame >>
  close_recv_loop (Z.to_nat UTP_TEARDOWN_MAX + 3) UTP_TEARDOWN_MAX.

(** The first loop of [UTP_CLOSE_SEND]: [true] when the loop is left through
    its condition, [false] when the function returns 0 from inside. *)
Fixpoint close_send_fin (n : nat) (countdown : Z) : M bool :=
  match n with
  | O => diverge
  | S n' =>
      let* w := get in
      if UTP_FLAG_EXACT (frame w) (Z.lor FIN ACK) then ret true
      else
        let* sq := next_seqSend in
        pack_frame (UTP_PACK_PROPERTIES (cfg w) 0 sq FIN) >>
        send_frame >>
        let* _ := UTP_RECV in
        if countdown <? 0 then ret false
        else close_send_fin n' (countdown - 1)
  end.

(** The [do ... while] loop that sends the final ACK. *)
Fixpoint close_send_ack (n : nat) (countdown : Z) : M Z :=
  match n with
  | O => diverge
  | S n' =>
      let* w := get in
      let* sq := next_seqSend in
      pack_frame (UTP_PACK_PROPERTIES (cfg w) 0 sq ACK) >>
      send_frame >>
      if countdown <? 0 then ret 0
      else
        let* ok := UTP_RECV in
        let* w := get in
        if negb (ok =? 0) && UTP_FLAG_EXACT (frame w) (Z.lor FIN ACK)
        then close_send_ack n' (countdown - 1)
        else ret 1
  end.

Definition UTP_CLOSE_SEND : M Z :=
  clear_frame >>
  let* acked := close_send_fin (Z.to_nat UTP_TEARDOWN_MAX + 3) UTP_TEARDOWN_MAX in
  if acked : bool
  then close_send_ack (Z.to_nat UTP_TEARDOWN_MAX + 3) UTP_TEARDOWN_MAX
  else ret 0.

(** *** Negotiation of the handshake

    The listener applies lines 377-378 of [UTP_OPEN_RECV] to what the SYN
    carries, and answers with its globals; the initiator applies lines
    438-439 of [UTP_OPEN_SEND] to what the SYN|ACK carries.  A handshake
    frame carries the payload size in its [int16_t] size field and the
    window size, passed as an [int16_t], as decimal text read back with
    [atoi]. *)
Definition listener_negotiate (wsize psize : Z) (syn_wsize syn_psize : Z)
    (c : config) : config :=
  UTP_SET_PAYLOAD_SIZE psize syn_psize (UTP_SET_WINDOW_SIZE wsize syn_wsize c).

Definition initiator_negotiate (wsize psize : Z) (synack_wsize synack_psize : Z)
    (c : config) : config :=
  UTP_SET_PAYLOAD_SIZE psize synack_psize
    (UTP_SET_WINDOW_SIZE wsize synack_wsize c).

(** Both ends after the exchange SYN, SYN|ACK, starting from the initial
    globals: the configuration of the listener and that of the initiator. *)
Definition handshake (wsize_l psize_l wsize_i psize_i : Z) : config * config :=
  let cl := listener_negotiate wsize_l psize_l
              (wrap16 wsize_i) (wrap16 psize_i) config_init in
  let ci := initiator_negotiate wsize_i psize_i
              (wrap16 (UTP_WINDOW cl)) (wrap16 (UTP_PAYLOAD cl)) config_init in
  (cl, ci).

End Transport.

(** ** main.c: the sliding windows and the three activities *)

Module Main.

Import Int Utp Machine Transport.

(** *** Helper functions *)

Definition sequenceInSpan (w : world) (sq offset : Z) : bool :=
  let idx := wrap64 (sq - offset) in
  (0 <=? idx) && (idx <? wsize w).

(** Slots of a window buffer.  A buffer of [wsize] slots of [fsize] bytes
    is a list of frames; an address inside it is the number of the slot it
    points to, and an access to a slot outside the list is a fault. *)
Definition slot_load (i : Z) (b : list utp_pack) : option utp_pack :=
  if 0 <=? i then b !! Z.to_nat i else None.

Definition slot_store (i : Z) (f : utp_pack) (b : list utp_pack)
  : option (list utp_pack) :=
  if (0 <=? i) && (i <? Z.of_nat (length b))
  then Some (<[Z.to_nat i := f]> b) else None.

(** [getFrame(index, buffer)] is [buffer + (index * fsize)] on a pointer to
    [struct utp_pack]: the addition counts in units of
    [sizeof(struct utp_pack)], so the result lies
    [index * fsize * sizeof(struct utp_pack)] bytes into the buffer, which is
    slot [index * sizeof(struct utp_pack)]. *)
Definition getFrame (index : Z) : Z := index * sizeof_utp_pack.

(** *** Sliding window (utility functions) *)

(** [memmove(dest, dest + fsize, (wsize - 1) * fsize)]: the first
    [wsize - 1] slots take the contents of their right neighbours, the rest
    of the buffer stays as it is. *)
Definition slide (n : Z) (dest : list utp_pack) : option (list utp_pack) :=
  if (1 <=? n) && (n <=? Z.of_nat (length dest))
  then Some (take (Z.to_nat (n - 1)) (drop 1 dest) ++ drop (Z.to_nat (n - 1)) dest)
  else None.

(** [insert(dest, seq, offset)] copies the shared frame to the slot at byte
    [(seq - offset) * fsize].  (The byte position is held in an [int]; it is
    taken to fit.) *)
Definition insert (w : world) (dest : list utp_pack) (sq offset : Z)
  : option (list utp_pack) :=
  slot_store (wrap64 (sq - offset)) (frame w) dest.



Definition with_send (v : list utp_pack) (w : world) : world :=
  with_buffer (Window v (recv (buffer w)) (acks (buffer w))) w.
Definition with_recv (v : list utp_pack) (w : world) : world :=
  with_buffer (Window (send (buffer w)) v (acks (buffer w))) w.
Definition with_acks (v : list utp_pack) (w : world) : world :=
  with_buffer (Window (send (buffer w)) (recv (buffer w)) v) w.

Definition with_sendLast (v : Z) (w : world) : world :=
  with_status (Tracker v (recvLast (status w)) (sendNext (status w))
                 (recvNext (status w))) w.
Definition with_recvLast (v : Z) (w : world) : world :=
  with_status (Tracker (sendLast (status w)) v (sendNext (status w))
                 (recvNext (status w))) w.
Definition with_sendNext (v : Z) (w : world) : world :=
  with_status (Tracker (sendLast (status w)) (recvLast (status w)) v
                 (recvNext (status w))) w.
Definition with_recvNext (v : Z) (w : world) : world :=
  with_status (Tracker (sendLast (status w)) (recvLast (status w))
                 (sendNext (status w)) v) w.

Definition with_input (v : list byte) (w : world) : world :=
  with_ev (Locals v (output (ev w)) (inPos (ev w)) (outPos (ev w))
             (frameCount (ev w))) w.
Definition with_output (v : list byte) (w : world) : world :=
  with_ev (Locals (input (ev w)) v (inPos (ev w)) (outPos (ev w))
             (frameCount (ev w))) w.
Definition with_inPos (v : Z) (w : world) : world :=
  with_ev (Locals (input (ev w)) (output (ev w)) v (outPos (ev w))
             (frameCount (ev w))) w.
Definition with_outPos (v : Z) (w : world) : world :=
  with_ev (Locals (input (ev w)) (output (ev w)) (inPos (ev w)) v
             (frameCount (ev w))) w.
Definition with_frameCount (v : Z) (w : world) : world :=
  with_ev (Locals (input (ev w)) (output (ev w)) (inPos (ev w)) (outPos (ev w))
             v) w.

(** *** Sliding window (send) *)

(** One pass through the body of the loop of [sendFrames]. *)
Definition sendFrames_body : M unit :=
  let* w := get in
  let* sq := next_seqSend in
  pack_frame (UTP_PACK_MESSAGE (cfg w) (input (ev w)) sq MSG) >>
  (if inPos (ev w) >? psize w then
     let* chunk := lift (mem_read (psize w) (BUFFER_SIZE - psize w) (input (ev w))) in
     let* moved := lift (mem_write 0 chunk (input (ev w))) in
     let* cleared := lift (mem_zero (inPos (ev w) - psize w) (psize w) moved) in
     modify (with_input cleared) >>
     modify (with_inPos (inPos (ev w) - psize w))
   else
     let* cleared := lift (mem_zero 0 BUFFER_SIZE (input (ev w))) in
     modify (with_input cleared) >>
     modify (with_inPos 0)) >>
  send_frame >>
  let* w := get in
  let* b := lift (insert w (send (buffer w)) (seq (frame w)) (sendNext (status w))) in
  modify (with_send b) >>
  modify (with_sendLast (seq (frame w))) >>
  modify (with_frameCount (frameCount (ev w) + 1)).

Fixpoint sendFrames (n : nat) : M unit :=
  match n with
  | O => diverge
  | S n' =>
      let* w := get in
      if (frameCount (ev w) <? wsize w) && (inPos (ev w) >? 0)
      then sendFrames_body >> sendFrames n'
      else ret tt
  end.

Fixpoint slideWindow (n : nat) : M unit :=
  match n with
  | O => diverge
  | S n' =>
      let* w := get in
      let* a := lift (slot_load 0 (acks (buffer w))) in
      if wrap64 (seq a - sendNext (status w)) =? 0 then
        let* s := lift (slide (wsize w) (send (buffer w))) in
        modify (with_send s) >>
        let* k := lift (slide (wsize w) (acks (buffer w))) in
        modify (with_acks k) >>
        modify (with_sendNext (wrap64 (sendNext (status w) + 1))) >>
        modify (with_frameCount (frameCount (ev w) - 1)) >>
        slideWindow n'
      else ret tt
  end.

(** *** Sliding window (receive) *)

(** The line that [printf("> %s\n", output)] writes. *)
Definition print_message (out : list byte) : option (list byte) :=
  n ← strlen 0 out;
  Some ([x3e; x20] ++ take (Z.to_nat n) out ++ [x0a]).

(** One pass through the body of the loop of [processReceived], for the
    frame [f] found in the first slot of the receive buffer. *)
Definition processReceived_body (f : utp_pack) : M unit :=
  let* w := get in
  let msgSize := size f in
  let* chunk := lift (mem_read 0 msgSize (msg f)) in
  let* out := lift (mem_write (outPos (ev w)) chunk (output (ev w))) in
  modify (with_output out) >>
  modify (with_outPos (outPos (ev w) + msgSize)) >>
  (if UTP_FLAG f END then
     let* line := lift (print_message out) in
     modify (fun w => with_terminal (terminal w ++ [line]) w) >>
     let* cleared := lift (mem_zero 0 BUFFER_SIZE out) in
     modify (with_output cleared) >>
     modify (with_outPos 0)
   else ret tt) >>
  let* r := lift (slide (wsize w) (recv (buffer w))) in
  modify (with_recv r) >>
  modify (with_recvNext (wrap64 (recvNext (status w) + 1))).

Fixpoint processReceived (n : nat) : M unit :=
  match n with
  | O => diverge
  | S n' =>
      let* w := get in
      let* f := lift (slot_load 0 (recv (buffer w))) in
      if wrap64 (seq f - recvNext (status w)) =? 0
      then processReceived_body f >> processReceived n'
      else ret tt
  end.

(** The iterations granted to the loops: a window can be slid at most
    [wsize] times before its first slot stops matching, and every frame sent
    takes at least one byte out of the input buffer. *)
Definition window_fuel (w : world) : nat := S (Z.to_nat (wsize w)).
Definition input_fuel : nat := S (Z.to_nat BUFFER_SIZE).

(** *** Automatic repeat request (threads) *)

Fixpoint for_slots (n : nat) (i : Z) (body : Z -> M unit) : M unit :=
  match n with
  | O => ret tt
  | S n' => body i >> for_slots n' (i + 1) body
  end.

Definition resend_slot (i : Z) : M unit :=
  let* w := get in
  let* a := lift (slot_load (getFrame i) (acks (buffer w))) in
  let acksSeq := seq a in
  let* resPack := lift (slot_load (getFrame i) (send (buffer w))) in
  let sendSeq := seq resPack in
  let sendTime := time resPack in
  if negb (sendSeq =? acksSeq) then
    let* expired := UTP_TIMEOUT_EXPIRED sendTime in
    if negb (expired =? 0) then
      let* sent := UTP_SEND (UTP_FLAG_ADD RES resPack) in
      let* w := get in
      let* b := lift (slot_store (getFrame i) sent (send (buffer w))) in
      modify (with_send b)
    else ret tt
  else ret tt.

(** One pass through the body of the loop of [resend], under the lock. *)
Definition resend_step : M unit :=
  let* w := get in
  if sequenceInSpan w (sendLast (status w)) (sendNext (status w)) then
    let lastIndex := wrap64 (sendLast (status w) - sendNext (status w)) in
    for_slots (Z.to_nat (lastIndex + 1)) 0 resend_slot
  else ret tt.

Definition request_slot (i : Z) : M unit :=
  let* w := get in
  let* r := lift (slot_load (getFrame i) (recv (buffer w))) in
  let recvSeq := seq r in
  if negb (wrap64 (recvSeq - recvNext (status w)) =? i) then
    pack_frame (UTP_PACK_PROPERTIES (cfg w) 0 (recvNext (status w) + i)
                  (Z.lor NAK REQ)) >>
    send_frame
  else ret tt.

(** One pass through the body of the loop of [request], under the lock. *)
Definition request_step : M unit :=
  let* w := get in
  if sequenceInSpan w (recvLast (status w)) (recvNext (status w)) then
    let lastIndex := wrap64 (recvLast (status w) - recvNext (status w)) in
    let* last := lift (slot_load (getFrame lastIndex) (recv (buffer w))) in
    let* expired := UTP_TIMEOUT_EXPIRED (time last) in
    if negb (expired =? 0) then
      for_slots (Z.to_nat (lastIndex + 1)) 0 request_slot
    else ret tt
  else ret tt.

(** *** Event handler (main thread) *)

(** [readInputWithQuit(input, &inPos)] when [fgets] finds [line] on the
    terminal. *)
Definition readInputWithQuit (line : list byte) : M bool :=
  let* w := get in
  let offset := inPos (ev w) in
  let room := BUFFER_SIZE - offset in
  let* stream :=
    (if (room <=? 0) || (length line =? 0)%nat then ret (input (ev w))
     else lift (mem_write offset (take (Z.to_nat (room - 1)) line ++ [x00])
                  (input (ev w)))) in
  let* n := lift (strlen offset stream) in
  let* text := lift (mem_read offset n stream) in
  let quitRequest := bytes_eqb text QUIT_MSG in
  let offset := offset + (n - 1) in
  let* stream := lift (mem_zero offset 1 stream) in
  modify (with_input stream) >>
  modify (with_inPos offset) >>
  ret quitRequest.

(** One pass through the body of the loop of [eventHandler], from the
    return of [select] to the release of the lock.  [line] is what the
    terminal holds, if it is readable. *)
Definition eventHandler_step (line : option (list byte)) : M unit :=
  let* ok := UTP_RECV in
  let* w := get in
  if negb (ok =? 0) then
    let type := UTP_TYPE (flags (frame w)) in
    if type =? NAK then
      let p := getFrame (wrap64 (seq (frame w) - sendNext (status w))) in
      let* f := lift (slot_load p (send (buffer w))) in
      let* sent := UTP_SEND f in
      let* b := lift (slot_store p sent (send (buffer w))) in
      modify (with_send b)
    else if type =? MSG then
      (if sequenceInSpan w (seq (frame w)) (recvNext (status w)) then
         let* b := lift (insert w (recv (buffer w)) (seq (frame w))
                           (recvNext (status w))) in
         modify (with_recv b) >>
         (if seq (frame w) >? recvLast (status w)
          then modify (with_recvLast (seq (frame w))) else ret tt) >>
         processReceived (window_fuel w)
       else ret tt) >>
      pack_frame (UTP_PACK_PROPERTIES (cfg w) 0 (seq (frame w)) ACK) >>
      send_frame
    else if type =? ACK then
      (if sequenceInSpan w (seq (frame w)) (sendNext (status w)) then
         let* b := lift (insert w (acks (buffer w)) (seq (frame w))
                           (sendNext (status w))) in
         modify (with_acks b) >>
         slideWindow (window_fuel w)
       else ret tt) >>
      sendFrames input_fuel
    else if type =? FIN then
      modify (with_running 0) >>
      let* r := UTP_CLOSE_RECV in
      modify (with_tdClean r)
    else ret tt
  else
    match line with
    | Some l =>
        let* quit := readInputWithQuit l in
        if quit : bool then
          modify (with_running 0) >>
          let* r := UTP_CLOSE_SEND in
          modify (with_tdClean r)
        else sendFrames input_fuel
    | None => ret tt
    end.

(** *** Main: setup *)

(** A slot as [calloc] leaves it. *)
Definition zero_frame (c : config) : utp_pack :=
  Pack 0 0 0 0 (zeros MD5_DIGEST_LENGTH) (zeros (UTP_PAYLOAD c)).

Definition init_window (c : config) : utp_window :=
  let b := replicate (Z.to_nat (UTP_GET_WINDOW_SIZE c)) (zero_frame c) in
  Window b b b.

(** Initialize status tracker (lines 392-395). *)
Definition init_tracker (c : utp_conn) : utp_tracker :=
  Tracker 0 0 (seqSend c) (wrap64 (seqRecv c + 1)).

Definition init_locals : ev_locals :=
  Locals (zeros BUFFER_SIZE) (zeros BUFFER_SIZE) 0 0 0.

(** The world when the three threads start, for the globals and the
    connection that the handshake left and an operating system. *)
Definition init_world (c : config) (cn : utp_conn) (clk : nat -> Z)
    (sock : nat -> net_event) : world :=
  World c 1 0 (init_window c) (init_tracker cn) cn (zero_frame c) init_locals
    clk 0 sock 0 [] [].

End Main.

(** ** Scenarios *)

Module Scenario.

Import Int Utp Machine Transport Main.

Definition value {A} (o : outcome A) : option A :=
  match o with Ret a _ => Some a | _ => None end.

Definition final {A} (o : outcome A) : option world :=
  match o with Ret _ w => Some w | _ => None end.

(** The defaults of utp.h: a window of 16 frames of 32 payload bytes. *)
Definition defaults : config :=
  Config UTP_DEFAULT_WSIZE UTP_DEFAULT_PSIZE UTP_DEFAULT_TIMEOUT.

Definition ticking : nat -> Z := fun n => 1000000 + Z.of_nat n.

(** An open connection whose socket yields [sock]. *)
Definition opened (sock : nat -> net_event) : world :=
  init_world defaults (Conn 1000 2000) ticking sock.

Definition silence : nat -> net_event := fun _ => NoDatagram.

(** A frame of the peer with its tag attached. *)
Definition peer_frame (sq fl : Z) : utp_pack :=
  UTP_MD5_ADD (Pack 0 sq 999000 fl (zeros 16) (zeros 32)).

(** The same frame with the first byte of its tag altered on the way. *)
Definition corrupted (f : utp_pack) : utp_pack :=
  set_md5 (match md5 f with
           | b :: t => (if Byte.eqb b x00 then x01 else x00) :: t
           | [] => []
           end) f.

(** The peer stays silent for sixteen rounds, answers the seventeenth FIN
    with FIN|ACK and is silent again. *)
Definition late_finack : nat -> net_event :=
  fun n => if (n =? 16)%nat then Datagram (peer_frame 2001 (Z.lor FIN ACK))
           else NoDatagram.

(** The peer's ACK arrives damaged. *)
Definition damaged_ack : nat -> net_event :=
  fun n => if (n =? 0)%nat then Datagram (corrupted (peer_frame 2001 ACK))
           else NoDatagram.

(** A NAK for the sequence number [sendNext + k]. *)
Definition nak_at (k : Z) : nat -> net_event :=
  fun n => if (n =? 0)%nat then Datagram (peer_frame (1000 + k) NAK)
           else NoDatagram.


(** A connection with a window of four frames of four payload bytes. *)
Definition small : config := Config 4 4 UTP_DEFAULT_TIMEOUT.

Definition small_world (sock : nat -> net_event) : world :=
  init_world small (Conn 1000 2000) ticking sock.

(** The bytes of "ab", "cd" and "efg". *)
Definition text_ab : list byte := [x61; x62].
Definition text_cd : list byte := [x63; x64].

(** A data frame of the peer for the small connection. *)
Definition data_frame (sq fl : Z) (text : list byte) : utp_pack :=
  UTP_MD5_ADD (Pack (Z.of_nat (length text)) sq 999000 fl (zeros 16)
                 (text ++ zeros (4 - Z.of_nat (length text)))).

(** The receive window holds the frames 2001 ("ab") and 2002 ("cd", END),
    nothing for 2003, and the frame 2004. *)
Definition two_in_order : world :=
  with_recv [ data_frame 2001 MSG text_ab;
              data_frame 2002 (Z.lor MSG END) text_cd;
              zero_frame small;
              data_frame 2004 MSG text_ab ]
    (small_world silence).

Definition with_socket_of (w : world) (sock : nat -> net_event) : world :=
  World (cfg w) (running w) (tdClean w) (buffer w) (status w) (conn w) (frame w)
    (ev w) (clock w) (ticks w) sock (reads w) (wire w) (terminal w).

(** Three frames are outstanding, 1000 to 1002; the first two are
    acknowledged. *)
Definition two_acked : world :=
  with_frameCount 3
    (with_sendLast 1002
       (with_acks [ peer_frame 1000 ACK; peer_frame 1001 ACK;
                    zero_frame small; zero_frame small ]
          (with_send [ data_frame 1000 MSG text_ab; data_frame 1001 MSG text_ab;
                       data_frame 1002 MSG text_ab; zero_frame small ]
             (small_world silence)))).



(** The peer asks again for the frame 1000, the first of the window. *)
Definition nak_first : world :=
  with_socket_of two_acked
    (fun n => if (n =? 0)%nat then Datagram (data_frame 1000 NAK [])
              else NoDatagram).

(** One frame, 1000, is outstanding; it was sent long ago and no ack for
    it has arrived. *)
Definition one_outstanding : world :=
  with_frameCount 1
    (with_sendLast 1000
       (with_send [ UTP_MD5_ADD (Pack 2 1000 900000 MSG (zeros 16)
                                   (text_ab ++ zeros 2));
                    zero_frame small; zero_frame small; zero_frame small ]
          (small_world silence))).

(** The frame [recvNext] = 2001 is recorded as the last received, yet the
    first slot of the receive window does not hold it. *)
Definition one_missing : world :=
  with_recvLast 2001 (small_world silence).

(** The frame 2003 has arrived ahead of 2001 and 2002. *)
Definition gap_of_two : world :=
  with_recvLast 2003
    (with_recv [ zero_frame small; zero_frame small;
                 data_frame 2003 MSG text_ab; zero_frame small ]
       (small_world silence)).

(** The user has typed "abcde"; nothing is outstanding. *)
Definition text_abcde : list byte := [x61; x62; x63; x64; x65].

Definition typed : world :=
  with_inPos 5
    (with_input (text_abcde ++ zeros (BUFFER_SIZE - 5)) (small_world silence)).

End Scenario.

(** ** Reasoning about runs *)

Module Logic.

Import Machine.

(** [wp F D m Q w]: the run of [m] from [w] ends in a value and a world
    that satisfy [Q]; [F] and [D] say whether a fault and an exhausted loop
    are tolerated. *)
Definition wp {A} (F D : Prop) (m : M A) (Q : A -> world -> Prop) (w : world)
  : Prop :=
  match m w with
  | Ret a w' => Q a w'
  | Fault => F
  | Diverge => D
  end.

(** The payload region of the shared frame has room for [UTP_PAYLOAD]
    bytes. *)
Definition frame_room (w : world) : Prop :=
  0 <= Utp.UTP_PAYLOAD (cfg w) <= Z.of_nat (length (Utp.msg (frame w))).

End Logic.

(** ** What the windows hold, stated on lists *)

Module Window.

Import Int Utp Machine Main.

(** A buffer after one slide over all its slots. *)
Definition slide1 (b : list utp_pack) : list utp_pack :=
  drop 1 b ++ drop (length b - 1) b.

(** The longest run of frames at the head of a window whose sequence
    numbers are [next], [next + 1], ... in this order. *)
Fixpoint contiguous_run (next : Z) (slots : list utp_pack) : list utp_pack :=
  match slots with
  | [] => []
  | f :: rest =>
      if wrap64 (seq f - next) =? 0
      then f :: contiguous_run (wrap64 (next + 1)) rest
      else []
  end.

(** The text of a C string: the bytes before the first NUL. *)
Fixpoint cstring (s : list byte) : list byte :=
  match s with
  | [] => []
  | b :: s' => if Byte.eqb b x00 then [] else b :: cstring s'
  end.

(** Delivery of one frame to the application, on the bytes pending for the
    current message and the lines printed so far: the first [size] bytes of
    the payload are appended; a frame with END has the pending bytes printed
    as a line and leaves none pending. *)
Definition deliver (st : list byte * list (list byte)) (f : utp_pack)
  : list byte * list (list byte) :=
  let acc := st.1 ++ take (Z.to_nat (size f)) (msg f) in
  if UTP_FLAG f END
  then ([], st.2 ++ [[x3e; x20] ++ cstring acc ++ [x0a]])
  else (acc, st.2).

(** The frames of a run can be delivered within the output buffer, starting
    with [pos] bytes pending: each payload size lies within its payload and
    the pending bytes stay below [BUFFER_SIZE]. *)
Fixpoint fits (pos : Z) (run : list utp_pack) : bool :=
  match run with
  | [] => true
  | f :: rest =>
      (0 <=? size f) && (size f <=? Z.of_nat (length (msg f)))
      && (pos + size f <? BUFFER_SIZE)
      && fits (if UTP_FLAG f END then 0 else pos + size f) rest
  end.

(** The output buffer of [eventHandler] as [calloc] and the resets leave
    it: [BUFFER_SIZE] bytes, zero from [outPos] on. *)
Definition delivery_ok (w : world) : Prop :=
  Z.of_nat (length (output (ev w))) = BUFFER_SIZE
  /\ 0 <= outPos (ev w) <= BUFFER_SIZE
  /\ drop (Z.to_nat (outPos (ev w))) (output (ev w))
     = zeros (BUFFER_SIZE - outPos (ev w)).

(** The bytes pending in the output buffer. *)
Definition pending (w : world) : list byte :=
  take (Z.to_nat (outPos (ev w))) (output (ev w)).

(** [w'] differs from [w] at most in the receive buffer, [recvNext], the
    output buffer with its position, and the terminal. *)
Definition delivery_only (w w' : world) : Prop :=
  cfg w' = cfg w /\ running w' = running w /\ tdClean w' = tdClean w
  /\ send (buffer w') = send (buffer w) /\ acks (buffer w') = acks (buffer w)
  /\ sendLast (status w') = sendLast (status w)
  /\ recvLast (status w') = recvLast (status w)
  /\ sendNext (status w') = sendNext (status w)
  /\ conn w' = conn w /\ frame w' = frame w
  /\ input (ev w') = input (ev w) /\ inPos (ev w') = inPos (ev w)
  /\ frameCount (ev w') = frameCount (ev w)
  /\ clock w' = clock w /\ ticks w' = ticks w
  /\ socket w' = socket w /\ reads w' = reads w
  /\ wire w' = wire w.

(** [w'] differs from [w] at most in the send and acks buffers, [sendNext]
    and the frame counter of [eventHandler]. *)
Definition sliding_only (w w' : world) : Prop :=
  cfg w' = cfg w /\ running w' = running w /\ tdClean w' = tdClean w
  /\ recv (buffer w') = recv (buffer w)
  /\ sendLast (status w') = sendLast (status w)
  /\ recvLast (status w') = recvLast (status w)
  /\ recvNext (status w') = recvNext (status w)
  /\ conn w' = conn w /\ frame w' = frame w
  /\ input (ev w') = input (ev w) /\ inPos (ev w') = inPos (ev w)
  /\ output (ev w') = output (ev w) /\ outPos (ev w') = outPos (ev w)
  /\ clock w' = clock w /\ ticks w' = ticks w
  /\ socket w' = socket w /\ reads w' = reads w
  /\ wire w' = wire w /\ terminal w' = terminal w.

(** [w'] differs from [w] at most in the shared frame, the connection,
    and what was consumed from the clock and the socket and put on the
    wire. *)
Definition transport_only (w w' : world) : Prop :=
  cfg w' = cfg w /\ running w' = running w /\ tdClean w' = tdClean w
  /\ buffer w' = buffer w /\ status w' = status w /\ ev w' = ev w
  /\ clock w' = clock w /\ socket w' = socket w
  /\ terminal w' = terminal w.

End Window.

(** ** Rounds of a teardown, stated on the socket *)

Module Rounds.

Import Utp Machine.

(** Among the [n] receives from the [start]-th on, the first that yields a
    datagram whose flags are exactly [fl], counted from [start]. *)
Fixpoint first_flagged (fl : Z) (sock : nat -> net_event) (start n : nat)
  : option nat :=
  match n with
  | O => None
  | S n' =>
      match sock start with
      | Datagram d =>
          if flags d =? fl then Some O
          else S <$> first_flagged fl sock (S start) n'
      | NoDatagram => S <$> first_flagged fl sock (S start) n'
      end
  end.

(** What a frame of the teardown looks like on the wire. *)
Definition teardown_frame (fl : Z) (f : utp_pack) : Prop :=
  flags f = fl /\ size f = 0 /\ snd (UTP_MD5_VERIFY f) = 1.

End Rounds.

(** ** What the sender puts on the wire, stated on the text *)

Module Segments.

Import Int Utp Machine Main.

(** The payload a frame carries: the first [size] bytes of its payload
    region. *)
Definition payload (f : utp_pack) : list byte :=
  take (Z.to_nat (size f)) (msg f).

(** The chunks of at most [P] bytes into which a text is cut, each with the
    flags of its frame: END on the chunk that takes the rest of the text.
    [n] bounds the number of chunks. *)
Fixpoint segments (n : nat) (P : Z) (text : list byte) : list (list byte * Z) :=
  match n with
  | O => []
  | S n' =>
      match text with
      | [] => []
      | _ :: _ =>
          (take (Z.to_nat P) text,
           if Z.of_nat (length text) >? P then MSG else Z.lor END MSG)
          :: segments n' P (drop (Z.to_nat P) text)
      end
  end.

(** The input buffer of [eventHandler] holds [text], which is a C string
    with room for its terminator, and is zero behind it; [inPos] stands at
    its end. *)
Definition input_holds (w : world) (text : list byte) : Prop :=
  input (ev w) = text ++ zeros (BUFFER_SIZE - Z.of_nat (length text))
  /\ inPos (ev w) = Z.of_nat (length text)
  /\ Forall (fun b => b <> x00) text
  /\ Z.of_nat (length text) < BUFFER_SIZE.

(** [w'] differs from [w] at most in the send buffer, [sendLast],
    [seqSend], the shared frame, the input buffer with its position, the
    frame counter, what was consumed from the clock, and the wire. *)
Definition sending_only (w w' : world) : Prop :=
  cfg w' = cfg w /\ running w' = running w /\ tdClean w' = tdClean w
  /\ recv (buffer w') = recv (buffer w) /\ acks (buffer w') = acks (buffer w)
  /\ recvLast (status w') = recvLast (status w)
  /\ sendNext (status w') = sendNext (status w)
  /\ recvNext (status w') = recvNext (status w)
  /\ seqRecv (conn w') = seqRecv (conn w)
  /\ output (ev w') = output (ev w) /\ outPos (ev w') = outPos (ev w)
  /\ clock w' = clock w /\ socket w' = socket w /\ reads w' = reads w
  /\ terminal w' = terminal w.

End Segments.

(** ** Handshake frames *)

Module Handshake.

Import Int Utp Machine Transport.

Definition digit_byte (d : Z) : byte :=
  match d with
  | 0 => x30 | 1 => x31 | 2 => x32 | 3 => x33 | 4 => x34
  | 5 => x35 | 6 => x36 | 7 => x37 | 8 => x38 | _ => x39
  end.

Definition digit_value (b : byte) : option Z :=
  match b with
  | x30 => Some 0 | x31 => Some 1 | x32 => Some 2 | x33 => Some 3
  | x34 => Some 4 | x35 => Some 5 | x36 => Some 6 | x37 => Some 7
  | x38 => Some 8 | x39 => Some 9 | _ => None
  end.

(** The decimal digits of a number that is not negative, put in front of
    [acc]; [n] bounds their number. *)
Fixpoint digits (n : nat) (z : Z) (acc : list byte) : list byte :=
  match n with
  | O => acc
  | S n' =>
      let acc := digit_byte (z mod 10) :: acc in
      if z / 10 =? 0 then acc else digits n' (z / 10) acc
  end.

(** What [sprintf(s, "%d", v)] stores for an [int] [v], the terminator
    included. *)
Definition sprintf_d (v : Z) : list byte :=
  (if v <? 0 then x2d :: digits 10 (- v) [] else digits 10 v []) ++ [x00].

(** [isspace] in the C locale. *)
Definition isspace (b : byte) : bool :=
  match b with
  | x20 | x09 | x0a | x0b | x0c | x0d => true
  | _ => false
  end.

Fixpoint skip_space (s : list byte) : list byte :=
  match s with
  | b :: s' => if isspace b then skip_space s' else s
  | [] => []
  end.

Fixpoint atoi_digits (acc : Z) (s : list byte) : Z :=
  match s with
  | b :: s' =>
      match digit_value b with
      | Some d => atoi_digits (acc * 10 + d) s'
      | None => acc
      end
  | [] => acc
  end.

(** [atoi(s)], for a string whose value fits an [int]. *)
Definition atoi (s : list byte) : Z :=
  match skip_space s with
  | x2d :: s' => - atoi_digits 0 s'
  | x2b :: s' => atoi_digits 0 s'
  | s' => atoi_digits 0 s'
  end.

(** [UTP_PACK_HANDSHAKE(frame, seq, flags, psize, wsize)]; the last two
    parameters are [int16_t]. *)
Definition UTP_PACK_HANDSHAKE (c : config) (sq fl psize wsize : Z)
    (f : utp_pack) : option utp_pack :=
  f ← UTP_PACK_PROPERTIES c UTP_HANDSHAKE_SIZE sq fl f;
  let f := set_size (wrap16 psize) f in
  m ← mem_write 0 (sprintf_d (wrap16 wsize)) (msg f);
  Some (set_msg m f).

(** The sizes a peer reads from a handshake frame (lines 377-378 and
    438-439 of utp.c). *)
Definition handshake_sizes (f : utp_pack) : Z * Z := (atoi (msg f), size f).

End Handshake.

(** * Properties *)

From Stdlib Require Import ZifyBool.

Arguments Md5.MD5 : simpl never.
Arguments Utp.UTP_MD5_ADD : simpl never.
Arguments Utp.UTP_MD5_VERIFY : simpl never.
Arguments Int.wrap64 : simpl never.
Arguments Int.wrap16 : simpl never.
Arguments Int.wrap8u : simpl never.

(** ** Machine integers and MD5 *)

Module IntFacts.

Import Int.

Lemma wrap64_id z : in64 z -> wrap64 z = z.
Proof.
  unfold in64, min64, max64, wrap64, signed. intros H.
  rewrite Z.mod_small; lia.
Qed.

Lemma wrap64_range z : in64 (wrap64 z).
Proof.
  unfold in64, min64, max64, wrap64, signed.
  pose proof (Z.mod_pos_bound (z + 2 ^ (64 - 1)) (2 ^ 64)). lia.
Qed.

Lemma wrap64_zero_mod z : wrap64 z = 0 <-> z mod 2 ^ 64 = 0.
Proof.
  unfold wrap64, signed.
  pose proof (Z.mod_pos_bound (z + 2 ^ (64 - 1)) (2 ^ 64)).
  pose proof (Z.mod_pos_bound z (2 ^ 64)).
  pose proof (Z.div_mod z (2 ^ 64)).
  pose proof (Z.div_mod (z + 2 ^ (64 - 1)) (2 ^ 64)).
  change (2 ^ (64 - 1)) with 9223372036854775808 in *.
  change (2 ^ 64) with 18446744073709551616 in *.
  lia.
Qed.

Lemma le_bytes_length n z : length (le_bytes n z) = n.
Proof. revert z. induction n as [|n IH]; intros z; simpl; [done|]. by rewrite IH. Qed.

End IntFacts.

Module Md5Facts.

Import Md5.

Lemma MD5_length bs : length (MD5 bs) = 16%nat.
Proof. unfold MD5. rewrite !length_app, !IntFacts.le_bytes_length. reflexivity. Qed.

(** The digests of RFC 1321, appendix A.5, for the empty string and "abc". *)
Example MD5_empty :
  MD5 [] = [xd4; x1d; x8c; xd9; x8f; x00; xb2; x04;
            xe9; x80; x09; x98; xec; xf8; x42; x7e].
Proof. vm_compute. reflexivity. Qed.

Example MD5_abc :
  MD5 [x61; x62; x63] = [x90; x01; x50; x98; x3c; xd2; x4f; xb0;
                         xd6; x96; x3f; x7d; x28; xe1; x7f; x72].
Proof. vm_compute. reflexivity. Qed.

(** Seventy bytes need two blocks. *)
Example MD5_two_blocks :
  MD5 (replicate 70 x61) = [x0f; x5c; x6c; x4e; x74; x0b; xfc; xc0;
                            x8c; x3c; x26; xcc; xb2; x67; x3d; x46].
Proof. vm_compute. reflexivity. Qed.

End Md5Facts.

(** The digest is computed by evaluation only; proofs treat it as a symbol. *)
Opaque Md5.MD5.

(** ** Frame codec and negotiation *)

Module UtpFacts.

Import Int Utp.

Lemma bytes_eqb_eq a b : bytes_eqb a b = true <-> a = b.
Proof.
  revert b. induction a as [|x a IH]; intros [|y b]; simpl; try easy.
  rewrite andb_true_iff, IH. split.
  - intros [H ->]. apply Byte.byte_dec_bl in H. by subst.
  - intros [= -> ->]. split; [by apply Byte.byte_dec_lb|done].
Qed.

Lemma UTP_TYPE_low_nibble fl : UTP_TYPE fl = fl mod 16.
Proof.
  unfold UTP_TYPE, wrap8u. rewrite Z.shiftl_mul_pow2, Z.shiftr_div_pow2 by lia.
  change (2 ^ 4) with 16.
  rewrite (Z.mul_comm fl 16). change 256 with (16 * 16).
  rewrite Zmult_mod_distr_l. rewrite Z.mul_comm, Z.div_mul by lia. done.
Qed.

End UtpFacts.

Module CodecFacts.

Import Int Utp Transport UtpFacts.

Lemma set_md5_set_md5 a b f : set_md5 a (set_md5 b f) = set_md5 a f.
Proof. reflexivity. Qed.

(** Attaching the tag and verifying it at once succeeds. *)
Lemma UTP_MD5_VERIFY_after_ADD f : snd (UTP_MD5_VERIFY (UTP_MD5_ADD f)) = 1.
Proof.
  unfold UTP_MD5_VERIFY, UTP_MD5_ADD. cbn [fst snd md5 set_md5].
  destruct (bytes_eqb _ _) eqn:E; [reflexivity|].
  exfalso. apply not_true_iff_false in E. apply E. by apply bytes_eqb_eq.
Qed.

Lemma UTP_MD5_ADD_idempotent f : UTP_MD5_ADD (UTP_MD5_ADD f) = UTP_MD5_ADD f.
Proof. reflexivity. Qed.

(** C10. [UTP_MD5_VERIFY] is not read-only: it leaves in the md5 field the
    tag recomputed over the frame with the tag region zeroed, leaves the
    other fields as they were, and returns 1 exactly when the tag it found
    in the frame equals the recomputed one (and 0 otherwise). *)
Theorem UTP_MD5_VERIFY_overwrites_tag (f : utp_pack) :
  let f' := fst (UTP_MD5_VERIFY f) in
  let r := snd (UTP_MD5_VERIFY f) in
  md5 f' = Md5.MD5 (frame_bytes (set_md5 (zeros MD5_DIGEST_LENGTH) f))
  /\ size f' = size f /\ seq f' = seq f /\ time f' = time f
  /\ flags f' = flags f /\ msg f' = msg f
  /\ (r = 1 <-> md5 f = md5 f')
  /\ (r = 0 <-> md5 f <> md5 f').
Proof.
  unfold UTP_MD5_VERIFY, UTP_MD5_ADD, UTP_MD5_PREPARE. simpl.
  repeat split; try reflexivity.
  - destruct (bytes_eqb _ _) eqn:E; [|done]. intros _. by apply bytes_eqb_eq.
  - intros H. apply bytes_eqb_eq in H. by rewrite H.
  - destruct (bytes_eqb _ _) eqn:E; [done|]. intros _ H.
    apply bytes_eqb_eq in H. congruence.
  - intros H. destruct (bytes_eqb _ _) eqn:E; [|done].
    apply bytes_eqb_eq in E. contradiction.
Qed.

(** A frame whose tag is wrong comes back changed. *)
Example UTP_MD5_VERIFY_changes_frame :
  let f := Pack 0 7 0 ACK (zeros 16) (zeros 16) in
  UTP_MD5_VERIFY f <> (f, 0) /\ snd (UTP_MD5_VERIFY f) = 0.
Proof. vm_compute. split; [intros [=]|reflexivity]. Qed.

(** What the two setters do with the smaller of two proposals. *)
Lemma UTP_SET_WINDOW_SIZE_min a b c :
  UTP_WINDOW (UTP_SET_WINDOW_SIZE a b c)
  = if Z.min a b >? 1 then Z.min a b else UTP_WINDOW c.
Proof.
  unfold UTP_SET_WINDOW_SIZE, UTP_FORCE_WINDOW_SIZE. simpl.
  destruct (Z.gtb_spec a b) as [H|H];
    [rewrite Z.min_r by lia | rewrite Z.min_l by lia]; reflexivity.
Qed.

Lemma UTP_SET_PAYLOAD_SIZE_min a b c :
  UTP_PAYLOAD (UTP_SET_PAYLOAD_SIZE a b c)
  = if Z.min a b >? 1 then Z.min a b else UTP_PAYLOAD c.
Proof.
  unfold UTP_SET_PAYLOAD_SIZE, UTP_FORCE_PAYLOAD_SIZE. simpl.
  destruct (Z.gtb_spec a b) as [H|H];
    [rewrite Z.min_r by lia | rewrite Z.min_l by lia]; reflexivity.
Qed.

Lemma UTP_WINDOW_SET_PAYLOAD a b c :
  UTP_WINDOW (UTP_SET_PAYLOAD_SIZE a b c) = UTP_WINDOW c.
Proof. reflexivity. Qed.

Lemma wrap16_id z : - 32768 <= z <= 32767 -> wrap16 z = z.
Proof.
  unfold wrap16, signed. intros H.
  change (2 ^ (16 - 1)) with 32768. change (2 ^ 16) with 65536.
  rewrite Z.mod_small; lia.
Qed.

(** C3, as stated, fails: a payload proposal of 1 against 32 leaves both
    peers with the payload size 16 of the handshake, not with the minimum;
    a window proposal of 0 against 16 leaves both with a window of 1. *)
Lemma handshake_minimum_counterexample :
  (let '(cl, ci) := handshake 16 1 16 32 in
   UTP_PAYLOAD cl = 16 /\ UTP_PAYLOAD ci = 16 /\ Z.min 1 32 = 1)
  /\ (let '(cl, ci) := handshake 0 32 16 32 in
      UTP_WINDOW cl = 1 /\ UTP_WINDOW ci = 1 /\ Z.min 0 16 = 0).
Proof. vm_compute. repeat split. Qed.

(** C3, amended. When the proposals are at least 2, and those of the
    initiator fit the [int16_t] in which a handshake frame carries them,
    both peers leave the handshake with the minimum of the two window
    proposals and the minimum of the two payload proposals.  A minimum of 1
    or less is not adopted: the setter leaves the global as it is. *)
Theorem handshake_adopts_minimum (wl pl wi pi : Z) :
  2 <= wl -> 2 <= wi <= 32767 -> 2 <= pl -> 2 <= pi <= 32767 ->
  (let '(cl, ci) := handshake wl pl wi pi in
   UTP_WINDOW cl = Z.min wl wi /\ UTP_WINDOW ci = Z.min wl wi
   /\ UTP_PAYLOAD cl = Z.min pl pi /\ UTP_PAYLOAD ci = Z.min pl pi)
  /\ (forall a b c, Z.min a b <= 1 ->
        UTP_SET_WINDOW_SIZE a b c = c /\ UTP_SET_PAYLOAD_SIZE a b c = c).
Proof.
  intros Hwl Hwi Hpl Hpi. split.
  - unfold handshake, listener_negotiate, initiator_negotiate.
    rewrite (wrap16_id wi), (wrap16_id pi) by lia.
    set (cl := UTP_SET_PAYLOAD_SIZE pl pi (UTP_SET_WINDOW_SIZE wl wi config_init)).
    assert (Wl : UTP_WINDOW cl = Z.min wl wi).
    { unfold cl. rewrite UTP_WINDOW_SET_PAYLOAD, UTP_SET_WINDOW_SIZE_min.
      destruct (Z.gtb_spec (Z.min wl wi) 1); lia. }
    assert (Pl : UTP_PAYLOAD cl = Z.min pl pi).
    { unfold cl. rewrite UTP_SET_PAYLOAD_SIZE_min.
      destruct (Z.gtb_spec (Z.min pl pi) 1); lia. }
    rewrite Wl, Pl.
    rewrite (wrap16_id (Z.min wl wi)), (wrap16_id (Z.min pl pi)) by lia.
    repeat split; try done.
    + rewrite UTP_WINDOW_SET_PAYLOAD, UTP_SET_WINDOW_SIZE_min.
      destruct (Z.gtb_spec (Z.min wi (Z.min wl wi)) 1); lia.
    + rewrite UTP_SET_PAYLOAD_SIZE_min.
      destruct (Z.gtb_spec (Z.min pi (Z.min pl pi)) 1); lia.
  - intros a b [cw cp ct] Hmin.
    unfold UTP_SET_WINDOW_SIZE, UTP_SET_PAYLOAD_SIZE,
      UTP_FORCE_WINDOW_SIZE, UTP_FORCE_PAYLOAD_SIZE. simpl.
    destruct (Z.gtb_spec a b) as [E1|E1].
    + destruct (Z.gtb_spec b 1) as [E2|E2]; [lia|done].
    + destruct (Z.gtb_spec a 1) as [E2|E2]; [lia|done].
Qed.

Lemma handshake_adopts_minimum_witness :
  let '(cl, ci) := handshake 16 32 8 64 in
  UTP_WINDOW cl = 8 /\ UTP_WINDOW ci = 8
  /\ UTP_PAYLOAD cl = 32 /\ UTP_PAYLOAD ci = 32.
Proof.
  pose proof (handshake_adopts_minimum 16 32 8 64
                ltac:(lia) ltac:(lia) ltac:(lia) ltac:(lia)) as [H _].
  exact H.
Defined.

End CodecFacts.

(** ** The window buffers *)

Module WindowFacts.

Import Int Utp Machine Transport Main IntFacts.

Lemma wrap64_sub_succ a b : wrap64 (a - wrap64 (b + 1)) = wrap64 (wrap64 (a - b) - 1).
Proof.
  unfold wrap64, signed. f_equal.
  replace (a - ((b + 1 + 2 ^ (64 - 1)) mod 2 ^ 64 - 2 ^ (64 - 1)) + 2 ^ (64 - 1))
    with ((a + 2 ^ 64) - (b + 1 + 2 ^ (64 - 1)) mod 2 ^ 64) by (change (2 ^ 64) with (2 * 2 ^ (64 - 1)); lia).
  replace ((a - b + 2 ^ (64 - 1)) mod 2 ^ 64 - 2 ^ (64 - 1) - 1 + 2 ^ (64 - 1))
    with ((a - b + 2 ^ (64 - 1)) mod 2 ^ 64 - 1) by lia.
  rewrite Zminus_mod_idemp_r, Zminus_mod_idemp_l. f_equal. lia.
Qed.


Lemma slide_full (b : list utp_pack) (W : Z) :
  Z.of_nat (length b) = W -> 1 <= W ->
  slide W b = Some (drop 1 b ++ drop (Z.to_nat (W - 1)) b).
Proof.
  intros HW H1. unfold slide.
  replace ((1 <=? W) && (W <=? Z.of_nat (length b))) with true
    by (symmetry; apply andb_true_iff; split; lia).
  f_equal. f_equal. apply take_ge. rewrite length_drop. lia.
Qed.



Lemma slot_load_range (i : Z) (b : list utp_pack) f :
  slot_load i b = Some f -> 0 <= i < Z.of_nat (length b).
Proof.
  unfold slot_load. destruct (0 <=? i) eqn:E; [|done].
  intros H%lookup_lt_Some. lia.
Qed.




End WindowFacts.

(** ** Rules for runs *)

Module LogicFacts.

Import Int Utp Machine Transport Logic.

Section Rules.

Context {A B : Type} (F D : Prop).

Lemma wp_bind (m : M A) (k : A -> M B) Q w :
  wp F D m (fun a => wp F D (k a) Q) w -> wp F D (bind m k) Q w.
Proof. unfold wp, bind. by destruct (m w). Qed.

Lemma wp_ret (a : A) (Q : A -> world -> Prop) w : Q a w -> wp F D (ret a) Q w.
Proof. done. Qed.

Lemma wp_lift (o : option A) (Q : A -> world -> Prop) w :
  (forall a, o = Some a -> Q a w) -> (o = None -> F) -> wp F D (lift o) Q w.
Proof. destruct o; unfold wp; simpl; auto. Qed.

Lemma wp_lift_Some (o : option A) (Q : A -> world -> Prop) w a :
  o = Some a -> Q a w -> wp F D (lift o) Q w.
Proof. by intros ->. Qed.

Lemma wp_mono (m : M A) (Q Q' : A -> world -> Prop) w :
  wp F D m Q w -> (forall a w', Q a w' -> Q' a w') -> wp F D m Q' w.
Proof. unfold wp. destruct (m w); auto. Qed.

Lemma wp_weaken (m : M A) (Q : A -> world -> Prop) w :
  wp False False m Q w -> wp F D m Q w.
Proof. unfold wp. by destruct (m w). Qed.

End Rules.

Lemma wp_get F D (Q : world -> world -> Prop) w : Q w w -> wp F D get Q w.
Proof. done. Qed.

Lemma wp_modify F D g (Q : unit -> world -> Prop) w :
  Q tt (g w) -> wp F D (modify g) Q w.
Proof. done. Qed.

Lemma wp_total {A} (m : M A) (Q : A -> world -> Prop) w :
  wp False False m Q w <-> exists a w', m w = Ret a w' /\ Q a w'.
Proof.
  unfold wp. split.
  - destruct (m w); try done. eauto.
  - by intros (a & w' & -> & H).
Qed.

Lemma wp_partial {A} (m : M A) (Q : A -> world -> Prop) w :
  wp True False m Q w <->
  m w <> Diverge /\ forall a w', m w = Ret a w' -> Q a w'.
Proof.
  unfold wp. split.
  - destruct (m w); intros H; split; try done; by intros ? ? [= <- <-].
  - intros [H1 H2]. destruct (m w); auto.
Qed.

End LogicFacts.

Ltac wp_step :=
  lazymatch goal with
  | |- Logic.wp _ _ (Machine.bind _ _) _ _ => apply LogicFacts.wp_bind
  | |- Logic.wp _ _ (Machine.ret _) _ _ => apply LogicFacts.wp_ret
  | |- Logic.wp _ _ Machine.get _ _ => apply LogicFacts.wp_get
  | |- Logic.wp _ _ (Machine.modify _) _ _ => apply LogicFacts.wp_modify
  end.

Ltac wp_run := repeat wp_step.

(** Projections of a world that was built by the setters. *)
Ltac wsimpl :=
  cbn [Machine.cfg Machine.running Machine.tdClean Machine.buffer
       Machine.status Machine.conn Machine.frame Machine.ev Machine.clock
       Machine.ticks Machine.socket Machine.reads Machine.wire
       Machine.terminal
       Machine.with_cfg Machine.with_running Machine.with_tdClean
       Machine.with_buffer Machine.with_status Machine.with_conn
       Machine.with_frame Machine.with_ev Machine.with_ticks
       Machine.with_reads Machine.with_wire Machine.with_terminal
       Main.with_send Main.with_recv Main.with_acks
       Main.with_sendLast Main.with_recvLast Main.with_sendNext
       Main.with_recvNext Main.with_input Main.with_output Main.with_inPos
       Main.with_outPos Main.with_frameCount
       Machine.input Machine.output Machine.inPos Machine.outPos
       Machine.frameCount
       Utp.send Utp.recv Utp.acks Utp.sendLast Utp.recvLast Utp.sendNext
       Utp.recvNext Utp.seqSend Utp.seqRecv
       Utp.size Utp.seq Utp.time Utp.flags Utp.md5 Utp.msg
       Utp.set_size Utp.set_seq Utp.set_time Utp.set_flags Utp.set_md5
       Utp.set_msg
       Machine.wsize Machine.psize Machine.fsize
       Utp.UTP_GET_WINDOW_SIZE Utp.UTP_GET_PAYLOAD_SIZE fst snd] in *.

(** ** Primitives of utp.c *)

Module TransportFacts.

Import Int Utp Machine Transport Logic LogicFacts.

Lemma zeros_length n : length (zeros n) = Z.to_nat n.
Proof. apply length_replicate. Qed.

Lemma mem_write_Some off (src dst : list byte) :
  0 <= off -> off + Z.of_nat (length src) <= Z.of_nat (length dst) ->
  mem_write off src dst
  = Some (take (Z.to_nat off) dst ++ src ++ drop (Z.to_nat off + length src) dst).
Proof. intros H1 H2. unfold mem_write. by replace (_ && _) with true by lia. Qed.

Lemma mem_write_length off (src dst m : list byte) :
  mem_write off src dst = Some m -> length m = length dst.
Proof.
  unfold mem_write. destruct (_ && _) eqn:E; [|done]. intros [= <-].
  rewrite !length_app, length_take, length_drop. lia.
Qed.

Lemma mem_zero_Some n (m : list byte) :
  0 <= n <= Z.of_nat (length m) ->
  mem_zero 0 n m = Some (zeros n ++ drop (Z.to_nat n) m).
Proof.
  intros H. unfold mem_zero. replace (0 <=? n) with true by lia.
  rewrite mem_write_Some by (rewrite ?zeros_length; lia).
  by rewrite zeros_length.
Qed.

Lemma UTP_PACK_PROPERTIES_Some c sz sq fl f :
  0 <= UTP_PAYLOAD c <= Z.of_nat (length (msg f)) ->
  exists m, UTP_PACK_PROPERTIES c sz sq fl f
            = Some (Pack (wrap16 sz) (wrap64 sq) (time f) (wrap8u fl) (md5 f) m)
            /\ length m = length (msg f).
Proof.
  intros H. unfold UTP_PACK_PROPERTIES. simpl.
  rewrite (mem_zero_Some _ _ H). simpl. eexists. split; [reflexivity|].
  rewrite length_app, zeros_length, length_drop. lia.
Qed.

Lemma UTP_PACK_PROPERTIES_fields c sz sq fl f f' :
  UTP_PACK_PROPERTIES c sz sq fl f = Some f' ->
  size f' = wrap16 sz /\ seq f' = wrap64 sq /\ time f' = time f
  /\ flags f' = wrap8u fl /\ md5 f' = md5 f
  /\ length (msg f') = length (msg f).
Proof.
  unfold UTP_PACK_PROPERTIES. simpl.
  destruct (mem_zero _ _ _) as [m|] eqn:E; [|done]. simpl. intros [= <-]. simpl.
  repeat split. unfold mem_zero in E. destruct (0 <=? _); [|done].
  by apply mem_write_length in E.
Qed.

Lemma recvfrom_length d old : length (msg (recvfrom d old)) = length (msg old).
Proof.
  unfold recvfrom. simpl. rewrite length_take, length_app, length_drop. lia.
Qed.

Lemma UTP_MD5_ADD_fields f :
  size (UTP_MD5_ADD f) = size f /\ seq (UTP_MD5_ADD f) = seq f
  /\ time (UTP_MD5_ADD f) = time f /\ flags (UTP_MD5_ADD f) = flags f
  /\ msg (UTP_MD5_ADD f) = msg f.
Proof. done. Qed.

Section Primitives.

Context (F D : Prop).

Lemma wp_pack_properties sz sq fl (c : config) (Q : unit -> world -> Prop) w :
  c = cfg w -> frame_room w ->
  (forall m, length m = length (msg (frame w)) ->
     Q tt (with_frame (Pack (wrap16 sz) (wrap64 sq) (time (frame w)) (wrap8u fl)
                         (md5 (frame w)) m) w)) ->
  wp F D (pack_frame (UTP_PACK_PROPERTIES c sz sq fl)) Q w.
Proof.
  intros -> Hroom HQ. unfold pack_frame. wp_run.
  destruct (UTP_PACK_PROPERTIES_Some (cfg w) sz sq fl (frame w) Hroom) as (m & E & Hm).
  eapply wp_lift_Some; [exact E|]. wp_run. by apply HQ.
Qed.

Lemma wp_send_frame (Q : unit -> world -> Prop) w :
  (let f := UTP_MD5_ADD (set_time (clock w (ticks w)) (frame w)) in
   Q tt (with_frame f (with_wire (wire w ++ [f]) (with_ticks (S (ticks w)) w)))) ->
  wp F D send_frame Q w.
Proof. intros H. exact H. Qed.

Lemma wp_UTP_SEND f (Q : utp_pack -> world -> Prop) w :
  (let f' := UTP_MD5_ADD (set_time (clock w (ticks w)) f) in
   Q f' (with_wire (wire w ++ [f']) (with_ticks (S (ticks w)) w))) ->
  wp F D (UTP_SEND f) Q w.
Proof. intros H. exact H. Qed.

Lemma wp_UTP_TIMEOUT_EXPIRED t (Q : Z -> world -> Prop) w :
  (forall r, Q r (with_ticks (S (ticks w)) w)) ->
  wp F D (UTP_TIMEOUT_EXPIRED t) Q w.
Proof. intros H. apply H. Qed.

Lemma wp_UTP_RECV (Q : Z -> world -> Prop) w :
  (socket w (reads w) = NoDatagram -> Q 0 (with_reads (S (reads w)) w)) ->
  (forall d, socket w (reads w) = Datagram d ->
     let r := UTP_MD5_VERIFY (recvfrom d (frame w)) in
     Q (snd r) (with_frame (fst r) (with_reads (S (reads w)) w))) ->
  wp F D UTP_RECV Q w.
Proof.
  intros H1 H2. unfold UTP_RECV. wp_run. wsimpl.
  destruct (socket w (reads w)) as [|d] eqn:E.
  - by apply H1.
  - specialize (H2 d eq_refl). cbv zeta in H2.
    destruct (UTP_MD5_VERIFY (recvfrom d (frame w))) as [f ok]. exact H2.
Qed.

Lemma wp_next_seqSend (Q : Z -> world -> Prop) w :
  Q (seqSend (conn w))
    (with_conn (Conn (wrap64 (seqSend (conn w) + 1)) (seqRecv (conn w))) w) ->
  wp F D next_seqSend Q w.
Proof. done. Qed.

Lemma wp_clear_frame (Q : unit -> world -> Prop) w :
  Q tt (with_frame (Pack 0 0 0 0 (zeros MD5_DIGEST_LENGTH)
                      (zeros (UTP_PAYLOAD (cfg w)))) w) ->
  wp F D clear_frame Q w.
Proof. done. Qed.

End Primitives.

End TransportFacts.

(** ** Teardown *)

Module TeardownFacts.

Import Int Utp Machine Transport Main Logic LogicFacts TransportFacts Scenario.

Lemma verify_keeps_room d old :
  length (msg (fst (UTP_MD5_VERIFY (recvfrom d old)))) = length (msg old).
Proof. unfold UTP_MD5_VERIFY, UTP_MD5_ADD. cbn [fst msg set_md5]. apply recvfrom_length. Qed.

Lemma msg_UTP_MD5_ADD f : msg (UTP_MD5_ADD f) = msg f.
Proof. reflexivity. Qed.

Ltac room :=
  unfold frame_room in *; wsimpl;
  rewrite ?verify_keeps_room, ?msg_UTP_MD5_ADD; wsimpl; lia.

(** One round of a teardown loop keeps the room of the shared frame. *)
Ltac round Hroom :=
  wp_run;
  apply wp_pack_properties; [done|exact Hroom|]; intros ? ?;
  wp_run; apply wp_send_frame; cbv zeta; wp_run.

Lemma close_send_fin_total n c w :
  (1 <= n)%nat -> c + 2 <= Z.of_nat n -> frame_room w ->
  wp False False (close_send_fin n c)
    (fun _ w' => frame_room w' /\ cfg w' = cfg w) w.
Proof.
  revert c w. induction n as [|n IH]; intros c w Hn Hc Hroom; [lia|].
  simpl. wp_run.
  destruct (UTP_FLAG_EXACT (frame w) (Z.lor FIN ACK)) eqn:Efl; [by wp_run|].
  wp_run. apply wp_next_seqSend. round Hroom.
  assert (Hstep : forall w1, frame_room w1 -> cfg w1 = cfg w ->
            wp False False (if c <? 0 then ret false else close_send_fin n (c - 1))
              (fun _ w' => frame_room w' /\ cfg w' = cfg w) w1).
  { intros w1 Hr Hcfg. destruct (c <? 0) eqn:Ec; [by wp_run|].
    eapply wp_mono; [apply IH; [lia|lia|done]|].
    intros _ w' [? ?]. split; [done|congruence]. }
  apply wp_UTP_RECV.
  - intros _. wp_run. apply Hstep; [|done].
    room.
  - intros d _. cbv zeta. wp_run. apply Hstep; [|done].
    room.
Qed.

Lemma close_send_ack_total n c w :
  (1 <= n)%nat -> c + 2 <= Z.of_nat n -> frame_room w ->
  wp False False (close_send_ack n c) (fun r _ => r = 0 \/ r = 1) w.
Proof.
  revert c w. induction n as [|n IH]; intros c w Hn Hc Hroom; [lia|].
  simpl. wp_run. apply wp_next_seqSend. round Hroom.
  destruct (c <? 0) eqn:Ec; [wp_run; by left|].
  wp_run. apply wp_UTP_RECV.
  - intros _. wp_run. wsimpl. simpl. wp_run. by right.
  - intros d _. cbv zeta. wp_run.
    match goal with |- wp _ _ (if ?b then _ else _) _ _ => destruct b end;
      [|wp_run; by right].
    apply IH; [lia|lia|].
    room.
Qed.

Lemma close_recv_loop_total n c w :
  (1 <= n)%nat -> c + 2 <= Z.of_nat n -> frame_room w ->
  wp False False (close_recv_loop n c) (fun r _ => r = 0 \/ r = 1) w.
Proof.
  revert c w. induction n as [|n IH]; intros c w Hn Hc Hroom; [lia|].
  simpl. wp_run.
  destruct (UTP_FLAG_EXACT (frame w) ACK) eqn:Efl; [wp_run; by right|].
  round Hroom.
  assert (Hstep : forall w1, frame_room w1 ->
            wp False False (if c <? 0 then ret 0 else close_recv_loop n (c - 1))
              (fun r _ => r = 0 \/ r = 1) w1).
  { intros w1 Hr. destruct (c <? 0) eqn:Ec; [wp_run; by left|].
    apply IH; [lia|lia|done]. }
  apply wp_UTP_RECV.
  - intros _. wp_run. apply Hstep. room.
  - intros d _. cbv zeta. wp_run. apply Hstep.
    room.
Qed.

Lemma clear_frame_room w :
  0 <= UTP_PAYLOAD (cfg w) ->
  frame_room (with_frame (Pack 0 0 0 0 (zeros MD5_DIGEST_LENGTH)
                            (zeros (UTP_PAYLOAD (cfg w)))) w).
Proof.
  intros H. unfold frame_room. wsimpl.
  rewrite zeros_length, Z2Nat.id; lia.
Qed.

(** [UTP_CLOSE_SEND] returns, with 0 or 1, whatever the socket yields. *)
Lemma UTP_CLOSE_SEND_terminates w :
  0 <= UTP_PAYLOAD (cfg w) ->
  exists r w', UTP_CLOSE_SEND w = Ret r w' /\ (r = 0 \/ r = 1).
Proof.
  intros HP. apply wp_total. unfold UTP_CLOSE_SEND. wp_run.
  apply wp_clear_frame. wp_run.
  eapply wp_mono.
  { apply close_send_fin_total; [unfold UTP_TEARDOWN_MAX; lia|unfold UTP_TEARDOWN_MAX; lia|by apply clear_frame_room]. }
  intros acked w1 [Hr _]. destruct acked.
  - apply close_send_ack_total; [unfold UTP_TEARDOWN_MAX; lia|unfold UTP_TEARDOWN_MAX; lia|done].
  - wp_run. by left.
Qed.

Lemma UTP_CLOSE_RECV_terminates w :
  0 <= UTP_PAYLOAD (cfg w) ->
  exists r w', UTP_CLOSE_RECV w = Ret r w' /\ (r = 0 \/ r = 1).
Proof.
  intros HP. apply wp_total. unfold UTP_CLOSE_RECV. wp_run.
  apply wp_clear_frame. wp_run.
  apply close_recv_loop_total; [unfold UTP_TEARDOWN_MAX; lia|unfold UTP_TEARDOWN_MAX; lia|by apply clear_frame_room].
Qed.

(** C9. The budget of [UTP_CLOSE_SEND] is not [UTP_TEARDOWN_MAX] rounds:
    with a silent peer it sends FIN eighteen times before it returns 0, and
    a FIN|ACK that answers the seventeenth FIN, after sixteen rounds
    without one, still makes it send the final ACK and return 1. *)
Theorem UTP_CLOSE_SEND_budget_exceeds_max :
  (value (UTP_CLOSE_SEND (opened silence)) = Some 0
   /\ (map flags <$> (wire <$> final (UTP_CLOSE_SEND (opened silence))))
      = Some (replicate 18 FIN))
  /\ (value (UTP_CLOSE_SEND (opened late_finack)) = Some 1
      /\ (map flags <$> (wire <$> final (UTP_CLOSE_SEND (opened late_finack))))
         = Some (replicate 17 FIN ++ [ACK])).
Proof. vm_compute. repeat split. Qed.

(** C6. A damaged datagram is not treated as no datagram: [UTP_RECV]
    reports 0 for the damaged ACK as it does for silence, yet
    [UTP_CLOSE_RECV], which does not look at that result, takes the damaged
    ACK for the final ACK and returns 1 after one round, where silence makes
    it repeat FIN|ACK eighteen times and return 0. *)
Theorem UTP_CLOSE_RECV_accepts_damaged_ack :
  value (UTP_RECV (opened damaged_ack)) = Some 0
  /\ value (UTP_RECV (opened silence)) = Some 0
  /\ value (UTP_CLOSE_RECV (opened damaged_ack)) = Some 1
  /\ (length <$> (wire <$> final (UTP_CLOSE_RECV (opened damaged_ack)))) = Some 1%nat
  /\ value (UTP_CLOSE_RECV (opened silence)) = Some 0
  /\ (length <$> (wire <$> final (UTP_CLOSE_RECV (opened silence)))) = Some 18%nat.
Proof. vm_compute. repeat split. Qed.

End TeardownFacts.

(** ** Flags and sizes *)

Module FlagFacts.

Import Int Utp UtpFacts.

Lemma land_lor_same a b : Z.land (Z.lor a b) b = b.
Proof.
  apply Z.bits_inj'. intros n Hn.
  rewrite Z.land_spec, Z.lor_spec. destruct (Z.testbit a n), (Z.testbit b n); reflexivity.
Qed.

Lemma land_lor_keeps a b o : Z.land a o = o -> Z.land (Z.lor a b) o = o.
Proof.
  intros H. apply Z.bits_inj'. intros n Hn.
  assert (Hb := f_equal (fun z => Z.testbit z n) H). cbv beta in Hb.
  rewrite Z.land_spec in Hb. rewrite Z.land_spec, Z.lor_spec.
  destruct (Z.testbit a n), (Z.testbit b n), (Z.testbit o n); try reflexivity;
    simpl in *; congruence.
Qed.

(** X1. [UTP_TYPE] keeps the low four bits of the flags and nothing else:
    it equals [flags & 0x0F], so the modifiers END, REQ and RES never reach
    the dispatch of the event handler. *)
Theorem UTP_TYPE_is_low_four_bits (fl : Z) : UTP_TYPE fl = Z.land fl 15.
Proof.
  rewrite UTP_TYPE_low_nibble. change 15 with (Z.ones 4).
  by rewrite Z.land_ones by lia.
Qed.

(** X2. [UTP_FLAG_ADD] sets the option it is given and clears nothing: the
    option tests as set afterwards, and so does every option that was set
    before.  MSG, being 0, tests as set on every frame. *)
Theorem UTP_FLAG_ADD_sets_and_keeps (f : utp_pack) (option o : Z) :
  UTP_FLAG (UTP_FLAG_ADD option f) option = true
  /\ (UTP_FLAG f o = true -> UTP_FLAG (UTP_FLAG_ADD option f) o = true)
  /\ UTP_FLAG f MSG = true.
Proof.
  unfold UTP_FLAG, UTP_FLAG_ADD, MSG. cbn [flags set_flags]. repeat split.
  - apply Z.eqb_eq, land_lor_same.
  - intros H%Z.eqb_eq. by apply Z.eqb_eq, land_lor_keeps.
  - apply Z.eqb_eq, Z.land_0_r.
Qed.

(** X3. Whatever sizes are negotiated or forced, the window never drops
    below one frame and the payload never below two bytes once they are
    there, as they are in the initial globals. *)
Theorem sizes_stay_positive (a b : Z) (c : config) :
  1 <= UTP_WINDOW c -> 2 <= UTP_PAYLOAD c ->
  (1 <= UTP_WINDOW (UTP_SET_WINDOW_SIZE a b c)
   /\ 2 <= UTP_PAYLOAD (UTP_SET_WINDOW_SIZE a b c))
  /\ (1 <= UTP_WINDOW (UTP_SET_PAYLOAD_SIZE a b c)
      /\ 2 <= UTP_PAYLOAD (UTP_SET_PAYLOAD_SIZE a b c))
  /\ (1 <= UTP_WINDOW (UTP_FORCE_WINDOW_SIZE a c)
      /\ 2 <= UTP_PAYLOAD (UTP_FORCE_PAYLOAD_SIZE a c))
  /\ (1 <= UTP_WINDOW config_init /\ 2 <= UTP_PAYLOAD config_init).
Proof.
  intros HW HP.
  unfold UTP_SET_WINDOW_SIZE, UTP_SET_PAYLOAD_SIZE, UTP_FORCE_WINDOW_SIZE,
    UTP_FORCE_PAYLOAD_SIZE, config_init, UTP_HANDSHAKE_SIZE.
  cbn [UTP_WINDOW UTP_PAYLOAD].
  destruct (Z.gtb_spec a b); repeat split; try lia;
    repeat match goal with
           | |- context [?x >? ?y] => destruct (Z.gtb_spec x y)
           end; lia.
Qed.

Lemma sizes_stay_positive_witness :
  (1 <= UTP_WINDOW (UTP_SET_WINDOW_SIZE 0 (-5) config_init)
   /\ 2 <= UTP_PAYLOAD (UTP_SET_WINDOW_SIZE 0 (-5) config_init))
  /\ (1 <= UTP_WINDOW (UTP_SET_PAYLOAD_SIZE 0 (-5) config_init)
      /\ 2 <= UTP_PAYLOAD (UTP_SET_PAYLOAD_SIZE 0 (-5) config_init))
  /\ (1 <= UTP_WINDOW (UTP_FORCE_WINDOW_SIZE 0 config_init)
      /\ 2 <= UTP_PAYLOAD (UTP_FORCE_PAYLOAD_SIZE 0 config_init))
  /\ (1 <= UTP_WINDOW config_init /\ 2 <= UTP_PAYLOAD config_init).
Proof.
  apply (sizes_stay_positive 0 (-5) config_init); vm_compute; discriminate.
Defined.

(** X4. A frame that was just given its tag verifies: [UTP_MD5_VERIFY]
    returns 1 on it and leaves it as it is. *)
Theorem UTP_MD5_VERIFY_accepts_attached (f : utp_pack) :
  UTP_MD5_VERIFY (UTP_MD5_ADD f) = (UTP_MD5_ADD f, 1).
Proof.
  unfold UTP_MD5_VERIFY.
  replace (UTP_MD5_ADD (UTP_MD5_ADD f)) with (UTP_MD5_ADD f) by reflexivity.
  destruct (bytes_eqb _ _) eqn:E; [reflexivity|].
  exfalso. apply not_true_iff_false in E. apply E. by apply bytes_eqb_eq.
Qed.

End FlagFacts.

(** ** Delivery to the application *)

Module DeliveryFacts.

Import Int Utp Machine Transport Main Logic Window.
Import IntFacts UtpFacts WindowFacts LogicFacts TransportFacts.

Lemma mem_read_Some off n (src : list byte) :
  0 <= off -> 0 <= n -> off + n <= Z.of_nat (length src) ->
  mem_read off n src = Some (take (Z.to_nat n) (drop (Z.to_nat off) src)).
Proof. intros. unfold mem_read. by replace (_ && _) with true by lia. Qed.

Lemma mem_read_length off n (src chunk : list byte) :
  mem_read off n src = Some chunk -> Z.of_nat (length chunk) = n.
Proof.
  unfold mem_read. destruct (_ && _) eqn:E; [|done]. intros [= <-].
  rewrite length_take, length_drop. lia.
Qed.

Lemma replicate_snoc {A} n (x : A) : replicate n x ++ [x] = replicate (S n) x.
Proof. induction n as [|n IH]; simpl; [done|]. by rewrite IH. Qed.

Lemma zeros_S n : 0 < n -> zeros n = x00 :: zeros (n - 1).
Proof.
  intros H. unfold zeros. replace (Z.to_nat n) with (S (Z.to_nat (n - 1))) by lia.
  reflexivity.
Qed.

Lemma drop_zeros k n : drop k (zeros n) = zeros (n - Z.of_nat k).
Proof.
  unfold zeros. rewrite drop_replicate. f_equal. lia.
Qed.

(** [strlen] stops at the first NUL: in front of a NUL the scan reads the
    text of the string. *)
Lemma scan_nul_text (a z : list byte) :
  exists n, scan_nul (a ++ x00 :: z) = Some n /\ 0 <= n
            /\ take (Z.to_nat n) (a ++ x00 :: z) = cstring a.
Proof.
  induction a as [|b a IH]; simpl.
  - exists 0. done.
  - destruct (Byte.eqb b x00) eqn:E.
    + exists 0. done.
    + destruct IH as (n & -> & Hn & Ht). exists (Z.succ n). simpl.
      repeat split; [lia|].
      replace (Z.to_nat (Z.succ n)) with (S (Z.to_nat n)) by lia.
      simpl. by rewrite Ht.
Qed.

Lemma slide_snoc (x l : utp_pack) (xs : list utp_pack) (j : nat) (W : Z) :
  last (x :: xs) = Some l ->
  Z.of_nat (length (x :: xs) + j) = W ->
  slide W ((x :: xs) ++ replicate j l) = Some (xs ++ replicate (S j) l).
Proof.
  intros Hl HW.
  rewrite (slide_full _ W) by (rewrite ?length_app, ?length_replicate; simpl in *; lia).
  f_equal. simpl drop at 1.
  rewrite <- replicate_snoc, app_assoc. f_equal.
  apply list_eq. intros i. rewrite lookup_drop.
  destruct i as [|i].
  - rewrite Nat.add_0_r. simpl ([l] !! 0%nat).
    destruct j as [|j].
    + rewrite app_nil_r. rewrite last_lookup in Hl.
      rewrite <- Hl. f_equal. simpl in *. lia.
    + rewrite lookup_app_r by (simpl in *; lia).
      rewrite lookup_replicate_2; [done|]. simpl in *. lia.
  - simpl ([l] !! S i). apply lookup_ge_None_2.
    rewrite length_app, length_replicate. simpl in *. lia.
Qed.


Lemma delivery_only_trans w1 w2 w3 :
  delivery_only w1 w2 -> delivery_only w2 w3 -> delivery_only w1 w3.
Proof.
  unfold delivery_only. intros H1 H2.
  repeat match goal with H : _ /\ _ |- _ => destruct H end.
  repeat split; congruence.
Qed.

Lemma wp_processReceived_body F D (f : utp_pack) (r : list utp_pack) Q w :
  delivery_ok w ->
  slide (wsize w) (recv (buffer w)) = Some r ->
  0 <= size f <= Z.of_nat (length (msg f)) ->
  outPos (ev w) + size f < BUFFER_SIZE ->
  (forall w1,
     delivery_ok w1 ->
     (pending w1, terminal w1) = deliver (pending w, terminal w) f ->
     outPos (ev w1) = (if UTP_FLAG f END then 0 else outPos (ev w) + size f) ->
     recv (buffer w1) = r ->
     recvNext (status w1) = wrap64 (recvNext (status w) + 1) ->
     delivery_only w w1 ->
     Q tt w1) ->
  wp F D (processReceived_body f) Q w.
Proof.
  intros (Hlen & Hpos & Hzero) Hslide Hsize Hfit HQ.
  unfold processReceived_body. wp_run.
  rewrite mem_read_Some by lia. rewrite drop_0.
  set (chunk := take (Z.to_nat (size f)) (msg f)).
  assert (Hchunk : Z.of_nat (length chunk) = size f).
  { unfold chunk. rewrite length_take. lia. }
  eapply wp_lift_Some; [reflexivity|]. wp_run.
  rewrite mem_write_Some by lia.
  set (out := take (Z.to_nat (outPos (ev w))) (output (ev w)) ++ chunk
              ++ drop (Z.to_nat (outPos (ev w)) + length chunk) (output (ev w))).
  assert (Hout : Z.of_nat (length out) = BUFFER_SIZE).
  { unfold out. rewrite !length_app, length_take, length_drop. lia. }
  assert (Htail : drop (Z.to_nat (outPos (ev w)) + length chunk) (output (ev w))
                  = zeros (BUFFER_SIZE - outPos (ev w) - size f)).
  { rewrite <- drop_drop, Hzero, drop_zeros. f_equal. lia. }
  assert (Htake : take (Z.to_nat (outPos (ev w) + size f)) out
                  = pending w ++ chunk).
  { unfold out, pending. rewrite app_assoc. apply take_app_length'.
    rewrite length_app, length_take. lia. }
  eapply wp_lift_Some; [reflexivity|]. wp_run. wsimpl.
  rewrite Hslide.
  destruct (UTP_FLAG f END) eqn:Eend.
  - (* the frame ends a message *)
    wp_run. unfold print_message.
    destruct (scan_nul_text (pending w ++ chunk)
                (zeros (BUFFER_SIZE - outPos (ev w) - size f - 1)))
      as (n & Hn & Hn0 & Htext).
    assert (Eout : out = (pending w ++ chunk) ++ x00
                         :: zeros (BUFFER_SIZE - outPos (ev w) - size f - 1)).
    { unfold out, pending. rewrite Htail, <- app_assoc. do 2 f_equal.
      apply zeros_S. lia. }
    rewrite <- Eout in Hn, Htext.
    unfold strlen. replace ((0 <=? 0) && (0 <=? Z.of_nat (length out))) with true by lia.
    rewrite drop_0, Hn. cbn [mbind option_bind]. rewrite Htext.
    eapply wp_lift_Some; [reflexivity|]. wp_run.
    rewrite mem_zero_Some by lia.
    eapply wp_lift_Some; [reflexivity|]. wp_run.
    eapply wp_lift_Some; [reflexivity|]. wp_run. wsimpl.
    apply HQ; unfold delivery_ok, pending, deliver, delivery_only; wsimpl;
      rewrite ?Eend; try done.
    rewrite drop_ge by lia. rewrite app_nil_r, zeros_length.
    repeat split; try (unfold BUFFER_SIZE; lia).
  - wp_run. eapply wp_lift_Some; [reflexivity|]. wp_run. wsimpl.
    apply HQ; unfold delivery_ok, pending, deliver, delivery_only; wsimpl;
      rewrite ?Eend; try done.
    + repeat split; try lia.
      replace (Z.to_nat (outPos (ev w) + size f))
        with (length (take (Z.to_nat (outPos (ev w))) (output (ev w)) ++ chunk))
        by (rewrite length_app, length_take; lia).
      unfold out. rewrite app_assoc, drop_app_length, Htail. f_equal. lia.
    + by rewrite Htake.
Qed.

Lemma wrap64_add_l a b : wrap64 (wrap64 a + b) = wrap64 (a + b).
Proof.
  unfold wrap64, signed. f_equal.
  replace ((a + 2 ^ (64 - 1)) mod 2 ^ 64 - 2 ^ (64 - 1) + b + 2 ^ (64 - 1))
    with ((a + 2 ^ (64 - 1)) mod 2 ^ 64 + b) by lia.
  rewrite Zplus_mod_idemp_l. f_equal. lia.
Qed.

(** A frame that matched [next] does not match [next + 1]. *)
Lemma stale_mismatch sq next :
  wrap64 (sq - next) = 0 -> wrap64 (sq - wrap64 (next + 1)) <> 0.
Proof.
  intros H. rewrite wrap64_sub_succ, H. vm_compute. discriminate.
Qed.

Lemma processReceived_run (xs : list utp_pack) :
  forall (l : utp_pack) (j n : nat) (w : world),
    last xs = Some l ->
    recv (buffer w) = xs ++ replicate j l ->
    Z.of_nat (length xs + j) = wsize w ->
    delivery_ok w ->
    in64 (recvNext (status w)) ->
    fits (outPos (ev w)) (contiguous_run (recvNext (status w)) xs) = true ->
    (length xs < n)%nat ->
    wp False False (processReceived n)
      (fun _ w' =>
         let run := contiguous_run (recvNext (status w)) xs in
         delivery_ok w'
         /\ (pending w', terminal w') = fold_left deliver run (pending w, terminal w)
         /\ recv (buffer w') = drop (length run) xs ++ replicate (j + length run) l
         /\ recvNext (status w')
            = wrap64 (recvNext (status w) + Z.of_nat (length run))
         /\ delivery_only w w') w.
Proof.
  induction xs as [|x xs IH]; intros l j n w Hlast Hrecv HW Hok Hin Hfit Hn; [done|].
  destruct n as [|n]; [simpl in Hn; lia|].
  cbn [processReceived]. wp_run.
  rewrite Hrecv. change (slot_load 0 ((x :: xs) ++ replicate j l)) with (Some x).
  eapply wp_lift_Some; [reflexivity|].
  cbn [contiguous_run] in *.
  destruct (wrap64 (seq x - recvNext (status w)) =? 0) eqn:Etest.
  2:{ wp_run. cbn [length fold_left]. rewrite drop_0, Nat.add_0_r, Z.add_0_r.
      rewrite wrap64_id by done. split_and!; try done. }
  apply Z.eqb_eq in Etest.
  cbn [fits] in Hfit. apply andb_true_iff in Hfit as [Hfit Hrest].
  wp_run.
  eapply wp_processReceived_body; [done| |lia|lia|].
  { rewrite Hrecv. by apply slide_snoc. }
  intros w1 Hok1 Hdel Hpos1 Hrecv1 Hnext1 Honly1.
  destruct xs as [|y ys].
  - (* the run ends with the last frame of the window *)
    assert (l = x) as -> by (simpl in Hlast; congruence).
    destruct n as [|n]; [simpl in Hn; lia|].
    cbn [processReceived]. wp_run. rewrite Hrecv1.
    change (slot_load 0 ([] ++ replicate (S j) x)) with (Some x).
    eapply wp_lift_Some; [reflexivity|].
    rewrite Hnext1.
    destruct (wrap64 (seq x - wrap64 (recvNext (status w) + 1)) =? 0) eqn:E2.
    { apply Z.eqb_eq in E2. by apply stale_mismatch in Etest. }
    wp_run. cbn [contiguous_run length fold_left drop].
    split_and!; try done.
    by rewrite Nat.add_1_r.
  - eapply wp_mono.
    { apply (IH l (S j) n w1); try done.
      + destruct Honly1 as (Hc & _). unfold wsize in *. rewrite Hc.
        simpl in *. lia.
      + rewrite Hnext1. apply wrap64_range.
      + rewrite Hnext1, Hpos1. exact Hrest.
      + simpl in *. lia. }
    cbv zeta. intros _ w' (Hok' & Hdel' & Hrecv' & Hnext' & Honly').
    rewrite Hnext1 in *. rewrite Hdel in Hdel'.
    set (run := contiguous_run (wrap64 (recvNext (status w) + 1)) (y :: ys)) in *.
    cbn [length fold_left drop]. split_and!; try done.
    + rewrite Hrecv'. do 2 f_equal. lia.
    + rewrite Hnext', wrap64_add_l. f_equal. lia.
    + by eapply delivery_only_trans.
Qed.

Lemma wrap64_sub_r a b : wrap64 (a - wrap64 b) = wrap64 (a - b).
Proof.
  unfold wrap64, signed. f_equal.
  replace (a - ((b + 2 ^ (64 - 1)) mod 2 ^ 64 - 2 ^ (64 - 1)) + 2 ^ (64 - 1))
    with ((a + 2 ^ 64) - (b + 2 ^ (64 - 1)) mod 2 ^ 64)
    by (change (2 ^ 64) with (2 * 2 ^ (64 - 1)); lia).
  rewrite Zminus_mod_idemp_r.
  replace (a + 2 ^ 64 - (b + 2 ^ (64 - 1))) with (a - b - 2 ^ (64 - 1) + 1 * 2 ^ 64) by lia.
  rewrite Z_mod_plus_full.
  replace (a - b + 2 ^ (64 - 1)) with (a - b - 2 ^ (64 - 1) + 1 * 2 ^ 64)
    by (change (2 ^ 64) with (2 * 2 ^ (64 - 1)); lia).
  by rewrite Z_mod_plus_full.
Qed.

Lemma wrap64_sub_add_l a b c : wrap64 (a - (wrap64 b + c)) = wrap64 (a - (b + c)).
Proof.
  replace (a - (wrap64 b + c)) with ((a - c) - wrap64 b) by lia.
  rewrite wrap64_sub_r. f_equal. lia.
Qed.

(** The run is the longest one: its frames are the first slots, each
    matches its sequence number, and the slot after it, if any, does not. *)
Lemma contiguous_run_longest (slots : list utp_pack) :
  forall next,
    let run := contiguous_run next slots in
    run = take (length run) slots
    /\ (forall i f, run !! i = Some f ->
          wrap64 (seq f - (next + Z.of_nat i)) = 0)
    /\ (forall f, slots !! length run = Some f ->
          wrap64 (seq f - (next + Z.of_nat (length run))) <> 0).
Proof.
  induction slots as [|x xs IH]; intros next; cbn [contiguous_run]; cbv zeta.
  - split_and!; [done| |]; intros; simplify_eq/=.
  - destruct (Z.eqb_spec (wrap64 (seq x - next)) 0) as [E|E].
    + destruct (IH (wrap64 (next + 1))) as (H1 & H2 & H3). cbn [length take].
      split_and!.
      * by rewrite <- H1.
      * intros [|i] f Hf; simplify_eq/=.
        { by rewrite Z.add_0_r. }
        apply H2 in Hf. rewrite <- Hf, wrap64_sub_add_l. f_equal. lia.
      * intros f Hf. simpl in Hf. apply H3 in Hf. intros Hc. apply Hf.
        rewrite <- Hc, wrap64_sub_add_l. f_equal. lia.
    + cbn [length take]. split_and!; [done| |].
      * intros i f Hf. simplify_eq/=.
      * intros f [= <-]. by rewrite Z.add_0_r.
Qed.

(** X5. [processReceived] delivers to the application exactly the longest
    run of frames at the head of the receive window whose sequence numbers
    are [recvNext], [recvNext + 1], ... in this order: the first [size]
    bytes of each payload are appended to the pending bytes, a frame with
    END has them printed as one line and leaves none pending; [recvNext]
    moves forward by the length of the run and the window is slid as many
    times, the frame of the last slot filling the slots that become free.
    Nothing else changes.  The loop returns within the iterations granted,
    given that the payloads fit the output buffer. *)
Theorem processReceived_delivers_in_order (w : world) (l : utp_pack) :
  Z.of_nat (length (recv (buffer w))) = wsize w ->
  last (recv (buffer w)) = Some l ->
  delivery_ok w ->
  in64 (recvNext (status w)) ->
  fits (outPos (ev w))
    (contiguous_run (recvNext (status w)) (recv (buffer w))) = true ->
  let run := contiguous_run (recvNext (status w)) (recv (buffer w)) in
  exists w',
    processReceived (window_fuel w) w = Ret tt w'
    /\ (pending w', terminal w') = fold_left deliver run (pending w, terminal w)
    /\ recvNext (status w')
       = wrap64 (recvNext (status w) + Z.of_nat (length run))
    /\ recv (buffer w')
       = drop (length run) (recv (buffer w)) ++ replicate (length run) l
    /\ delivery_ok w' /\ delivery_only w w'
    /\ run = take (length run) (recv (buffer w))
    /\ (forall i f, run !! i = Some f ->
          wrap64 (seq f - (recvNext (status w) + Z.of_nat i)) = 0)
    /\ (forall f, recv (buffer w) !! length run = Some f ->
          wrap64 (seq f - (recvNext (status w) + Z.of_nat (length run))) <> 0).
Proof.
  intros HW Hlast Hok Hin Hfit run.
  destruct (contiguous_run_longest (recv (buffer w)) (recvNext (status w)))
    as (H1 & H2 & H3).
  assert (Hrun := processReceived_run (recv (buffer w)) l 0 (window_fuel w) w
                    Hlast).
  rewrite app_nil_r in Hrun.
  specialize (Hrun eq_refl ltac:(lia) Hok Hin Hfit
                   ltac:(unfold window_fuel; lia)).
  apply wp_total in Hrun as ([] & w' & Hret & Hok' & Hdel & Hrecv & Hnext & Honly).
  exists w'. split_and!; try done.
Qed.

Lemma processReceived_delivers_in_order_witness :
  exists w',
    processReceived (window_fuel Scenario.two_in_order) Scenario.two_in_order
    = Ret tt w'
    /\ pending w' = []
    /\ terminal w' = [[x3e; x20; x61; x62; x63; x64; x0a]]
    /\ recvNext (status w') = 2003
    /\ recv (buffer w')
       = [zero_frame Scenario.small; Scenario.data_frame 2004 MSG Scenario.text_ab;
          Scenario.data_frame 2004 MSG Scenario.text_ab;
          Scenario.data_frame 2004 MSG Scenario.text_ab].
Proof.
  destruct (processReceived_delivers_in_order Scenario.two_in_order
              (Scenario.data_frame 2004 MSG Scenario.text_ab))
    as (w' & Hret & Hdel & Hnext & Hrecv & _).
  - reflexivity.
  - reflexivity.
  - split_and!; [reflexivity|vm_compute; by intros [=]|vm_compute; by intros [=]|reflexivity].
  - vm_compute. split; by intros [=].
  - vm_compute. reflexivity.
  - exists w'. split; [exact Hret|].
    vm_compute in Hdel. vm_compute in Hnext. vm_compute in Hrecv.
    injection Hdel as Hp Ht. split_and!; [exact Hp|exact Ht|exact Hnext|exact Hrecv].
Defined.

End DeliveryFacts.

(** ** The send window *)

Module SlideFacts.

Import Int Utp Machine Transport Main Logic Window.
Import IntFacts UtpFacts WindowFacts LogicFacts TransportFacts DeliveryFacts.

(** X6. [sequenceInSpan] tells whether a sequence number lies in the window
    of [wsize] numbers that starts at the offset, as long as their
    difference fits an [int64_t]. *)
Theorem sequenceInSpan_iff (w : world) (sq offset : Z) :
  in64 (sq - offset) ->
  sequenceInSpan w sq offset = true <-> offset <= sq < offset + wsize w.
Proof.
  intros H. unfold sequenceInSpan. rewrite wrap64_id by done. lia.
Qed.

Lemma sequenceInSpan_iff_witness :
  sequenceInSpan Scenario.two_acked 1003 1000 = true
  <-> 1000 <= 1003 < 1000 + wsize Scenario.two_acked.
Proof.
  apply (sequenceInSpan_iff Scenario.two_acked 1003 1000).
  vm_compute. split; discriminate.
Defined.

Lemma slot_store_Some (i : Z) (f : utp_pack) (b : list utp_pack) :
  0 <= i < Z.of_nat (length b) ->
  slot_store i f b = Some (<[Z.to_nat i := f]> b).
Proof. intros H. unfold slot_store. by replace (_ && _) with true by lia. Qed.



Lemma sliding_only_trans w1 w2 w3 :
  sliding_only w1 w2 -> sliding_only w2 w3 -> sliding_only w1 w3.
Proof.
  unfold sliding_only. intros H1 H2.
  repeat match goal with H : _ /\ _ |- _ => destruct H end.
  split_and!; congruence.
Qed.

Lemma slideWindow_run (xs : list utp_pack) :
  forall (ys : list utp_pack) (la ls : utp_pack) (j n : nat) (w : world),
    last xs = Some la -> last ys = Some ls -> length ys = length xs ->
    acks (buffer w) = xs ++ replicate j la ->
    send (buffer w) = ys ++ replicate j ls ->
    Z.of_nat (length xs + j) = wsize w ->
    in64 (sendNext (status w)) ->
    (length xs < n)%nat ->
    wp False False (slideWindow n)
      (fun _ w' =>
         let k := length (contiguous_run (sendNext (status w)) xs) in
         sendNext (status w') = wrap64 (sendNext (status w) + Z.of_nat k)
         /\ frameCount (ev w') = frameCount (ev w) - Z.of_nat k
         /\ acks (buffer w') = drop k xs ++ replicate (j + k) la
         /\ send (buffer w') = drop k ys ++ replicate (j + k) ls
         /\ sliding_only w w') w.
Proof.
  induction xs as [|x xs IH]; intros ys la ls j n w Hla Hls Hlen Hacks Hsend HW Hin Hn;
    [done|].
  destruct ys as [|y ys]; [done|].
  destruct n as [|n]; [simpl in Hn; lia|].
  cbn [slideWindow]. wp_run.
  rewrite Hacks. change (slot_load 0 ((x :: xs) ++ replicate j la)) with (Some x).
  eapply wp_lift_Some; [reflexivity|].
  cbn [contiguous_run].
  destruct (wrap64 (seq x - sendNext (status w)) =? 0) eqn:Etest.
  2:{ wp_run. cbn [length]. rewrite !drop_0, Nat.add_0_r, Z.add_0_r, Z.sub_0_r.
      rewrite wrap64_id by done. by split_and!. }
  apply Z.eqb_eq in Etest.
  wp_run. rewrite Hsend.
  rewrite (slide_snoc y ls ys j) by (simpl in *; done || lia).
  eapply wp_lift_Some; [reflexivity|]. wp_run. wsimpl.
  rewrite (slide_snoc x la xs j) by (simpl in *; done || lia).
  eapply wp_lift_Some; [reflexivity|]. wp_run. wsimpl.
  match goal with |- wp _ _ _ _ ?w0 => set (w1 := w0) end.
  assert (Honly1 : sliding_only w w1) by (unfold sliding_only, w1; wsimpl; by split_and!).
  destruct xs as [|x' xs].
  - assert (la = x) as -> by (simpl in Hla; congruence).
    destruct ys as [|? ?]; [|done].
    destruct n as [|n]; [simpl in Hn; lia|].
    cbn [slideWindow]. wp_run. unfold w1 at 1 2. wsimpl.
    change (slot_load 0 ([] ++ replicate (S j) x)) with (Some x).
    eapply wp_lift_Some; [reflexivity|].
    destruct (wrap64 (seq x - wrap64 (sendNext (status w) + 1)) =? 0) eqn:E2.
    { apply Z.eqb_eq in E2. by apply stale_mismatch in Etest. }
    wp_run. cbn [contiguous_run length drop]. unfold w1 at 1 2 3 4. wsimpl.
    rewrite Nat.add_1_r. by split_and!.
  - destruct ys as [|y' ys]; [done|].
    eapply wp_mono.
    { apply (IH (y' :: ys) la ls (S j) n w1); try done; unfold w1; wsimpl.
      + simpl in *. lia.
      + simpl in *. unfold wsize in *. wsimpl. rewrite <- HW. f_equal. lia.
      + apply wrap64_range.
      + simpl in *. lia. }
    cbv zeta. intros _ w' (Hnext' & Hcount' & Hacks' & Hsend' & Honly').
    unfold w1 in Hnext', Hcount', Hacks', Hsend'. wsimpl.
    set (run := contiguous_run (wrap64 (sendNext (status w) + 1)) (x' :: xs)) in *.
    cbn [length drop]. split_and!.
    + rewrite Hnext', wrap64_add_l. f_equal. lia.
    + lia.
    + rewrite Hacks'. do 2 f_equal. lia.
    + rewrite Hsend'. do 2 f_equal. lia.
    + by eapply sliding_only_trans.
Qed.

(** X8. [slideWindow] moves the base of the send window over exactly the
    acknowledgements that line up at the head of the acks buffer: with [k]
    the length of the longest run of acks carrying [sendNext],
    [sendNext + 1], ..., it advances [sendNext] by [k], takes [k] off the
    frame counter and slides the send and the acks buffer [k] times each,
    so that the two stay aligned; it changes nothing else and returns
    within the iterations granted.  With no acknowledgement for [sendNext]
    in slot 0 it does nothing. *)
Theorem slideWindow_follows_acks (w : world) (la ls : utp_pack) :
  Z.of_nat (length (acks (buffer w))) = wsize w ->
  length (send (buffer w)) = length (acks (buffer w)) ->
  last (acks (buffer w)) = Some la ->
  last (send (buffer w)) = Some ls ->
  in64 (sendNext (status w)) ->
  let run := contiguous_run (sendNext (status w)) (acks (buffer w)) in
  let k := length run in
  exists w',
    slideWindow (window_fuel w) w = Ret tt w'
    /\ sendNext (status w') = wrap64 (sendNext (status w) + Z.of_nat k)
    /\ frameCount (ev w') = frameCount (ev w) - Z.of_nat k
    /\ acks (buffer w') = drop k (acks (buffer w)) ++ replicate k la
    /\ send (buffer w') = drop k (send (buffer w)) ++ replicate k ls
    /\ sliding_only w w'
    /\ run = take k (acks (buffer w))
    /\ (forall i f, run !! i = Some f ->
          wrap64 (seq f - (sendNext (status w) + Z.of_nat i)) = 0)
    /\ (forall f, acks (buffer w) !! k = Some f ->
          wrap64 (seq f - (sendNext (status w) + Z.of_nat k)) <> 0).
Proof.
  intros HW Hlen Hla Hls Hin run k.
  destruct (contiguous_run_longest (acks (buffer w)) (sendNext (status w)))
    as (H1 & H2 & H3).
  assert (Hrun := slideWindow_run (acks (buffer w)) (send (buffer w)) la ls 0
                    (window_fuel w) w Hla Hls Hlen).
  rewrite !app_nil_r in Hrun.
  specialize (Hrun eq_refl eq_refl ltac:(lia) Hin ltac:(unfold window_fuel; lia)).
  apply wp_total in Hrun as ([] & w' & Hret & Hnext & Hcount & Hacks & Hsend & Honly).
  exists w'. by split_and!.
Qed.

Lemma slideWindow_follows_acks_witness :
  exists w',
    slideWindow (window_fuel Scenario.two_acked) Scenario.two_acked = Ret tt w'
    /\ sendNext (status w') = 1002
    /\ frameCount (ev w') = 1
    /\ map seq (acks (buffer w')) = [0; 0; 0; 0]
    /\ map seq (send (buffer w')) = [1002; 0; 0; 0].
Proof.
  destruct (slideWindow_follows_acks Scenario.two_acked
              (zero_frame Scenario.small) (zero_frame Scenario.small))
    as (w' & Hret & Hnext & Hcount & Hacks & Hsend & _).
  - reflexivity.
  - reflexivity.
  - reflexivity.
  - reflexivity.
  - vm_compute. split; by intros [=].
  - exists w'. split; [exact Hret|].
    vm_compute in Hnext. vm_compute in Hcount.
    rewrite Hacks, Hsend. split_and!; [exact Hnext|exact Hcount|reflexivity|reflexivity].
Defined.

End SlideFacts.

(** ** The event handler *)

Module EventFacts.

Import Int Utp Machine Transport Main Logic Window.
Import IntFacts UtpFacts WindowFacts LogicFacts TransportFacts DeliveryFacts SlideFacts TeardownFacts.

Lemma wp_exact {A} (m : M A) (a : A) (w w' : world) :
  wp False False m (fun a1 w1 => a1 = a /\ w1 = w') w -> m w = Ret a w'.
Proof. intros H%wp_total. destruct H as (? & ? & ? & -> & ->). done. Qed.

Ltac wp_lift_partial :=
  apply wp_lift; [intros ? ?|intros; exact I].









Lemma wp_returns (m : M unit) (Q : world -> Prop) (w : world) :
  wp False False m (fun _ => Q) w -> exists w', m w = Ret tt w' /\ Q w'.
Proof. intros H%wp_total. destruct H as ([] & w' & ? & ?). eauto. Qed.


Lemma transport_only_trans w1 w2 w3 :
  transport_only w1 w2 -> transport_only w2 w3 -> transport_only w1 w3.
Proof.
  unfold transport_only. intros H1 H2.
  repeat match goal with H : _ /\ _ |- _ => destruct H end.
  split_and!; congruence.
Qed.

Ltac transport :=
  unfold transport_only in *; wsimpl;
  repeat match goal with H : _ /\ _ |- _ => destruct H end;
  split_and!; congruence.


(** X10. A datagram that cannot be used is dropped by the event handler:
    when its tag does not verify (and the terminal has nothing to read), or
    when its type is none of NAK, MSG, ACK and FIN, the handler returns and
    has changed nothing but the shared frame, which holds the datagram with
    the tag recomputed, and the count of receives. *)
Theorem eventHandler_drops_unusable (w : world) (d : utp_pack)
    (line : option (list byte)) :
  socket w (reads w) = Datagram d ->
  let r := UTP_MD5_VERIFY (recvfrom d (frame w)) in
  let type := UTP_TYPE (flags d) in
  (snd r = 0 /\ line = None)
  \/ (snd r = 1 /\ type <> NAK /\ type <> MSG /\ type <> ACK /\ type <> FIN) ->
  eventHandler_step line w
  = Ret tt (with_frame (fst r) (with_reads (S (reads w)) w)).
Proof.
  intros Hsock r type Hcase. apply wp_exact.
  unfold eventHandler_step. wp_run.
  apply wp_UTP_RECV; [intros Hno; congruence|].
  intros d' Hd'. assert (d' = d) as -> by congruence. cbv zeta. fold r.
  wp_run.
  destruct Hcase as [[H0 ->]|(H1 & Hn & Hm & Ha & Hf)].
  - rewrite H0. change (negb (0 =? 0)) with false. cbv iota. by wp_run.
  - rewrite H1. change (negb (1 =? 0)) with true. cbv iota.
    change (flags (frame (with_frame r.1 (with_reads (S (reads w)) w))))
      with (flags d).
    fold type.
    destruct (Z.eqb_spec type NAK); [done|].
    destruct (Z.eqb_spec type MSG); [done|].
    destruct (Z.eqb_spec type ACK); [done|].
    destruct (Z.eqb_spec type FIN); [done|].
    by wp_run.
Qed.

Lemma eventHandler_drops_unusable_witness :
  eventHandler_step None (Scenario.opened Scenario.damaged_ack)
  = Ret tt
      (with_frame
         (fst (UTP_MD5_VERIFY
                 (recvfrom (Scenario.corrupted (Scenario.peer_frame 2001 ACK))
                    (frame (Scenario.opened Scenario.damaged_ack)))))
         (with_reads (S (reads (Scenario.opened Scenario.damaged_ack)))
            (Scenario.opened Scenario.damaged_ack))).
Proof.
  apply (eventHandler_drops_unusable (Scenario.opened Scenario.damaged_ack)
           (Scenario.corrupted (Scenario.peer_frame 2001 ACK)) None).
  - reflexivity.
  - left. split; [vm_compute; reflexivity|reflexivity].
Defined.



Lemma wp_faults {A} (m : M A) (w : world) :
  wp True False m (fun _ _ => False) w -> m w = Fault.
Proof. unfold wp. by destruct (m w). Qed.


(** X12. The handler of NAK checks no span and no timeout: it sends at
    once, with a fresh time stamp and tag, the frame in the slot that
    [getFrame] addresses for [seq - sendNext], and stores it back there,
    leaving the tracker and the other buffers alone.  When that slot lies
    outside the send buffer the access is a fault; this is so for every NAK
    whose sequence number is outside the send window. *)
Theorem NAK_resends_unchecked (w : world) (d : utp_pack)
    (line : option (list byte)) :
  socket w (reads w) = Datagram d ->
  snd (UTP_MD5_VERIFY (recvfrom d (frame w))) = 1 ->
  UTP_TYPE (flags d) = NAK ->
  let p := getFrame (wrap64 (seq d - sendNext (status w))) in
  match slot_load p (send (buffer w)) with
  | Some f =>
      let sent := UTP_MD5_ADD (set_time (clock w (ticks w)) f) in
      exists w',
        eventHandler_step line w = Ret tt w'
        /\ wire w' = wire w ++ [sent]
        /\ send (buffer w') = <[Z.to_nat p := sent]> (send (buffer w))
        /\ recv (buffer w') = recv (buffer w)
        /\ acks (buffer w') = acks (buffer w)
        /\ status w' = status w /\ ev w' = ev w /\ conn w' = conn w
  | None => eventHandler_step line w = Fault
  end
  /\ (Z.of_nat (length (send (buffer w))) = wsize w ->
      sequenceInSpan w (seq d) (sendNext (status w)) = false ->
      eventHandler_step line w = Fault).
Proof.
  intros Hsock Hver Htype p.
  assert (Hstart : forall F Q,
            (wp F False
               (let* f := lift (slot_load p (send (buffer w))) in
                let* sent := UTP_SEND f in
                let* b := lift (slot_store p sent (send (buffer w))) in
                modify (with_send b)) Q
               (with_frame (fst (UTP_MD5_VERIFY (recvfrom d (frame w))))
                  (with_reads (S (reads w)) w))) ->
            wp F False (eventHandler_step line) Q w).
  { intros F Q H. unfold eventHandler_step. wp_run.
    apply wp_UTP_RECV; [intros Hno; congruence|].
    intros d' Hd'. assert (d' = d) as -> by congruence. cbv zeta.
    rewrite Hver. wp_run. change (negb (1 =? 0)) with true. cbv iota.
    change (flags (frame (with_frame (UTP_MD5_VERIFY (recvfrom d (frame w))).1
                            (with_reads (S (reads w)) w))))
      with (flags d).
    rewrite Htype. change (NAK =? NAK) with true. cbv iota. exact H. }
  assert (Hnone : slot_load p (send (buffer w)) = None ->
                  eventHandler_step line w = Fault).
  { intros E. apply wp_faults, Hstart. wp_run.
    apply wp_lift; [intros a Ha; congruence|done]. }
  split.
  - destruct (slot_load p (send (buffer w))) as [f|] eqn:Ef; [|by apply Hnone].
    cbv zeta. apply wp_returns, Hstart. wp_run.
    eapply wp_lift_Some; [reflexivity|]. wp_run.
    apply wp_UTP_SEND. cbv zeta. wp_run.
    rewrite slot_store_Some by (by apply slot_load_range in Ef).
    eapply wp_lift_Some; [reflexivity|]. wp_run. wsimpl.
    split_and!; try done.
  - intros HW Hspan. apply Hnone.
    unfold sequenceInSpan in Hspan. unfold slot_load, p, getFrame, sizeof_utp_pack.
    destruct (0 <=? wrap64 (seq d - sendNext (status w)) * 48) eqn:E; [|done].
    apply lookup_ge_None_2. lia.
Qed.

Lemma NAK_resends_unchecked_witness :
  exists w',
    eventHandler_step None Scenario.nak_first = Ret tt w'
    /\ map seq (wire w') = [1000]
    /\ map seq (send (buffer w')) = [1000; 1001; 1002; 0]
    /\ status w' = status Scenario.nak_first.
Proof.
  destruct (NAK_resends_unchecked Scenario.nak_first
              (Scenario.data_frame 1000 NAK []) None) as [H _].
  - reflexivity.
  - vm_compute. reflexivity.
  - vm_compute. reflexivity.
  - change (slot_load (getFrame (wrap64 (1000 - sendNext (status Scenario.nak_first))))
              (send (buffer Scenario.nak_first)))
      with (Some (Scenario.data_frame 1000 MSG Scenario.text_ab)) in H.
    cbv zeta in H. destruct H as (w' & Hret & Hwire & Hsend & _ & _ & Hst & _).
    exists w'. split; [exact Hret|]. rewrite Hwire, Hsend.
    split_and!; [reflexivity|reflexivity|exact Hst].
Defined.

End EventFacts.

(** ** Rounds of the teardown *)

Module RoundsFacts.

Import Int Utp Machine Transport Main Logic Window Rounds.
Import IntFacts UtpFacts WindowFacts LogicFacts TransportFacts DeliveryFacts SlideFacts TeardownFacts EventFacts.

Ltac tidy :=
  split_and!; first [done | by constructor | simpl; lia | transport].

Lemma close_recv_loop_rounds n c w :
  -1 <= c -> c + 2 <= Z.of_nat n -> frame_room w ->
  UTP_FLAG_EXACT (frame w) ACK = false ->
  wp False False (close_recv_loop n c)
    (fun r w' => exists sent,
       wire w' = wire w ++ sent
       /\ Forall (teardown_frame (Z.lor FIN ACK)) sent
       /\ reads w' = (reads w + length sent)%nat
       /\ transport_only w w' /\ conn w' = conn w
       /\ match first_flagged ACK (socket w) (reads w) (Z.to_nat (c + 1)) with
          | Some j => r = 1 /\ length sent = S j
          | None => r = 0 /\ length sent = S (Z.to_nat (c + 1))
          end) w.
Proof.
  revert c w. induction n as [|n IH]; intros c w Hc Hn Hroom Hflag; [lia|].
  cbn [close_recv_loop]. wp_run. rewrite Hflag.
  round Hroom.
  match goal with |- wp _ _ _ _ (with_frame ?f _) => set (f1 := f) end.
  assert (Hf1 : teardown_frame (Z.lor FIN ACK) f1).
  { unfold teardown_frame, f1. split_and!; [reflexivity|reflexivity|].
    apply CodecFacts.UTP_MD5_VERIFY_after_ADD. }
  assert (Hlast : c < 0 ->
            first_flagged ACK (socket w) (reads w) (Z.to_nat (c + 1)) = None).
  { intros Hneg. by replace (Z.to_nat (c + 1)) with 0%nat by lia. }
  assert (Hmore : 0 <= c -> Z.to_nat (c + 1) = S (Z.to_nat (c - 1 + 1))) by lia.
  apply wp_UTP_RECV.
  - intros Hsock. wsimpl. wp_run. destruct (Z.ltb_spec c 0) as [Hneg|Hpos].
    + wp_run. exists [f1]. wsimpl. rewrite (Hlast Hneg).
      tidy.
    + eapply wp_mono.
      { apply (IH (c - 1)); [lia|lia|subst f1; room|reflexivity]. }
      cbv beta. intros r w' (sent & Hwire & Hall & Hreads & Ht & Hconn & Hres).
      exists (f1 :: sent). wsimpl.
      rewrite (Hmore Hpos). cbn [first_flagged]. rewrite Hsock.
      split_and!.
      * by rewrite Hwire, <- app_assoc.
      * by constructor.
      * rewrite Hreads. simpl. lia.
      * transport.
      * done.
      * destruct (first_flagged ACK (socket w) (S (reads w)) (Z.to_nat (c - 1 + 1)));
          cbn [fmap option_fmap option_map]; destruct Hres as [-> Hlen]; cbn [length]; by rewrite Hlen.
  - intros d Hsock. cbv zeta. wsimpl. wp_run. destruct (Z.ltb_spec c 0) as [Hneg|Hpos].
    + wp_run. exists [f1]. wsimpl. rewrite (Hlast Hneg).
      tidy.
    + rewrite (Hmore Hpos). cbn [first_flagged]. rewrite Hsock.
      destruct (flags d =? ACK) eqn:Efl.
      * destruct n as [|n]; [lia|]. cbn [close_recv_loop]. wp_run.
        unfold UTP_FLAG_EXACT. wsimpl.
        change (flags (UTP_MD5_VERIFY (recvfrom d f1)).1) with (flags d).
        rewrite Efl. wp_run. exists [f1]. wsimpl.
        tidy.
      * eapply wp_mono.
        { apply (IH (c - 1)); [lia|lia|subst f1; room|].
          unfold UTP_FLAG_EXACT. wsimpl.
          by change (flags (UTP_MD5_VERIFY (recvfrom d f1)).1) with (flags d). }
        cbv beta. intros r w' (sent & Hwire & Hall & Hreads & Ht & Hconn & Hres).
        exists (f1 :: sent). wsimpl.
        split_and!.
        -- by rewrite Hwire, <- app_assoc.
        -- by constructor.
        -- rewrite Hreads. simpl. lia.
        -- transport.
        -- done.
        -- destruct (first_flagged ACK (socket w) (S (reads w)) (Z.to_nat (c - 1 + 1)));
             cbn [fmap option_fmap option_map]; destruct Hres as [-> Hlen]; cbn [length]; by rewrite Hlen.
Qed.

(** X13. The responder side of the teardown, whatever the socket yields:
    [UTP_CLOSE_RECV] sends a FIN|ACK frame of size 0 with a valid tag before
    every receive, looks at the first seventeen datagrams for one whose
    flags are exactly ACK (its tag is not looked at), returns 1 right after
    the first one, and returns 0 after the eighteenth FIN|ACK when there is
    none.  It touches nothing but the shared frame, the clock, the socket
    and the wire. *)
Theorem UTP_CLOSE_RECV_rounds (w : world) :
  0 <= UTP_PAYLOAD (cfg w) ->
  exists r w' sent,
    UTP_CLOSE_RECV w = Ret r w'
    /\ wire w' = wire w ++ sent
    /\ Forall (teardown_frame (Z.lor FIN ACK)) sent
    /\ reads w' = (reads w + length sent)%nat
    /\ transport_only w w' /\ conn w' = conn w
    /\ match first_flagged ACK (socket w) (reads w) 17 with
       | Some j => r = 1 /\ length sent = S j
       | None => r = 0 /\ length sent = 18%nat
       end.
Proof.
  intros HP.
  cut (wp False False UTP_CLOSE_RECV
         (fun r w' => exists sent,
            wire w' = wire w ++ sent
            /\ Forall (teardown_frame (Z.lor FIN ACK)) sent
            /\ reads w' = (reads w + length sent)%nat
            /\ transport_only w w' /\ conn w' = conn w
            /\ match first_flagged ACK (socket w) (reads w) 17 with
               | Some j => r = 1 /\ length sent = S j
               | None => r = 0 /\ length sent = 18%nat
               end) w).
  { intros H%wp_total. destruct H as (r & w' & Hret & sent & H). by exists r, w', sent. }
  unfold UTP_CLOSE_RECV. wp_run. apply wp_clear_frame. wp_run.
  eapply wp_mono.
  { apply close_recv_loop_rounds;
      [unfold UTP_TEARDOWN_MAX; lia|unfold UTP_TEARDOWN_MAX; lia
      |by apply clear_frame_room|reflexivity]. }
  cbv beta. intros r w' (sent & Hwire & Hall & Hreads & Ht & Hconn & Hres).
  exists sent. wsimpl. split_and!; [done|done|done|transport|done|exact Hres].
Qed.

Lemma numbered_cons (s : Z) (f : utp_pack) (sent : list utp_pack) :
  seq f = wrap64 s ->
  (forall k g, sent !! k = Some g -> seq g = wrap64 (wrap64 (s + 1) + Z.of_nat k)) ->
  forall k g, (f :: sent) !! k = Some g -> seq g = wrap64 (s + Z.of_nat k).
Proof.
  intros Hf Hsent [|k] g Hk.
  - simpl in Hk. injection Hk as <-. rewrite Hf. f_equal. lia.
  - simpl in Hk. rewrite (Hsent k g Hk), wrap64_add_l. f_equal. lia.
Qed.

Lemma numbered_one (s : Z) (f : utp_pack) :
  seq f = wrap64 s ->
  forall k g, [f] !! k = Some g -> seq g = wrap64 (s + Z.of_nat k).
Proof. intros Hf. by apply numbered_cons. Qed.

Lemma wrap64_succ_add (s : Z) (n : nat) :
  wrap64 (wrap64 (s + 1) + Z.of_nat n) = wrap64 (s + Z.of_nat (S n)).
Proof. rewrite wrap64_add_l. f_equal. lia. Qed.

Lemma close_send_fin_rounds n c w :
  -1 <= c -> c + 2 <= Z.of_nat n -> frame_room w ->
  UTP_FLAG_EXACT (frame w) (Z.lor FIN ACK) = false ->
  wp False False (close_send_fin n c)
    (fun acked w' => exists sent,
       wire w' = wire w ++ sent
       /\ Forall (teardown_frame FIN) sent
       /\ (forall k f, sent !! k = Some f ->
             seq f = wrap64 (seqSend (conn w) + Z.of_nat k))
       /\ seqSend (conn w') = wrap64 (seqSend (conn w) + Z.of_nat (length sent))
       /\ seqRecv (conn w') = seqRecv (conn w)
       /\ reads w' = (reads w + length sent)%nat
       /\ transport_only w w' /\ frame_room w'
       /\ match first_flagged (Z.lor FIN ACK) (socket w) (reads w)
                  (Z.to_nat (c + 1)) with
          | Some j => acked = true /\ length sent = S j
          | None => acked = false /\ length sent = S (Z.to_nat (c + 1))
          end) w.
Proof.
  revert c w. induction n as [|n IH]; intros c w Hc Hn Hroom Hflag; [lia|].
  cbn [close_send_fin]. wp_run. rewrite Hflag.
  wp_run. apply wp_next_seqSend. round Hroom.
  match goal with |- wp _ _ _ _ (with_frame ?f _) => set (f1 := f) end.
  assert (Hf1 : teardown_frame FIN f1).
  { unfold teardown_frame, f1. split_and!; [reflexivity|reflexivity|].
    apply CodecFacts.UTP_MD5_VERIFY_after_ADD. }
  assert (Hseq1 : seq f1 = wrap64 (seqSend (conn w))) by reflexivity.
  assert (Hlast : c < 0 ->
            first_flagged (Z.lor FIN ACK) (socket w) (reads w) (Z.to_nat (c + 1))
            = None).
  { intros Hneg. by replace (Z.to_nat (c + 1)) with 0%nat by lia. }
  assert (Hmore : 0 <= c -> Z.to_nat (c + 1) = S (Z.to_nat (c - 1 + 1))) by lia.
  assert (Hstop : forall w1 b,
            wire w1 = wire w ++ [f1] ->
            conn w1 = Conn (wrap64 (seqSend (conn w) + 1)) (seqRecv (conn w)) ->
            reads w1 = S (reads w) -> transport_only w w1 -> frame_room w1 ->
            (match first_flagged (Z.lor FIN ACK) (socket w) (reads w)
                     (Z.to_nat (c + 1)) with
             | Some j => b = true /\ 1%nat = S j
             | None => b = false /\ 1%nat = S (Z.to_nat (c + 1))
             end) ->
            exists sent,
              wire w1 = wire w ++ sent
              /\ Forall (teardown_frame FIN) sent
              /\ (forall k f, sent !! k = Some f ->
                    seq f = wrap64 (seqSend (conn w) + Z.of_nat k))
              /\ seqSend (conn w1)
                 = wrap64 (seqSend (conn w) + Z.of_nat (length sent))
              /\ seqRecv (conn w1) = seqRecv (conn w)
              /\ reads w1 = (reads w + length sent)%nat
              /\ transport_only w w1 /\ frame_room w1
              /\ match first_flagged (Z.lor FIN ACK) (socket w) (reads w)
                         (Z.to_nat (c + 1)) with
                 | Some j => b = true /\ length sent = S j
                 | None => b = false /\ length sent = S (Z.to_nat (c + 1))
                 end).
  { intros w1 b Hw Hcn Hrd Ht Hr Hres. exists [f1].
    rewrite Hcn. wsimpl.
    split_and!; [done|by constructor|by apply numbered_one|done|done
                |simpl; lia|done|done|exact Hres]. }
  assert (Hgo : forall w1,
            wire w1 = wire w ++ [f1] ->
            conn w1 = Conn (wrap64 (seqSend (conn w) + 1)) (seqRecv (conn w)) ->
            reads w1 = S (reads w) -> transport_only w w1 -> frame_room w1 ->
            UTP_FLAG_EXACT (frame w1) (Z.lor FIN ACK) = false ->
            0 <= c ->
            first_flagged (Z.lor FIN ACK) (socket w) (reads w) (Z.to_nat (c + 1))
            = S <$> first_flagged (Z.lor FIN ACK) (socket w)
                                (S (reads w)) (Z.to_nat (c - 1 + 1)) ->
            wp False False (close_send_fin n (c - 1))
              (fun acked w' => exists sent,
                 wire w' = wire w ++ sent
                 /\ Forall (teardown_frame FIN) sent
                 /\ (forall k f, sent !! k = Some f ->
                       seq f = wrap64 (seqSend (conn w) + Z.of_nat k))
                 /\ seqSend (conn w')
                    = wrap64 (seqSend (conn w) + Z.of_nat (length sent))
                 /\ seqRecv (conn w') = seqRecv (conn w)
                 /\ reads w' = (reads w + length sent)%nat
                 /\ transport_only w w' /\ frame_room w'
                 /\ match first_flagged (Z.lor FIN ACK) (socket w) (reads w)
                            (Z.to_nat (c + 1)) with
                    | Some j => acked = true /\ length sent = S j
                    | None => acked = false /\ length sent = S (Z.to_nat (c + 1))
                    end) w1).
  { intros w1 Hw Hcn Hrd Ht Hr Hfl Hpos Hff.
    eapply wp_mono; [apply (IH (c - 1)); [lia|lia|done|done]|].
    cbv beta.
    intros acked w' (sent & Hwire & Hall & Hnum & Hss & Hsr & Hreads & Ht'
                     & Hroom' & Hres).
    assert (Hsock1 : socket w1 = socket w) by (unfold transport_only in Ht; tauto).
    rewrite Hcn, Hrd, Hsock1 in *. wsimpl.
    exists (f1 :: sent). split_and!.
    - by rewrite Hwire, Hw, <- app_assoc.
    - by constructor.
    - by apply numbered_cons.
    - rewrite Hss. apply wrap64_succ_add.
    - done.
    - rewrite Hreads. simpl. lia.
    - by eapply transport_only_trans.
    - done.
    - rewrite Hff.
      destruct (first_flagged (Z.lor FIN ACK) (socket w) (S (reads w))
                  (Z.to_nat (c - 1 + 1)));
        cbn [fmap option_fmap option_map]; destruct Hres as [-> Hlen];
        cbn [length]; (split; [done|lia]). }
  apply wp_UTP_RECV.
  - intros Hsock. wsimpl. wp_run. destruct (Z.ltb_spec c 0) as [Hneg|Hpos].
    + wp_run. apply Hstop; wsimpl;
        [done|by destruct (conn w)|done|transport|subst f1; room|].
      rewrite (Hlast Hneg). split; [done|lia].
    + apply Hgo; wsimpl;
        [done|by destruct (conn w)|done|transport|subst f1; room|reflexivity
        |done|].
      rewrite (Hmore Hpos). cbn [first_flagged]. by rewrite Hsock.
  - intros d Hsock. cbv zeta. wsimpl. wp_run.
    destruct (Z.ltb_spec c 0) as [Hneg|Hpos].
    + wp_run. apply Hstop; wsimpl;
        [done|by destruct (conn w)|done|transport|subst f1; room|].
      rewrite (Hlast Hneg). split; [done|lia].
    + destruct (flags d =? Z.lor FIN ACK) eqn:Efl.
      * destruct n as [|n]; [lia|]. cbn [close_send_fin]. wp_run.
        unfold UTP_FLAG_EXACT. wsimpl.
        change (flags (UTP_MD5_VERIFY (recvfrom d f1)).1) with (flags d).
        rewrite Efl. wp_run. apply Hstop; wsimpl;
          [done|by destruct (conn w)|done|transport|subst f1; room|].
        rewrite (Hmore Hpos). cbn [first_flagged]. rewrite Hsock, Efl. done.
      * apply Hgo; wsimpl;
          [done|by destruct (conn w)|done|transport|subst f1; room|
          |done|].
        -- unfold UTP_FLAG_EXACT. wsimpl.
           by change (flags (UTP_MD5_VERIFY (recvfrom d f1)).1) with (flags d).
        -- rewrite (Hmore Hpos). cbn [first_flagged]. by rewrite Hsock, Efl.
Qed.

Lemma close_send_ack_rounds n c w :
  -1 <= c -> c + 2 <= Z.of_nat n -> frame_room w ->
  wp False False (close_send_ack n c)
    (fun r w' => exists sent,
       wire w' = wire w ++ sent
       /\ Forall (teardown_frame ACK) sent
       /\ (forall k f, sent !! k = Some f ->
             seq f = wrap64 (seqSend (conn w) + Z.of_nat k))
       /\ seqSend (conn w') = wrap64 (seqSend (conn w) + Z.of_nat (length sent))
       /\ seqRecv (conn w') = seqRecv (conn w)
       /\ transport_only w w'
       /\ (1 <= length sent)%nat
       /\ (r = 1 /\ Z.of_nat (length sent) <= c + 1
           \/ r = 0 /\ Z.of_nat (length sent) = c + 2)
       /\ (0 <= c -> socket w (reads w) = NoDatagram ->
           r = 1 /\ length sent = 1%nat)) w.
Proof.
  revert c w. induction n as [|n IH]; intros c w Hc Hn Hroom; [lia|].
  cbn [close_send_ack]. wp_run. apply wp_next_seqSend. round Hroom.
  match goal with |- wp _ _ _ _ (with_frame ?f _) => set (f1 := f) end.
  assert (Hf1 : teardown_frame ACK f1).
  { unfold teardown_frame, f1. split_and!; [reflexivity|reflexivity|].
    apply CodecFacts.UTP_MD5_VERIFY_after_ADD. }
  assert (Hseq1 : seq f1 = wrap64 (seqSend (conn w))) by reflexivity.
  assert (Hstop : forall w1 r,
            wire w1 = wire w ++ [f1] ->
            conn w1 = Conn (wrap64 (seqSend (conn w) + 1)) (seqRecv (conn w)) ->
            transport_only w w1 ->
            (r = 1 /\ 0 <= c \/ r = 0 /\ c = -1) ->
            (0 <= c -> socket w (reads w) = NoDatagram -> r = 1) ->
            exists sent,
              wire w1 = wire w ++ sent
              /\ Forall (teardown_frame ACK) sent
              /\ (forall k f, sent !! k = Some f ->
                    seq f = wrap64 (seqSend (conn w) + Z.of_nat k))
              /\ seqSend (conn w1)
                 = wrap64 (seqSend (conn w) + Z.of_nat (length sent))
              /\ seqRecv (conn w1) = seqRecv (conn w)
              /\ transport_only w w1
              /\ (1 <= length sent)%nat
              /\ (r = 1 /\ Z.of_nat (length sent) <= c + 1
                  \/ r = 0 /\ Z.of_nat (length sent) = c + 2)
              /\ (0 <= c -> socket w (reads w) = NoDatagram ->
                  r = 1 /\ length sent = 1%nat)).
  { intros w1 r Hw Hcn Ht Hr Hsil. exists [f1]. rewrite Hcn. wsimpl.
    split_and!; [done|by constructor|by apply numbered_one|done|done|done
                |simpl; lia|simpl; lia|].
    intros Hpos Hs. split; [by apply Hsil|done]. }
  destruct (Z.ltb_spec c 0) as [Hneg|Hpos].
  { wp_run. apply Hstop; wsimpl;
      [done|by destruct (conn w)|transport|right; lia|lia]. }
  wp_run. apply wp_UTP_RECV.
  - intros Hsock. wsimpl. wp_run. wsimpl.
    change (negb (0 =? 0) && _) with false. cbv iota. wp_run.
    apply Hstop; wsimpl; [done|by destruct (conn w)|transport|left; lia|done].
  - intros d Hsock. cbv zeta. wsimpl. wp_run.
    match goal with |- wp _ _ (if ?b then _ else _) _ _ => destruct b end.
    + eapply wp_mono; [apply (IH (c - 1)); [lia|lia|subst f1; room]|].
      cbv beta.
      intros r w' (sent & Hwire & Hall & Hnum & Hss & Hsr & Ht' & Hone & Hres & _).
      wsimpl. exists (f1 :: sent). split_and!.
      * by rewrite Hwire, <- app_assoc.
      * by constructor.
      * by apply numbered_cons.
      * rewrite Hss. apply wrap64_succ_add.
      * done.
      * eapply transport_only_trans; [|exact Ht']. transport.
      * simpl. lia.
      * cbn [length]. lia.
      * intros _ Hs. congruence.
    + wp_run.
      apply Hstop; wsimpl; [done|by destruct (conn w)|transport|left; lia|done].
Qed.

(** X14. The initiator side of the teardown, whatever the socket yields:
    [UTP_CLOSE_SEND] sends a FIN before every receive and looks at the
    first seventeen datagrams for one whose flags are exactly FIN|ACK (its
    tag is not looked at).  With none it returns 0 after the eighteenth
    FIN.  With one it goes on to send between one and eighteen ACK frames
    and returns 0 exactly when it sent the eighteenth; a silent socket
    after the first ACK makes it return 1 at once.  All frames sent have
    size 0 and a valid tag and carry consecutive sequence numbers from
    [conn.seqSend] on, which is advanced by their number; nothing but the
    shared frame, the connection, the clock, the socket and the wire is
    touched. *)
Theorem UTP_CLOSE_SEND_rounds (w : world) :
  0 <= UTP_PAYLOAD (cfg w) ->
  exists r w' fins acks,
    UTP_CLOSE_SEND w = Ret r w'
    /\ wire w' = wire w ++ fins ++ acks
    /\ Forall (teardown_frame FIN) fins
    /\ Forall (teardown_frame ACK) acks
    /\ (forall k f, (fins ++ acks) !! k = Some f ->
          seq f = wrap64 (seqSend (conn w) + Z.of_nat k))
    /\ seqSend (conn w')
       = wrap64 (seqSend (conn w) + Z.of_nat (length (fins ++ acks)))
    /\ seqRecv (conn w') = seqRecv (conn w)
    /\ transport_only w w'
    /\ match first_flagged (Z.lor FIN ACK) (socket w) (reads w) 17 with
       | Some j =>
           length fins = S j
           /\ (1 <= length acks <= 18)%nat
           /\ (r = 1 /\ (length acks <= 17)%nat \/ r = 0 /\ length acks = 18%nat)
           /\ (socket w (reads w + S j)%nat = NoDatagram ->
               r = 1 /\ length acks = 1%nat)
       | None => r = 0 /\ length fins = 18%nat /\ acks = []
       end.
Proof.
  intros HP.
  cut (wp False False UTP_CLOSE_SEND
         (fun r w' => exists fins acks,
            wire w' = wire w ++ fins ++ acks
            /\ Forall (teardown_frame FIN) fins
            /\ Forall (teardown_frame ACK) acks
            /\ (forall k f, (fins ++ acks) !! k = Some f ->
                  seq f = wrap64 (seqSend (conn w) + Z.of_nat k))
            /\ seqSend (conn w')
               = wrap64 (seqSend (conn w) + Z.of_nat (length (fins ++ acks)))
            /\ seqRecv (conn w') = seqRecv (conn w)
            /\ transport_only w w'
            /\ match first_flagged (Z.lor FIN ACK) (socket w) (reads w) 17 with
               | Some j =>
                   length fins = S j
                   /\ (1 <= length acks <= 18)%nat
                   /\ (r = 1 /\ (length acks <= 17)%nat
                       \/ r = 0 /\ length acks = 18%nat)
                   /\ (socket w (reads w + S j)%nat = NoDatagram ->
                       r = 1 /\ length acks = 1%nat)
               | None => r = 0 /\ length fins = 18%nat /\ acks = []
               end) w).
  { intros H%wp_total. destruct H as (r & w' & Hret & fins & acks & H).
    by exists r, w', fins, acks. }
  unfold UTP_CLOSE_SEND. wp_run. apply wp_clear_frame. wp_run.
  eapply wp_mono.
  { apply close_send_fin_rounds;
      [unfold UTP_TEARDOWN_MAX; lia|unfold UTP_TEARDOWN_MAX; lia
      |by apply clear_frame_room|reflexivity]. }
  cbv beta.
  intros acked w1 (fins & Hwire & Hall & Hnum & Hss & Hsr & Hreads & Ht & Hroom1
                   & Hres).
  wsimpl. change (Z.to_nat (UTP_TEARDOWN_MAX + 1)) with 17%nat in Hres.
  destruct (first_flagged (Z.lor FIN ACK) (socket w) (reads w) 17) as [j|];
    destruct Hres as [-> Hlen].
  - eapply wp_mono.
    { apply close_send_ack_rounds;
        [unfold UTP_TEARDOWN_MAX; lia|unfold UTP_TEARDOWN_MAX; lia|done]. }
    cbv beta.
    intros r w' (acks & Hwire' & Hall' & Hnum' & Hss' & Hsr' & Ht' & Hone & Hr
                 & Hsil).
    assert (Hsock1 : socket w1 = socket w) by (unfold transport_only in Ht; tauto).
    rewrite Hsock1, Hreads, Hlen in Hsil.
    unfold UTP_TEARDOWN_MAX in *.
    exists fins, acks. split_and!.
    + by rewrite Hwire', Hwire, <- app_assoc.
    + done.
    + done.
    + intros k f Hk. apply lookup_app_Some in Hk as [Hk|[Hge Hk]].
      * by apply Hnum.
      * rewrite (Hnum' _ _ Hk), Hss, wrap64_add_l. f_equal. lia.
    + rewrite Hss', Hss, wrap64_add_l, length_app. f_equal. lia.
    + congruence.
    + eapply transport_only_trans; [|exact Ht']. transport.
    + done.
    + lia.
    + lia.
    + lia.
    + intros Hs. apply Hsil; [lia|done].
  - wp_run. exists fins, []. rewrite !app_nil_r. unfold UTP_TEARDOWN_MAX in *.
    split_and!; first [done|transport].
Qed.

Lemma UTP_CLOSE_RECV_rounds_witness :
  exists r w',
    UTP_CLOSE_RECV (Scenario.opened Scenario.damaged_ack) = Ret r w'
    /\ r = 1 /\ length (wire w') = 1%nat.
Proof.
  destruct (UTP_CLOSE_RECV_rounds (Scenario.opened Scenario.damaged_ack))
    as (r & w' & sent & Hret & Hwire & _ & _ & _ & _ & Hres).
  - vm_compute. discriminate.
  - change (first_flagged ACK (socket (Scenario.opened Scenario.damaged_ack))
              (reads (Scenario.opened Scenario.damaged_ack)) 17)
      with (Some 0%nat) in Hres.
    destruct Hres as [Hr Hlen]. exists r, w'.
    split; [exact Hret|]. split; [exact Hr|].
    rewrite Hwire, length_app, Hlen. reflexivity.
Defined.

Lemma UTP_CLOSE_SEND_rounds_witness :
  exists r w',
    UTP_CLOSE_SEND (Scenario.opened Scenario.late_finack) = Ret r w'
    /\ r = 1 /\ length (wire w') = 18%nat
    /\ seqSend (conn w') = 1018.
Proof.
  destruct (UTP_CLOSE_SEND_rounds (Scenario.opened Scenario.late_finack))
    as (r & w' & fins & acks & Hret & Hwire & _ & _ & _ & Hss & _ & _ & Hres).
  - vm_compute. discriminate.
  - change (first_flagged (Z.lor FIN ACK)
              (socket (Scenario.opened Scenario.late_finack))
              (reads (Scenario.opened Scenario.late_finack)) 17)
      with (Some 16%nat) in Hres.
    destruct Hres as (Hfins & _ & _ & Hsil).
    destruct (Hsil eq_refl) as [Hr Hacks]. exists r, w'.
    split; [exact Hret|]. split; [exact Hr|].
    rewrite Hss, Hwire, !length_app, Hfins, Hacks. split; reflexivity.
Defined.

End RoundsFacts.

(** ** The repeat threads *)

Module RepeatFacts.

Import Int Utp Machine Transport Main Logic Window Rounds.
Import IntFacts UtpFacts WindowFacts LogicFacts TransportFacts FlagFacts DeliveryFacts SlideFacts TeardownFacts EventFacts.

Lemma wp_UTP_TIMEOUT_EXPIRED_exact F D t (Q : Z -> world -> Prop) w :
  Q (if wrap64 (t + UTP_TIMEOUT (cfg w)) <? clock w (ticks w) then 1 else 0)
    (with_ticks (S (ticks w)) w) ->
  wp F D (UTP_TIMEOUT_EXPIRED t) Q w.
Proof. intros H. exact H. Qed.

(** X15. The resend thread and the frame at the base of the send window.
    While [sendLast] lies outside the window (nothing outstanding) a pass
    of [resend] changes nothing.  With [sendLast = sendNext] it looks at
    slot 0 only: the frame there is sent again exactly when its sequence
    number differs from that of the ack in slot 0 and its time stamp plus
    the timeout lies before the clock; the frame sent is the stored one
    with RES added, a fresh time stamp and a valid tag, and it replaces the
    stored one.  The tracker and the other buffers stay as they are. *)
Theorem resend_step_first_slot (w : world) (s0 a0 : utp_pack)
    (ss aa : list utp_pack) :
  send (buffer w) = s0 :: ss ->
  acks (buffer w) = a0 :: aa ->
  (sequenceInSpan w (sendLast (status w)) (sendNext (status w)) = false ->
   resend_step w = Ret tt w)
  /\ (0 < wsize w ->
      wrap64 (sendLast (status w) - sendNext (status w)) = 0 ->
      let due := negb (seq s0 =? seq a0)
                 && (wrap64 (time s0 + UTP_TIMEOUT (cfg w)) <? clock w (ticks w)) in
      exists w',
        resend_step w = Ret tt w'
        /\ status w' = status w /\ recv (buffer w') = recv (buffer w)
        /\ acks (buffer w') = acks (buffer w) /\ ev w' = ev w /\ conn w' = conn w
        /\ frame w' = frame w
        /\ if due then
             exists f,
               wire w' = wire w ++ [f] /\ send (buffer w') = f :: ss
               /\ UTP_FLAG f RES = true /\ flags f = Z.lor (flags s0) RES
               /\ seq f = seq s0 /\ size f = size s0 /\ msg f = msg s0
               /\ time f = clock w (S (ticks w))
               /\ snd (UTP_MD5_VERIFY f) = 1
           else wire w' = wire w /\ send (buffer w') = send (buffer w)).
Proof.
  intros Hsend Hacks. split.
  - intros Hspan. unfold resend_step, bind, get. by rewrite Hspan.
  - intros HW Hlast due. apply wp_returns. unfold resend_step. wp_run.
    unfold sequenceInSpan. rewrite Hlast.
    replace ((0 <=? 0) && (0 <? wsize w)) with true by lia.
    change (Z.to_nat (0 + 1)) with 1%nat. cbn [for_slots]. wp_run.
    unfold resend_slot. wp_run. rewrite Hacks, Hsend.
    change (getFrame 0) with 0.
    eapply wp_lift_Some; [reflexivity|]. wp_run.
    eapply wp_lift_Some; [reflexivity|].
    subst due. destruct (seq s0 =? seq a0) eqn:Eseq; cbn [negb andb].
    { wp_run. rewrite Hsend, Hacks. by split_and!. }
    wp_run. apply wp_UTP_TIMEOUT_EXPIRED_exact.
    destruct (wrap64 (time s0 + UTP_TIMEOUT (cfg w)) <? clock w (ticks w)) eqn:Eexp.
    + change (negb (1 =? 0)) with true. cbv iota. wp_run.
      apply wp_UTP_SEND. cbv zeta. wp_run. wsimpl. rewrite Hsend.
      change (slot_store 0 ?f (s0 :: ss)) with (Some (f :: ss)).
      eapply wp_lift_Some; [reflexivity|]. wp_run. wsimpl. rewrite Hacks.
      split_and!; try done. eexists. split_and!; try reflexivity.
      * unfold UTP_FLAG.
        change (flags (UTP_MD5_ADD (set_time (clock w (S (ticks w)))
                                      (UTP_FLAG_ADD RES s0))))
          with (Z.lor (flags s0) RES).
        apply Z.eqb_eq, land_lor_same.
      * apply CodecFacts.UTP_MD5_VERIFY_after_ADD.
    + change (negb (0 =? 0)) with false. cbv iota. wp_run. wsimpl.
      rewrite Hsend, Hacks. by split_and!.
Qed.

Lemma slot_load_beyond (i : Z) (b : list utp_pack) :
  Z.of_nat (length b) <= sizeof_utp_pack -> 1 <= i ->
  slot_load (getFrame i) b = None.
Proof.
  intros Hlen Hi. unfold slot_load, getFrame, sizeof_utp_pack in *.
  destruct (0 <=? i * 48); [|done]. apply lookup_ge_None_2. nia.
Qed.

Lemma resend_slot_keeps_acks i w :
  wp True False (resend_slot i)
    (fun _ w' => acks (buffer w') = acks (buffer w)) w.
Proof.
  unfold resend_slot. wp_run. wp_lift_partial. wp_run. wp_lift_partial.
  match goal with |- wp _ _ (if ?b then _ else _) _ _ => destruct b end;
    [|by wp_run].
  wp_run. apply wp_UTP_TIMEOUT_EXPIRED. intros r.
  destruct (negb (r =? 0)); [|by wp_run].
  wp_run. apply wp_UTP_SEND. cbv zeta. wp_run. wp_lift_partial. by wp_run.
Qed.

(** X16. The resend thread reaches no second frame: [getFrame] scales its
    index by the size of the frame header, so with two or more frames
    outstanding the pass of [resend] runs into an access outside the acks
    buffer, whenever the window has no more slots than that size (48). *)
Theorem resend_step_second_slot_faults (w : world) :
  wsize w <= sizeof_utp_pack ->
  Z.of_nat (length (acks (buffer w))) = wsize w ->
  1 <= wrap64 (sendLast (status w) - sendNext (status w)) < wsize w ->
  resend_step w = Fault.
Proof.
  intros Hsmall Hlen Hlast. apply wp_faults. unfold resend_step. wp_run.
  unfold sequenceInSpan. replace (_ && _) with true by lia.
  replace (Z.to_nat (wrap64 (sendLast (status w) - sendNext (status w)) + 1))
    with (S (S (Z.to_nat (wrap64 (sendLast (status w) - sendNext (status w)) - 1))))
    by lia.
  cbn [for_slots]. wp_run.
  eapply wp_mono; [apply resend_slot_keeps_acks|].
  cbv beta. intros _ w1 Hacks. wp_run.
  unfold resend_slot. wp_run. rewrite Hacks.
  rewrite slot_load_beyond by lia.
  by apply wp_lift.
Qed.

(** X17. The request thread and the frame at the base of the receive
    window.  While [recvLast] lies outside the window (nothing missing) a
    pass of [request] changes nothing.  With [recvLast = recvNext] it looks
    at slot 0 only, and sends one NAK|REQ frame of size 0 for [recvNext]
    exactly when the time stamp of the frame in slot 0 plus the timeout
    lies before the clock and that frame does not carry [recvNext]; the
    windows and the tracker stay as they are. *)
Theorem request_step_first_slot (w : world) (r0 : utp_pack) (rr : list utp_pack) :
  recv (buffer w) = r0 :: rr ->
  (sequenceInSpan w (recvLast (status w)) (recvNext (status w)) = false ->
   request_step w = Ret tt w)
  /\ (0 < wsize w -> frame_room w ->
      wrap64 (recvLast (status w) - recvNext (status w)) = 0 ->
      let due := (wrap64 (time r0 + UTP_TIMEOUT (cfg w)) <? clock w (ticks w))
                 && negb (wrap64 (seq r0 - recvNext (status w)) =? 0) in
      exists w',
        request_step w = Ret tt w'
        /\ status w' = status w /\ buffer w' = buffer w /\ ev w' = ev w
        /\ conn w' = conn w
        /\ if due then
             exists f,
               wire w' = wire w ++ [f] /\ frame w' = f
               /\ flags f = Z.lor NAK REQ /\ size f = 0
               /\ seq f = wrap64 (recvNext (status w))
               /\ snd (UTP_MD5_VERIFY f) = 1
           else wire w' = wire w /\ frame w' = frame w).
Proof.
  intros Hrecv. split.
  - intros Hspan. unfold request_step, bind, get. by rewrite Hspan.
  - intros HW Hroom Hlast due. apply wp_returns. unfold request_step. wp_run.
    unfold sequenceInSpan. rewrite Hlast.
    replace ((0 <=? 0) && (0 <? wsize w)) with true by lia.
    cbv zeta. wp_run. rewrite Hrecv. change (getFrame 0) with 0.
    eapply wp_lift_Some; [reflexivity|]. wp_run.
    apply wp_UTP_TIMEOUT_EXPIRED_exact. subst due.
    destruct (wrap64 (time r0 + UTP_TIMEOUT (cfg w)) <? clock w (ticks w)) eqn:Eexp;
      cbn [andb].
    2:{ change (negb (0 =? 0)) with false. cbv iota. wp_run. wsimpl. by split_and!. }
    change (negb (1 =? 0)) with true. cbv iota.
    change (Z.to_nat (0 + 1)) with 1%nat. cbn [for_slots]. wp_run.
    unfold request_slot. wp_run. wsimpl. rewrite Hrecv.
    change (getFrame 0) with 0.
    eapply wp_lift_Some; [reflexivity|].
    destruct (wrap64 (seq r0 - recvNext (status w)) =? 0) eqn:Eseq; cbn [negb].
    { wp_run. wsimpl. by split_and!. }
    wp_run. apply wp_pack_properties; [done|exact Hroom|]. intros m Hm.
    wp_run. apply wp_send_frame. cbv zeta. wp_run. wsimpl.
    split_and!; try done. eexists. split_and!; try reflexivity.
    + change (seq (UTP_MD5_ADD ?g)) with (seq g). wsimpl.
      by rewrite Z.add_0_r.
    + apply CodecFacts.UTP_MD5_VERIFY_after_ADD.
Qed.

(** X18. The request thread reaches no gap: with [recvLast] ahead of
    [recvNext] the pass of [request] starts by reading the time stamp of
    the frame [getFrame] addresses for their difference, which lies outside
    the receive buffer whenever the window has no more slots than the size
    of the frame header (48). *)
Theorem request_step_gap_faults (w : world) :
  wsize w <= sizeof_utp_pack ->
  Z.of_nat (length (recv (buffer w))) = wsize w ->
  1 <= wrap64 (recvLast (status w) - recvNext (status w)) < wsize w ->
  request_step w = Fault.
Proof.
  intros Hsmall Hlen Hlast. apply wp_faults. unfold request_step. wp_run.
  unfold sequenceInSpan. replace (_ && _) with true by lia.
  cbv zeta. wp_run. rewrite slot_load_beyond by lia.
  by apply wp_lift.
Qed.

Lemma resend_step_first_slot_witness :
  exists w',
    resend_step Scenario.one_outstanding = Ret tt w'
    /\ status w' = status Scenario.one_outstanding
    /\ map flags (wire w') = [RES]
    /\ map seq (wire w') = [1000].
Proof.
  destruct (resend_step_first_slot Scenario.one_outstanding
              (UTP_MD5_ADD (Pack 2 1000 900000 MSG (zeros 16)
                              (Scenario.text_ab ++ zeros 2)))
              (zero_frame Scenario.small)
              [zero_frame Scenario.small; zero_frame Scenario.small;
               zero_frame Scenario.small]
              [zero_frame Scenario.small; zero_frame Scenario.small;
               zero_frame Scenario.small]
              eq_refl eq_refl) as [_ H].
  destruct H as (w' & Hret & Hst & _ & _ & _ & _ & _ & Hdue).
  - vm_compute. reflexivity.
  - vm_compute. reflexivity.
  - cbv zeta in Hdue.
    match type of Hdue with
    | (if ?c then _ else _) => change c with true in Hdue
    end.
    cbv iota in Hdue.
    destruct Hdue as (f & Hwire & _ & _ & Hfl & Hsq & _).
    exists w'. split; [exact Hret|]. split; [exact Hst|].
    rewrite Hwire. change (wire Scenario.one_outstanding) with (@nil utp_pack).
    cbn [map app]. rewrite Hfl, Hsq. split; reflexivity.
Defined.

Lemma resend_step_second_slot_faults_witness :
  resend_step Scenario.two_acked = Fault.
Proof.
  apply (resend_step_second_slot_faults Scenario.two_acked).
  - vm_compute. discriminate.
  - reflexivity.
  - vm_compute. split; [discriminate|reflexivity].
Defined.

Lemma request_step_first_slot_witness :
  exists w',
    request_step Scenario.one_missing = Ret tt w'
    /\ status w' = status Scenario.one_missing
    /\ map flags (wire w') = [Z.lor NAK REQ]
    /\ map seq (wire w') = [2001].
Proof.
  destruct (request_step_first_slot Scenario.one_missing
              (zero_frame Scenario.small)
              [zero_frame Scenario.small; zero_frame Scenario.small;
               zero_frame Scenario.small]
              eq_refl) as [_ H].
  destruct H as (w' & Hret & Hst & _ & _ & _ & Hdue).
  - vm_compute. reflexivity.
  - vm_compute. split; discriminate.
  - vm_compute. reflexivity.
  - cbv zeta in Hdue.
    match type of Hdue with
    | (if ?c then _ else _) => change c with true in Hdue
    end.
    cbv iota in Hdue.
    destruct Hdue as (f & Hwire & _ & Hfl & _ & Hsq & _).
    exists w'. split; [exact Hret|]. split; [exact Hst|].
    rewrite Hwire. change (wire Scenario.one_missing) with (@nil utp_pack).
    cbn [map app]. rewrite Hfl, Hsq. split; reflexivity.
Defined.

Lemma request_step_gap_faults_witness :
  request_step Scenario.gap_of_two = Fault.
Proof.
  apply (request_step_gap_faults Scenario.gap_of_two).
  - vm_compute. discriminate.
  - reflexivity.
  - vm_compute. split; [discriminate|reflexivity].
Defined.

End RepeatFacts.

(** ** Lines from the terminal *)

Module InputFacts.

Import Int Utp Machine Transport Main Logic Window Rounds.
Import IntFacts UtpFacts WindowFacts LogicFacts TransportFacts FlagFacts DeliveryFacts SlideFacts TeardownFacts EventFacts.

Ltac len :=
  repeat first [rewrite length_app | rewrite length_cons | rewrite zeros_length
               | rewrite length_take | rewrite length_drop ];
  cbn [length]; lia.

Lemma scan_nul_exact (a z : list byte) :
  Forall (fun b => b <> x00) a ->
  scan_nul (a ++ x00 :: z) = Some (Z.of_nat (length a)).
Proof.
  induction 1 as [|b a Hb Ha IH]; [done|].
  cbn [app scan_nul length]. destruct (Byte.eqb b x00) eqn:E.
  { by apply Byte.byte_dec_bl in E. }
  rewrite IH. cbn [fmap option_fmap option_map]. f_equal. lia.
Qed.

Lemma zeros_app (a b : Z) : 0 <= a -> 0 <= b -> zeros a ++ zeros b = zeros (a + b).
Proof.
  intros Ha Hb. unfold zeros. rewrite <- replicate_add. f_equal. lia.
Qed.

Lemma zeros_cons (n : Z) : 0 <= n -> x00 :: zeros n = zeros (n + 1).
Proof. intros H. rewrite (zeros_S (n + 1)) by lia. do 2 f_equal. lia. Qed.

(** X19. A line read from the terminal is appended to what is pending in
    the input buffer, without its newline and without any separator, and
    [inPos] moves to its end; the result tells whether the line, on its
    own, is the quit message, whatever is pending. *)
Theorem readInputWithQuit_appends_line (w : world) (pending body : list byte) :
  input (ev w) = pending ++ zeros (BUFFER_SIZE - Z.of_nat (length pending)) ->
  inPos (ev w) = Z.of_nat (length pending) ->
  Forall (fun b => b <> x00) body ->
  Z.of_nat (length pending) + Z.of_nat (length body) + 2 <= BUFFER_SIZE ->
  exists quit,
    readInputWithQuit (body ++ [x0a]) w
    = Ret quit
        (with_inPos (Z.of_nat (length (pending ++ body)))
           (with_input
              ((pending ++ body)
                 ++ zeros (BUFFER_SIZE - Z.of_nat (length (pending ++ body)))) w))
    /\ (quit = true <-> body ++ [x0a] = QUIT_MSG).
Proof.
  intros Hin Hpos Hbody Hfit.
  set (p := Z.of_nat (length pending)) in *.
  set (n := Z.of_nat (length body)) in *.
  exists (bytes_eqb (body ++ [x0a]) QUIT_MSG). split; [|apply bytes_eqb_eq].
  assert (Hlen : Z.of_nat (length (input (ev w))) = BUFFER_SIZE).
  { rewrite Hin, length_app, zeros_length. lia. }
  apply wp_exact. unfold readInputWithQuit. wp_run. rewrite Hpos.
  replace ((BUFFER_SIZE - p <=? 0) || (length (body ++ [x0a]) =? 0)%nat)
    with false.
  2:{ symmetry. apply orb_false_iff. split; [lia|].
      rewrite length_app. simpl. apply Nat.eqb_neq. lia. }
  rewrite (take_ge (body ++ [x0a])) by len.
  rewrite mem_write_Some by len.
  eapply wp_lift_Some; [reflexivity|]. wp_run.
  assert (Estream :
    take (Z.to_nat p) (input (ev w)) ++ ((body ++ [x0a]) ++ [x00])
      ++ drop (Z.to_nat p + length ((body ++ [x0a]) ++ [x00])) (input (ev w))
    = pending ++ (body ++ [x0a]) ++ x00 :: zeros (BUFFER_SIZE - p - n - 2)).
  { rewrite Hin. unfold p. rewrite Nat2Z.id, take_app_length.
    rewrite drop_app_ge by len.
    rewrite drop_zeros. rewrite <- !app_assoc. do 3 f_equal. simpl. f_equal.
    f_equal. rewrite !length_app. simpl. lia. }
  rewrite Estream.
  assert (Estrlen : strlen p (pending ++ (body ++ [x0a])
                                ++ x00 :: zeros (BUFFER_SIZE - p - n - 2))
                    = Some (n + 1)).
  { unfold strlen.
    replace ((0 <=? p) && _) with true
      by len.
    unfold p. rewrite Nat2Z.id, drop_app_length.
    rewrite scan_nul_exact.
    - f_equal. len.
    - apply Forall_app. split; [done|]. by repeat constructor. }
  rewrite Estrlen. eapply wp_lift_Some; [reflexivity|]. wp_run.
  rewrite mem_read_Some by len.
  eapply wp_lift_Some; [reflexivity|]. wp_run.
  assert (Etext : take (Z.to_nat (n + 1))
                    (drop (Z.to_nat p)
                       (pending ++ (body ++ [x0a])
                          ++ x00 :: zeros (BUFFER_SIZE - p - n - 2)))
                  = body ++ [x0a]).
  { unfold p. rewrite Nat2Z.id, drop_app_length.
    rewrite take_app_length'; [done|]. len. }
  rewrite Etext.
  unfold mem_zero. replace (0 <=? 1) with true by done.
  rewrite mem_write_Some by len.
  eapply wp_lift_Some; [reflexivity|]. wp_run. split; [done|].
  assert (Efinal :
    take (Z.to_nat (p + (n + 1 - 1)))
      (pending ++ (body ++ [x0a]) ++ x00 :: zeros (BUFFER_SIZE - p - n - 2))
      ++ zeros 1
      ++ drop (Z.to_nat (p + (n + 1 - 1)) + length (zeros 1))
           (pending ++ (body ++ [x0a]) ++ x00 :: zeros (BUFFER_SIZE - p - n - 2))
    = (pending ++ body) ++ zeros (BUFFER_SIZE - Z.of_nat (length (pending ++ body)))).
  { replace (pending ++ (body ++ [x0a]) ++ x00 :: zeros (BUFFER_SIZE - p - n - 2))
      with ((pending ++ body) ++ [x0a] ++ x00 :: zeros (BUFFER_SIZE - p - n - 2))
      by (by rewrite <- !app_assoc).
    replace (Z.to_nat (p + (n + 1 - 1))) with (length (pending ++ body))
      by (rewrite length_app; lia).
    rewrite take_app_length.
    rewrite drop_app_ge by lia.
    replace (length (pending ++ body) + length (zeros 1) - length (pending ++ body))%nat
      with 1%nat by (rewrite zeros_length; lia).
    cbn [app drop]. f_equal. change (zeros 1) with [x00]. cbn [app].
    rewrite zeros_cons by lia. rewrite zeros_cons by lia. f_equal.
    rewrite length_app. lia. }
  rewrite Efinal. f_equal. rewrite length_app. lia.
Qed.

Lemma readInputWithQuit_appends_line_witness :
  exists quit,
    readInputWithQuit ([x51; x55; x49; x54] ++ [x0a]) (Scenario.small_world Scenario.silence)
    = Ret quit
        (with_inPos (Z.of_nat (length ([] ++ [x51; x55; x49; x54])))
           (with_input
              (([] ++ [x51; x55; x49; x54])
                 ++ zeros (BUFFER_SIZE
                           - Z.of_nat (length ([] ++ [x51; x55; x49; x54]))))
              (Scenario.small_world Scenario.silence)))
    /\ (quit = true <-> [x51; x55; x49; x54] ++ [x0a] = QUIT_MSG).
Proof.
  apply (readInputWithQuit_appends_line (Scenario.small_world Scenario.silence)
           [] [x51; x55; x49; x54]).
  - reflexivity.
  - reflexivity.
  - repeat constructor; discriminate.
  - vm_compute. discriminate.
Defined.

(** X20. End of input on the terminal: [fgets] stores nothing, the string
    at [inPos] is empty, and the NUL meant to replace the newline is written
    one byte before [inPos].  With bytes pending the last of them is lost;
    with none pending the write lands in front of the input buffer. *)
Theorem readInputWithQuit_end_of_input (w : world) (pending : list byte) :
  input (ev w) = pending ++ zeros (BUFFER_SIZE - Z.of_nat (length pending)) ->
  inPos (ev w) = Z.of_nat (length pending) ->
  Z.of_nat (length pending) < BUFFER_SIZE ->
  readInputWithQuit [] w
  = match pending with
    | [] => Fault
    | _ :: _ =>
        Ret false
          (with_inPos (Z.of_nat (length pending) - 1)
             (with_input
                (take (length pending - 1) pending
                   ++ zeros (BUFFER_SIZE - (Z.of_nat (length pending) - 1))) w))
    end.
Proof.
  intros Hin Hpos Hfit.
  set (p := Z.of_nat (length pending)) in *.
  assert (Hlen : Z.of_nat (length (input (ev w))) = BUFFER_SIZE).
  { rewrite Hin. len. }
  assert (Estrlen : strlen p (input (ev w)) = Some 0).
  { unfold strlen. replace ((0 <=? p) && _) with true by lia.
    rewrite Hin. unfold p. rewrite Nat2Z.id, drop_app_length.
    rewrite zeros_S by lia. reflexivity. }
  assert (Hstart : forall F Q,
            wp F False
              (let* stream := lift (mem_zero (p + (0 - 1)) 1 (input (ev w))) in
               modify (with_input stream) >>
               modify (with_inPos (p + (0 - 1))) >>
               ret (bytes_eqb [] QUIT_MSG)) Q w ->
            wp F False (readInputWithQuit []) Q w).
  { intros F Q H. unfold readInputWithQuit. wp_run. rewrite Hpos.
    change (length [] =? 0)%nat with true. rewrite orb_true_r. wp_run.
    rewrite Estrlen. eapply wp_lift_Some; [reflexivity|]. wp_run.
    rewrite mem_read_Some by lia.
    eapply wp_lift_Some; [reflexivity|]. exact H. }
  destruct pending as [|b pending].
  - apply wp_faults, Hstart. wp_run.
    change (mem_zero (p + (0 - 1)) 1 (input (ev w))) with (@None (list byte)).
    by apply wp_lift.
  - apply wp_exact, Hstart. wp_run.
    unfold mem_zero. replace (0 <=? 1) with true by done.
    rewrite mem_write_Some by (subst p; cbn [length] in *; rewrite ?zeros_length; lia).
    eapply wp_lift_Some; [reflexivity|]. wp_run. split; [done|].
    replace (p + (0 - 1)) with (p - 1) by lia. do 2 f_equal.
    rewrite Hin.
    replace (Z.to_nat (p - 1)) with (length (b :: pending) - 1)%nat by lia.
    rewrite take_app_le by (cbn [length]; lia). f_equal.
    rewrite drop_app_ge by (rewrite zeros_length; cbn [length]; lia).
    rewrite drop_zeros, zeros_length.
    rewrite zeros_app by (cbn [length] in *; lia). f_equal.
    cbn [length] in *. lia.
Qed.

Lemma readInputWithQuit_end_of_input_witness :
  readInputWithQuit [] (Scenario.small_world Scenario.silence) = Fault.
Proof.
  apply (readInputWithQuit_end_of_input (Scenario.small_world Scenario.silence) []).
  - reflexivity.
  - reflexivity.
  - vm_compute. reflexivity.
Defined.

End InputFacts.

(** ** Cutting the text into frames *)

Module SegmentFacts.

Import Int Utp Machine Transport Main Logic Window Rounds Segments.
Import IntFacts UtpFacts WindowFacts LogicFacts TransportFacts FlagFacts DeliveryFacts SlideFacts TeardownFacts EventFacts RoundsFacts InputFacts.

Lemma strlen_0 (s : list byte) : strlen 0 s = scan_nul s.
Proof. unfold strlen. by replace (_ && _) with true by lia. Qed.

(** What [UTP_PACK_MESSAGE] leaves in the frame, for a C string. *)
Lemma pack_message_text (c : config) (text z : list byte) (sq fl : Z)
    (f : utp_pack) :
  Forall (fun b => b <> x00) text ->
  0 <= UTP_PAYLOAD c <= Z.of_nat (length (msg f)) ->
  let P := UTP_PAYLOAD c in
  let chunk := take (Z.to_nat P) text in
  UTP_PACK_MESSAGE c (text ++ x00 :: z) sq fl f
  = Some (Pack (wrap16 (Z.of_nat (length chunk))) (wrap64 sq) (time f)
            (wrap8u (if Z.of_nat (length text) >? P
                     then UTP_TYPE (wrap8u fl) else Z.lor END fl))
            (md5 f)
            (chunk ++ zeros (P - Z.of_nat (length chunk))
               ++ drop (Z.to_nat P) (msg f))).
Proof.
  intros Htext HP P chunk. unfold UTP_PACK_MESSAGE.
  rewrite strlen_0, scan_nul_exact by done. cbn [mbind option_bind].
  fold P.
  assert (Hps : (if Z.of_nat (length text) >? P then P else Z.of_nat (length text))
                = Z.of_nat (length chunk)).
  { unfold chunk. rewrite length_take.
    destruct (Z.gtb_spec (Z.of_nat (length text)) P); lia. }
  rewrite Hps.
  unfold UTP_PACK_PROPERTIES. cbn [msg set_flags set_size set_seq].
  fold P. rewrite mem_zero_Some by lia. cbn [mbind option_bind].
  assert (Hcl : Z.of_nat (length chunk) <= P).
  { unfold chunk. rewrite length_take. lia. }
  assert (Hct : (length chunk <= length text)%nat).
  { unfold chunk. rewrite length_take. lia. }
  rewrite mem_read_Some by (rewrite ?length_app; lia).
  cbn [mbind option_bind drop Z.to_nat]. rewrite Nat2Z.id.
  assert (Echunk : take (length chunk) (text ++ x00 :: z) = chunk).
  { unfold chunk. rewrite length_take.
    rewrite take_app_le by lia.
    destruct (Nat.min_spec (Z.to_nat P) (length text)) as [[? ->]|[? ->]]; [done|].
    by rewrite !take_ge by lia. }
  change (drop (Z.to_nat 0) (text ++ x00 :: z)) with (text ++ x00 :: z).
  rewrite Echunk. cbn [msg set_msg].
  rewrite mem_write_Some by (rewrite ?length_app, ?zeros_length, ?length_drop; lia).
  change (Z.to_nat 0) with 0%nat. rewrite take_0.
  cbn [mbind option_bind app Nat.add]. unfold set_msg.
  cbn [size seq time flags md5]. do 3 f_equal.
  rewrite drop_app_le by (rewrite zeros_length; lia).
  by rewrite drop_zeros.
Qed.

(** X21. [UTP_PACK_MESSAGE] on a C string: the frame takes the first
    [UTP_PAYLOAD] bytes of the text, or all of it when it is no longer than
    that, as its payload, zero-filled up to [UTP_PAYLOAD], and their number
    as its size.  When the text fits, END is added to the flags given, a
    text of exactly [UTP_PAYLOAD] bytes included; when it does not, only
    the type (the low four bits) of the flags given is kept. *)
Theorem UTP_PACK_MESSAGE_chunk (c : config) (text z : list byte) (sq fl : Z)
    (f : utp_pack) :
  Forall (fun b => b <> x00) text ->
  0 <= UTP_PAYLOAD c <= Z.of_nat (length (msg f)) ->
  let P := UTP_PAYLOAD c in
  let chunk := take (Z.to_nat P) text in
  UTP_PACK_MESSAGE c (text ++ x00 :: z) sq fl f
  = Some (Pack (wrap16 (Z.of_nat (length chunk))) (wrap64 sq) (time f)
            (wrap8u (if Z.of_nat (length text) >? P
                     then UTP_TYPE (wrap8u fl) else Z.lor END fl))
            (md5 f)
            (chunk ++ zeros (P - Z.of_nat (length chunk))
               ++ drop (Z.to_nat P) (msg f))).
Proof. exact (pack_message_text c text z sq fl f). Qed.

Lemma shift_tail (text : list byte) (P B : nat) :
  (P <= length text)%nat -> (length text <= B)%nat ->
  drop P (replicate (B - length text) x00
            ++ drop (B - P) (text ++ replicate (B - length text) x00))
  = replicate (B - length text) x00.
Proof.
  intros HP HB. destruct (le_lt_dec P (B - length text)) as [Hle|Hgt].
  - rewrite (drop_app_ge text) by lia. rewrite drop_replicate.
    rewrite drop_app_le by (rewrite length_replicate; lia).
    rewrite drop_replicate, <- replicate_add. f_equal. lia.
  - rewrite (drop_app_le text) by lia.
    rewrite drop_app_ge by (rewrite length_replicate; lia).
    rewrite length_replicate.
    rewrite drop_app_length'; [done|]. rewrite length_drop. lia.
Qed.

(** The input buffer after [memmove] and [memset] took a chunk of [P]
    bytes off a longer text. *)
Lemma input_shift (text : list byte) (P : Z) :
  1 <= P < Z.of_nat (length text) -> Z.of_nat (length text) < BUFFER_SIZE ->
  let n := Z.of_nat (length text) in
  let L := text ++ zeros (BUFFER_SIZE - n) in
  exists chunk moved,
    mem_read P (BUFFER_SIZE - P) L = Some chunk
    /\ mem_write 0 chunk L = Some moved
    /\ mem_zero (n - P) P moved
       = Some (drop (Z.to_nat P) text
                 ++ zeros (BUFFER_SIZE - Z.of_nat (length (drop (Z.to_nat P) text)))).
Proof.
  intros HP HB n L.
  assert (HL : Z.of_nat (length L) = BUFFER_SIZE) by (unfold L, n; len).
  exists (drop (Z.to_nat P) L), (drop (Z.to_nat P) L ++ drop (Z.to_nat (BUFFER_SIZE - P)) L).
  split_and!.
  - rewrite mem_read_Some by lia. f_equal. apply take_ge. rewrite length_drop. lia.
  - rewrite mem_write_Some by (rewrite ?length_drop; lia).
    change (Z.to_nat 0) with 0%nat. rewrite take_0. cbn [app Nat.add].
    do 3 f_equal. rewrite length_drop. lia.
  - unfold mem_zero. replace (0 <=? P) with true by lia.
    rewrite mem_write_Some
      by (rewrite ?length_app, ?length_drop, ?zeros_length; lia).
    f_equal. rewrite zeros_length.
    replace (Z.to_nat (n - P) + Z.to_nat P)%nat with (length text) by lia.
    assert (E1 : drop (Z.to_nat P) L
                 = drop (Z.to_nat P) text ++ zeros (BUFFER_SIZE - n)).
    { unfold L. by rewrite drop_app_le by lia. }
    rewrite E1, <- !app_assoc.
    rewrite take_app_length' by (rewrite length_drop; lia). f_equal.
    rewrite (drop_app_ge (drop (Z.to_nat P) text)) by (rewrite length_drop; lia).
    rewrite length_drop.
    replace (length text - (length text - Z.to_nat P))%nat with (Z.to_nat P) by lia.
    unfold L, zeros.
    replace (Z.to_nat (BUFFER_SIZE - n))
      with (Z.to_nat BUFFER_SIZE - length text)%nat by lia.
    replace (Z.to_nat (BUFFER_SIZE - P))
      with (Z.to_nat BUFFER_SIZE - Z.to_nat P)%nat by lia.
    rewrite shift_tail by lia. rewrite <- replicate_add. f_equal.
    rewrite ?length_drop. lia.
Qed.

Lemma wrap64_sub_l a b : wrap64 (wrap64 a - b) = wrap64 (a - b).
Proof.
  replace (wrap64 a - b) with (wrap64 a + - b) by lia.
  rewrite wrap64_add_l. f_equal; lia.
Qed.

Lemma wrap64_idem a : wrap64 (wrap64 a) = wrap64 a.
Proof. apply wrap64_id, wrap64_range. Qed.

Lemma wp_sendFrames_body (w : world) (text : list byte)
    (Q : unit -> world -> Prop) :
  input_holds w text -> text <> [] ->
  1 <= UTP_PAYLOAD (cfg w) <= 32767 -> frame_room w ->
  Z.of_nat (length (send (buffer w))) = wsize w -> wsize w <= max64 ->
  0 <= frameCount (ev w) < wsize w ->
  seqSend (conn w) = wrap64 (sendNext (status w) + frameCount (ev w)) ->
  (forall w1 f,
     wire w1 = wire w ++ [f] -> frame w1 = f ->
     (payload f, flags f)
     = (take (Z.to_nat (UTP_PAYLOAD (cfg w))) text,
        if Z.of_nat (length text) >? UTP_PAYLOAD (cfg w)
        then MSG else Z.lor END MSG) ->
     seq f = wrap64 (seqSend (conn w)) ->
     size f = Z.of_nat (length (payload f)) ->
     snd (UTP_MD5_VERIFY f) = 1 ->
     length (msg f) = length (msg (frame w)) ->
     send (buffer w1) = <[Z.to_nat (frameCount (ev w)) := f]> (send (buffer w)) ->
     input_holds w1 (drop (Z.to_nat (UTP_PAYLOAD (cfg w))) text) ->
     frameCount (ev w1) = frameCount (ev w) + 1 ->
     seqSend (conn w1) = wrap64 (seqSend (conn w) + 1) ->
     sendLast (status w1) = seq f ->
     sending_only w w1 ->
     Q tt w1) ->
  wp False False sendFrames_body Q w.
Proof.
  intros (Hin & Hpos & Htext & Hfit) Hne HP Hroom HW Hmax Hfc Hseq HQ.
  set (P := UTP_PAYLOAD (cfg w)) in *.
  set (n := Z.of_nat (length text)) in *.
  assert (Hn : 0 < n) by (destruct text; [done|unfold n; cbn [length]; lia]).
  set (chunk := take (Z.to_nat P) text).
  assert (Hcl : Z.of_nat (length chunk) <= P) by (unfold chunk; rewrite length_take; lia).
  set (packed := Pack (Z.of_nat (length chunk)) (wrap64 (seqSend (conn w)))
                   (time (frame w))
                   (if n >? P then MSG else Z.lor END MSG) (md5 (frame w))
                   (chunk ++ zeros (P - Z.of_nat (length chunk))
                      ++ drop (Z.to_nat P) (msg (frame w)))).
  assert (Epack : UTP_PACK_MESSAGE (cfg w) (input (ev w)) (seqSend (conn w)) MSG
                    (frame w) = Some packed).
  { rewrite Hin, (zeros_S (BUFFER_SIZE - n)) by lia.
    rewrite pack_message_text by done. cbv zeta. fold P chunk n.
    unfold packed. f_equal. f_equal.
    - apply CodecFacts.wrap16_id. lia.
    - by destruct (n >? P). }
  assert (Einput : exists cleared,
            input_holds (with_inPos (if n >? P then n - P else 0)
                           (with_input cleared w))
              (drop (Z.to_nat P) text)
            /\ (if n >? P then
                  exists c m, mem_read P (BUFFER_SIZE - P) (input (ev w)) = Some c
                              /\ mem_write 0 c (input (ev w)) = Some m
                              /\ mem_zero (n - P) P m = Some cleared
                else mem_zero 0 BUFFER_SIZE (input (ev w)) = Some cleared)).
  { destruct (Z.gtb_spec n P) as [Hgt|Hle].
    - destruct (input_shift text P) as (c & m & E1 & E2 & E3); [lia|done|].
      cbv zeta in E1, E2, E3. fold n in E1, E2, E3. rewrite <- Hin in E1, E2.
      eexists. split; [|exists c, m; split_and!; [exact E1|exact E2|exact E3]].
      unfold input_holds. wsimpl. split_and!.
      + done.
      + rewrite length_drop. lia.
      + by apply Forall_drop.
      + rewrite length_drop. lia.
    - exists (zeros BUFFER_SIZE). split.
      + unfold input_holds. wsimpl. rewrite drop_ge by lia. by split_and!.
      + rewrite mem_zero_Some by (rewrite Hin; unfold BUFFER_SIZE; len).
        rewrite drop_ge by (rewrite Hin; len). by rewrite app_nil_r. }
  destruct Einput as (cleared & Hholds & Hcleared).
  unfold sendFrames_body. wp_run. apply wp_next_seqSend. wp_run.
  unfold pack_frame. wp_run. wsimpl. rewrite Epack.
  eapply wp_lift_Some; [reflexivity|]. wp_run. wsimpl.
  rewrite Hpos. fold P n. change (psize w) with P.
  set (w0 := with_frame packed _).
  assert (Hupd : wp False False
            (if n >? P
             then
               let* chunk0 := lift (mem_read P (BUFFER_SIZE - P) (input (ev w))) in
               let* moved := lift (mem_write 0 chunk0 (input (ev w))) in
               let* cleared0 := lift (mem_zero (n - P) P moved) in
               modify (with_input cleared0) >> modify (with_inPos (n - P))
             else
               let* cleared0 := lift (mem_zero 0 BUFFER_SIZE (input (ev w))) in
               modify (with_input cleared0) >> modify (with_inPos 0))
            (fun _ w1 =>
               w1 = with_inPos (if n >? P then n - P else 0)
                      (with_input cleared w0)) w0).
  { destruct (n >? P).
    - destruct Hcleared as (c & m & E1 & E2 & E3). wp_run.
      eapply wp_lift_Some; [exact E1|]. wp_run.
      eapply wp_lift_Some; [exact E2|]. wp_run.
      eapply wp_lift_Some; [exact E3|]. by wp_run.
    - wp_run. eapply wp_lift_Some; [exact Hcleared|]. by wp_run. }
  eapply wp_mono; [exact Hupd|]. cbv beta. intros _ w1 ->.
  clear Hupd. subst w0.
  wp_run. apply wp_send_frame. cbv zeta. wp_run. wsimpl.
  set (f := UTP_MD5_ADD (set_time (clock w (ticks w)) packed)).
  assert (Hfseq : seq f = wrap64 (seqSend (conn w))) by reflexivity.
  assert (Hidx : wrap64 (seq f - sendNext (status w)) = frameCount (ev w)).
  { rewrite Hfseq, Hseq, wrap64_idem, wrap64_sub_l.
    replace (sendNext (status w) + frameCount (ev w) - sendNext (status w))
      with (frameCount (ev w)) by lia.
    apply wrap64_id. unfold in64, min64, max64 in *. lia. }
  unfold insert. wsimpl. rewrite Hidx.
  rewrite slot_store_Some by lia.
  eapply wp_lift_Some; [reflexivity|]. wp_run. wsimpl.
  apply (HQ _ f); wsimpl.
  - done.
  - done.
  - unfold payload. change (size f) with (Z.of_nat (length chunk)).
    change (msg f) with (chunk ++ zeros (P - Z.of_nat (length chunk))
                           ++ drop (Z.to_nat P) (msg (frame w))).
    rewrite Nat2Z.id, take_app_length. done.
  - done.
  - unfold payload. change (size f) with (Z.of_nat (length chunk)).
    change (msg f) with (chunk ++ zeros (P - Z.of_nat (length chunk))
                           ++ drop (Z.to_nat P) (msg (frame w))).
    by rewrite Nat2Z.id, take_app_length.
  - apply CodecFacts.UTP_MD5_VERIFY_after_ADD.
  - change (msg f) with (chunk ++ zeros (P - Z.of_nat (length chunk))
                           ++ drop (Z.to_nat P) (msg (frame w))).
    unfold frame_room in Hroom. fold P in Hroom.
    rewrite !length_app, zeros_length, length_drop. lia.
  - done.
  - destruct Hholds as (H1 & H2 & H3 & H4). unfold input_holds. wsimpl.
    by split_and!.
  - done.
  - done.
  - done.
  - unfold sending_only. wsimpl. by split_and!.
Qed.

Lemma segments_fuel (P : Z) (n : nat) :
  1 <= P ->
  forall (m : nat) (text : list byte),
    (length text <= n)%nat -> (length text <= m)%nat ->
    segments n P text = segments m P text.
Proof.
  intros HP. induction n as [|n IH]; intros m text Hn Hm.
  - destruct text; [|simpl in Hn; lia]. by destruct m.
  - destruct text as [|b t]; [by destruct m|].
    destruct m as [|m]; [simpl in Hm; lia|].
    cbn [segments]. f_equal.
    apply IH; rewrite length_drop; cbn [length] in *; lia.
Qed.

Lemma wrap64_add_sub a b c : wrap64 (wrap64 a + b - c) = wrap64 (a + b - c).
Proof.
  replace (wrap64 a + b - c) with (wrap64 a + (b - c)) by lia.
  rewrite wrap64_add_l. f_equal; lia.
Qed.

Lemma sending_only_trans w1 w2 w3 :
  sending_only w1 w2 -> sending_only w2 w3 -> sending_only w1 w3.
Proof.
  unfold sending_only. intros H1 H2.
  repeat match goal with H : _ /\ _ |- _ => destruct H end.
  split_and!; congruence.
Qed.

(** The loop of [sendFrames], frame by frame. *)
Lemma sendFrames_run (n : nat) (w : world) (text : list byte) :
  input_holds w text ->
  (length text < n)%nat ->
  1 <= UTP_PAYLOAD (cfg w) <= 32767 -> frame_room w ->
  Z.of_nat (length (send (buffer w))) = wsize w -> wsize w <= max64 ->
  0 <= frameCount (ev w) <= wsize w ->
  seqSend (conn w) = wrap64 (sendNext (status w) + frameCount (ev w)) ->
  let P := UTP_PAYLOAD (cfg w) in
  let fc := frameCount (ev w) in
  let segs := segments (length text) P text in
  let k := Nat.min (Z.to_nat (wsize w - fc)) (length segs) in
  exists w',
    sendFrames n w = Ret tt w'
    /\ exists sent rest,
         wire w' = wire w ++ sent
         /\ map (fun f => (payload f, flags f)) sent = take k segs
         /\ text = concat (map payload sent) ++ rest
         /\ input_holds w' rest
         /\ (rest = [] \/ frameCount (ev w') = wsize w)
         /\ (forall i f, sent !! i = Some f ->
               seq f = wrap64 (seqSend (conn w) + Z.of_nat i)
               /\ size f = Z.of_nat (length (payload f))
               /\ snd (UTP_MD5_VERIFY f) = 1
               /\ send (buffer w') !! (Z.to_nat fc + i)%nat = Some f)
         /\ (forall j, (j < Z.to_nat fc)%nat ->
               send (buffer w') !! j = send (buffer w) !! j)
         /\ length (send (buffer w')) = length (send (buffer w))
         /\ frameCount (ev w') = fc + Z.of_nat k
         /\ seqSend (conn w') = wrap64 (seqSend (conn w) + Z.of_nat k)
         /\ sendLast (status w')
            = match sent with
              | [] => sendLast (status w)
              | _ :: _ => wrap64 (seqSend (conn w) + Z.of_nat k - 1)
              end
         /\ frame_room w'
         /\ sending_only w w'.
Proof.
  revert w text. induction n as [|n IH];
    intros w text Hholds Hn HP Hroom HW Hmax Hfc Hseq P fc segs k; [lia|].
  apply wp_returns. cbn [sendFrames]. wp_run.
  pose proof Hholds as (Hin & Hpos & Htext & Hfit).
  destruct ((frameCount (ev w) <? wsize w) && (inPos (ev w) >? 0)) eqn:Econd.
  2:{ (* the loop is left at once *)
      wp_run. exists [], text.
      assert (Hk : k = 0%nat).
      { subst k segs fc. apply andb_false_iff in Econd as [E|E].
        - lia.
        - destruct text; [cbn [length segments]; lia|].
          rewrite Hpos in E. cbn [length] in E. lia. }
      rewrite Hk, app_nil_r. cbn [take map concat app].
      split_and!; try done.
      - apply andb_false_iff in Econd as [E|E]; [right; lia|left].
        destruct text; [done|]. rewrite Hpos in E. cbn [length] in E. lia.
      - subst fc. lia.
      - rewrite Z.add_0_r, Hseq. symmetry. apply wrap64_idem. }
  apply andb_true_iff in Econd as [Efc Epos].
  destruct text as [|b t]; [rewrite Hpos in Epos; cbn [length] in Epos; lia|].
  set (text := b :: t) in *.
  wp_run. apply (wp_sendFrames_body w text); try done; [lia|].
  intros w1 f Hwire Hframe Hview Hfseq Hsize Hver Hmsg Hsend Hholds1 Hfc1 Hss1
    Hlast1 Honly1.
  assert (Hcfg1 : cfg w1 = cfg w) by (unfold sending_only in Honly1; tauto).
  assert (HsN1 : sendNext (status w1) = sendNext (status w))
    by (unfold sending_only in Honly1; tauto).
  assert (Hw1 : wsize w1 = wsize w) by (unfold wsize; by rewrite Hcfg1).
  fold P in Hholds1, Hview.
  set (text' := drop (Z.to_nat P) text) in *.
  destruct (IH w1 text') as (w' & Hret & sent & rest & Hwire' & Hmap & Hcat
                              & Hholds' & Hexit & Hidx & Hbelow & Hlen' & Hfc'
                              & Hss' & Hlast' & Hroom' & Honly'); try done.
  { subst text' text. rewrite length_drop. cbn [length] in *. lia. }
  { by rewrite Hcfg1. }
  { unfold frame_room in *. rewrite Hcfg1, Hframe, Hmsg. done. }
  { rewrite Hsend, length_insert, Hw1. done. }
  { by rewrite Hw1. }
  { rewrite Hw1, Hfc1. lia. }
  { rewrite Hss1, HsN1, Hfc1, Hseq, wrap64_add_l. f_equal. lia. }
  apply wp_total. exists tt, w'. split; [exact Hret|].
  rewrite Hcfg1, Hw1, Hfc1 in *. fold P fc in Hmap, Hfc', Hidx, Hbelow.
  assert (Esegs : segs = (payload f, flags f)
                           :: segments (length text') P text').
  { subst segs. unfold text at 1 2. cbn [length segments]. fold text.
    rewrite Hview. f_equal.
    apply segments_fuel; [unfold P; lia| |done].
    subst text'. unfold text. rewrite length_drop. cbn [length]. unfold P. lia. }
  assert (Ek : k = S (Nat.min (Z.to_nat (wsize w - (fc + 1)))
                        (length (segments (length text') P text')))).
  { subst k. rewrite Esegs. cbn [length]. subst fc. lia. }
  exists (f :: sent), rest. rewrite Ek, Esegs. cbn [take map concat].
  unfold fc, P in *.
  split_and!.
  - by rewrite Hwire', Hwire, <- app_assoc.
  - by rewrite Hmap.
  - rewrite <- app_assoc, <- Hcat.
    injection Hview as Hpay _. rewrite Hpay. subst text'.
    by rewrite take_drop.
  - done.
  - done.
  - intros [|i] g Hg.
    + cbn in Hg. injection Hg as <-. rewrite Z.add_0_r, Nat.add_0_r.
      split_and!; [by rewrite Hfseq, Hseq, wrap64_idem|done|done|].
      rewrite Hbelow by lia. rewrite Hsend.
      apply list_lookup_insert_eq. lia.
    + cbn in Hg. destruct (Hidx i g Hg) as (H1 & H2 & H3 & H4).
      split_and!; [|done|done|].
      * rewrite H1, Hss1. apply wrap64_succ_add.
      * rewrite <- H4. f_equal. lia.
  - intros j Hj. rewrite Hbelow by lia. rewrite Hsend.
    apply list_lookup_insert_ne. lia.
  - by rewrite Hlen', Hsend, length_insert.
  - rewrite Hfc'. lia.
  - rewrite Hss', Hss1, wrap64_add_l. f_equal. lia.
  - rewrite Hlast'. destruct sent as [|g sent].
    + cbn [take map] in Hmap. symmetry in Hmap. apply take_nil_inv in Hmap.
      rewrite Hlast1, Hfseq.
      assert (Hk' : Nat.min (Z.to_nat (wsize w - (frameCount (ev w) + 1)))
                      (length (segments (length text') (UTP_PAYLOAD (cfg w)) text'))
                    = 0%nat).
      { destruct Hmap as [Hm|Hm];
          first [exact Hm | rewrite Hm; cbn [length]; lia]. }
      rewrite Hk', Hseq, wrap64_idem, wrap64_add_sub. f_equal. lia.
    + rewrite Hss1, wrap64_add_sub. f_equal. lia.
  - done.
  - by eapply sending_only_trans.
Qed.

(** X22. [sendFrames] cuts the pending text into frames.  With the text
    of a C string pending in the input buffer, the send buffer aligned
    ([seqSend = sendNext + frameCount]) and [frameCount] within the window,
    the loop sends the chunks of [UTP_PAYLOAD] bytes of the text in order,
    as many as the window has free slots, in MSG frames that carry
    consecutive sequence numbers and valid tags; END is set on the frame
    that takes the last of the text and on no other.  Each frame is stored
    in the send buffer at the slot of its sequence number; the slots of the
    frames outstanding and the rest of the state stay as they are.  What is
    not sent remains pending, so that the payloads sent followed by the
    text pending are the text; the loop returns when nothing is pending or
    the window is full. *)
Theorem sendFrames_segments (n : nat) (w : world) (text : list byte) :
  input_holds w text ->
  (length text < n)%nat ->
  1 <= UTP_PAYLOAD (cfg w) <= 32767 -> frame_room w ->
  Z.of_nat (length (send (buffer w))) = wsize w -> wsize w <= max64 ->
  0 <= frameCount (ev w) <= wsize w ->
  seqSend (conn w) = wrap64 (sendNext (status w) + frameCount (ev w)) ->
  let P := UTP_PAYLOAD (cfg w) in
  let fc := frameCount (ev w) in
  let segs := segments (length text) P text in
  let k := Nat.min (Z.to_nat (wsize w - fc)) (length segs) in
  exists w',
    sendFrames n w = Ret tt w'
    /\ exists sent rest,
         wire w' = wire w ++ sent
         /\ map (fun f => (payload f, flags f)) sent = take k segs
         /\ text = concat (map payload sent) ++ rest
         /\ input_holds w' rest
         /\ (rest = [] \/ frameCount (ev w') = wsize w)
         /\ (forall i f, sent !! i = Some f ->
               seq f = wrap64 (seqSend (conn w) + Z.of_nat i)
               /\ size f = Z.of_nat (length (payload f))
               /\ snd (UTP_MD5_VERIFY f) = 1
               /\ send (buffer w') !! (Z.to_nat fc + i)%nat = Some f)
         /\ (forall j, (j < Z.to_nat fc)%nat ->
               send (buffer w') !! j = send (buffer w) !! j)
         /\ length (send (buffer w')) = length (send (buffer w))
         /\ frameCount (ev w') = fc + Z.of_nat k
         /\ seqSend (conn w') = wrap64 (seqSend (conn w) + Z.of_nat k)
         /\ sendLast (status w')
            = match sent with
              | [] => sendLast (status w)
              | _ :: _ => wrap64 (seqSend (conn w) + Z.of_nat k - 1)
              end
         /\ frame_room w'
         /\ sending_only w w'.
Proof. exact (sendFrames_run n w text). Qed.

Lemma UTP_PACK_MESSAGE_chunk_witness :
  exists f,
    UTP_PACK_MESSAGE Scenario.small (Scenario.text_abcde ++ x00 :: []) 1000 RES
      (zero_frame Scenario.small) = Some f
    /\ size f = 4 /\ flags f = MSG /\ msg f = [x61; x62; x63; x64].
Proof.
  eexists. split.
  - apply (UTP_PACK_MESSAGE_chunk Scenario.small Scenario.text_abcde [] 1000 RES
             (zero_frame Scenario.small)).
    + repeat constructor; discriminate.
    + vm_compute. split; discriminate.
  - split_and!; reflexivity.
Defined.

Lemma sendFrames_segments_witness :
  exists w' sent,
    sendFrames input_fuel Scenario.typed = Ret tt w'
    /\ wire w' = wire Scenario.typed ++ sent
    /\ map (fun f => (payload f, flags f)) sent
       = [([x61; x62; x63; x64], MSG); ([x65], Z.lor END MSG)]
    /\ input_holds w' [].
Proof.
  destruct (sendFrames_segments input_fuel Scenario.typed Scenario.text_abcde)
    as (w' & Hret & sent & rest & Hwire & Hmap & Hcat & Hholds & Hexit & _).
  - unfold input_holds. split_and!.
    + reflexivity.
    + reflexivity.
    + repeat constructor; discriminate.
    + vm_compute. reflexivity.
  - vm_compute. lia.
  - vm_compute. split; discriminate.
  - vm_compute. split; discriminate.
  - reflexivity.
  - vm_compute. discriminate.
  - vm_compute. split; discriminate.
  - vm_compute. reflexivity.
  - exists w', sent. split; [exact Hret|]. split; [exact Hwire|].
    split; [exact Hmap|].
    assert (Hrest : rest = []).
    { apply (f_equal length) in Hcat. apply (f_equal (map fst)) in Hmap.
      rewrite map_map in Hmap. cbn [fst] in Hmap.
      change (map (fun x => payload x) sent) with (map payload sent) in Hmap.
      rewrite length_app, Hmap in Hcat.
      destruct rest; [done|].
      vm_compute in Hcat. lia. }
    by rewrite <- Hrest.
Defined.

End SegmentFacts.

(** ** From the terminal of one end to that of the other *)

Module RoundTripFacts.

Import Int Utp Machine Transport Main Logic Window Rounds Segments.
Import IntFacts UtpFacts WindowFacts LogicFacts TransportFacts FlagFacts DeliveryFacts SlideFacts TeardownFacts EventFacts RoundsFacts InputFacts SegmentFacts.

Lemma cstring_id (a : list byte) : Forall (fun b => b <> x00) a -> cstring a = a.
Proof.
  induction 1 as [|b a Hb Ha IH]; [done|]. cbn [cstring].
  destruct (Byte.eqb b x00) eqn:E; [by apply Byte.byte_dec_bl in E|].
  by rewrite IH.
Qed.

Lemma segments_nil (n : nat) (P : Z) : segments n P [] = [].
Proof. by destruct n. Qed.

(** Delivery of the frames of a text puts the text together again. *)
Lemma deliver_segments (P : Z) (n : nat) :
  1 <= P ->
  forall (text : list byte) (frames : list utp_pack) (acc : list byte)
         (lines : list (list byte)),
    (length text <= n)%nat -> text <> [] ->
    map (fun f => (payload f, flags f)) frames = segments n P text ->
    fold_left deliver frames (acc, lines)
    = ([], lines ++ [[x3e; x20] ++ cstring (acc ++ text) ++ [x0a]]).
Proof.
  intros HP. induction n as [|n IH]; intros text frames acc lines Hn Hne Hmap.
  { destruct text; [done|simpl in Hn; lia]. }
  destruct text as [|b t]; [done|]. set (text := b :: t) in *.
  cbn [segments] in Hmap. fold text in Hmap.
  destruct frames as [|f frames]; [done|].
  cbn [map] in Hmap. injection Hmap as Hpay Hfl Hrest.
  change (S (length t)) with (length text) in Hfl.
  cbn [fold_left].
  assert (Estep : deliver (acc, lines) f
                  = if UTP_FLAG f END
                    then ([], lines ++ [[x3e; x20] ++ cstring (acc ++ payload f)
                                          ++ [x0a]])
                    else (acc ++ payload f, lines)) by reflexivity.
  rewrite Estep, Hpay. unfold UTP_FLAG. rewrite Hfl.
  destruct (Z.gtb_spec (Z.of_nat (length text)) P) as [Hgt|Hle].
  - change (Z.land MSG END =? END) with false. cbv iota.
    rewrite (IH (drop (Z.to_nat P) text) frames); try done.
    + by rewrite <- app_assoc, take_drop.
    + rewrite length_drop. unfold text in *. cbn [length] in *. lia.
    + intros E. apply (f_equal length) in E. rewrite length_drop in E.
      cbn [length] in E. lia.
  - change (Z.land (Z.lor END MSG) END =? END) with true. cbv iota.
    rewrite drop_ge, segments_nil in Hrest by lia.
    apply map_eq_nil in Hrest. subst frames. cbn [fold_left].
    by rewrite take_ge by lia.
Qed.

Lemma fits_segments (P : Z) (n : nat) :
  1 <= P ->
  forall (text : list byte) (frames : list utp_pack) (pos : Z),
    0 <= pos -> pos + Z.of_nat (length text) < BUFFER_SIZE ->
    map (fun f => (payload f, flags f)) frames = segments n P text ->
    Forall (fun f => size f = Z.of_nat (length (payload f))) frames ->
    fits pos frames = true.
Proof.
  intros HP. induction n as [|n IH]; intros text frames pos Hpos Hfit Hmap Hsz.
  { by destruct frames. }
  destruct text as [|b t]; [by destruct frames|]. set (text := b :: t) in *.
  cbn [segments] in Hmap. fold text in Hmap.
  destruct frames as [|f frames]; [done|].
  cbn [map] in Hmap. injection Hmap as Hpay Hfl Hrest.
  apply Forall_cons in Hsz as [Hf Hsz].
  assert (Hlen : Z.of_nat (length (payload f)) <= Z.of_nat (length text)).
  { rewrite Hpay, length_take. lia. }
  assert (Hmsg : size f <= Z.of_nat (length (msg f))).
  { rewrite Hf. unfold payload. rewrite length_take. lia. }
  cbn [fits]. apply andb_true_iff. split.
  - rewrite !andb_true_iff. split_and!; lia.
  - apply (IH (drop (Z.to_nat P) text)); try done.
    + destruct (UTP_FLAG f END); lia.
    + rewrite length_drop.
      assert (Hp : Z.of_nat (length (payload f))
                   = Z.min P (Z.of_nat (length text))).
      { rewrite Hpay, length_take. lia. }
      destruct (UTP_FLAG f END); lia.
Qed.

Lemma contiguous_run_all (sent others : list utp_pack) :
  forall s,
    (forall i f, sent !! i = Some f -> seq f = wrap64 (s + Z.of_nat i)) ->
    (forall f, others !! 0%nat = Some f ->
       wrap64 (seq f - (s + Z.of_nat (length sent))) <> 0) ->
    contiguous_run s (sent ++ others) = sent.
Proof.
  induction sent as [|f sent IH]; intros s Hnum Hstop.
  - cbn [app]. destruct others as [|g others]; [done|]. cbn [contiguous_run].
    specialize (Hstop g eq_refl). cbn [length] in Hstop.
    rewrite Z.add_0_r in Hstop.
    by destruct (Z.eqb_spec (wrap64 (seq g - s)) 0).
  - cbn [app contiguous_run].
    assert (E0 : wrap64 (seq f - s) = 0).
    { rewrite (Hnum 0%nat f eq_refl), Z.add_0_r, wrap64_sub_l.
      by replace (s - s) with 0 by lia. }
    rewrite E0. change (0 =? 0) with true. cbv iota. f_equal.
    apply IH.
    + intros i g Hg. rewrite (Hnum (S i) g Hg), wrap64_add_l. f_equal. lia.
    + intros g Hg. rewrite wrap64_sub_add_l. cbn [length] in Hstop.
      replace (s + 1 + Z.of_nat (length sent))
        with (s + Z.of_nat (S (length sent))) by lia.
      by apply Hstop.
Qed.

Lemma segments_concat (P : Z) (n : nat) :
  1 <= P ->
  forall text : list byte,
    (length text <= n)%nat -> concat (map fst (segments n P text)) = text.
Proof.
  intros HP. induction n as [|n IH]; intros text Hn.
  { destruct text; [done|simpl in Hn; lia]. }
  destruct text as [|b t]; [done|].
  cbn [segments map concat fst].
  rewrite IH; [apply take_drop|].
  rewrite length_drop. cbn [length] in *. lia.
Qed.

(** X23. What is typed on one end is printed on the other.  When the
    window has room for all of the pending text, [sendFrames] sends frames
    and leaves nothing pending; and whenever a receive window holds these
    frames from its first slot on, with [recvNext] at the sequence number of
    the first and nothing pending for output, [processReceived] prints the
    text, and nothing else, as one line and moves [recvNext] past the
    frames. *)
Theorem typed_text_is_printed (ws : world) (text : list byte) :
  input_holds ws text -> text <> [] ->
  1 <= UTP_PAYLOAD (cfg ws) <= 32767 -> frame_room ws ->
  Z.of_nat (length (send (buffer ws))) = wsize ws -> wsize ws <= max64 ->
  0 <= frameCount (ev ws) ->
  frameCount (ev ws)
    + Z.of_nat (length (segments (length text) (UTP_PAYLOAD (cfg ws)) text))
    <= wsize ws ->
  seqSend (conn ws) = wrap64 (sendNext (status ws) + frameCount (ev ws)) ->
  exists ws' sent,
    sendFrames input_fuel ws = Ret tt ws'
    /\ wire ws' = wire ws ++ sent
    /\ input_holds ws' []
    /\ forall (wr : world) (others : list utp_pack) (l : utp_pack),
         recv (buffer wr) = sent ++ others ->
         Z.of_nat (length (recv (buffer wr))) = wsize wr ->
         last (recv (buffer wr)) = Some l ->
         recvNext (status wr) = seqSend (conn ws) ->
         (forall f, others !! 0%nat = Some f ->
            wrap64 (seq f - (seqSend (conn ws) + Z.of_nat (length sent))) <> 0) ->
         delivery_ok wr -> outPos (ev wr) = 0 ->
         exists wr',
           processReceived (window_fuel wr) wr = Ret tt wr'
           /\ terminal wr' = terminal wr ++ [[x3e; x20] ++ text ++ [x0a]]
           /\ pending wr' = []
           /\ recvNext (status wr')
              = wrap64 (recvNext (status wr) + Z.of_nat (length sent)).
Proof.
  intros Hholds Hne HP Hroom HW Hmax Hfc Hfree Hseq.
  pose proof Hholds as (Hin & Hpos & Htext & Hfit).
  destruct (sendFrames_run input_fuel ws text) as
    (ws' & Hret & sent & rest & Hwire & Hmap & Hcat & Hholds' & Hexit & Hidx & _);
    try done.
  { unfold input_fuel, BUFFER_SIZE in *. lia. }
  { lia. }
  cbv zeta in Hmap, Hidx.
  rewrite Nat.min_r, take_ge in Hmap by lia.
  assert (Hrest : rest = []).
  { apply (f_equal (map fst)) in Hmap. rewrite map_map in Hmap. cbn [fst] in Hmap.
    change (map (fun x => payload x) sent) with (map payload sent) in Hmap.
    rewrite Hmap, segments_concat in Hcat by lia.
    apply (app_inv_head text). by rewrite app_nil_r. }
  subst rest.
  exists ws', sent. split_and!; [done|done|done|].
  intros wr others l Hrecv HWr Hlast Hnext Hstop Hok Hout.
  assert (Hrun : contiguous_run (recvNext (status wr)) (sent ++ others) = sent).
  { rewrite Hnext. apply contiguous_run_all; [|done].
    intros i f Hf. by destruct (Hidx i f Hf). }
  assert (Hsizes : Forall (fun f => size f = Z.of_nat (length (payload f))) sent).
  { apply Forall_lookup. intros i f Hf. by destruct (Hidx i f Hf) as (_ & ? & _). }
  apply wp_returns.
  eapply wp_mono.
  { apply (processReceived_run (sent ++ others) l 0 (window_fuel wr) wr).
    - by rewrite <- Hrecv.
    - by rewrite app_nil_r.
    - rewrite <- Hrecv. lia.
    - done.
    - rewrite Hnext, Hseq. apply wrap64_range.
    - rewrite Hrun, Hout.
      apply (fits_segments (UTP_PAYLOAD (cfg ws)) (length text)) with text;
        [lia|lia|lia|done|done].
    - rewrite <- Hrecv. unfold window_fuel. lia. }
  cbv beta zeta. rewrite Hrun.
  intros _ wr' (Hok' & Hdel & _ & Hnext' & _).
  assert (Hpend : pending wr = []).
  { unfold pending. rewrite Hout. apply take_0. }
  rewrite Hpend in Hdel.
  rewrite (deliver_segments (UTP_PAYLOAD (cfg ws)) (length text)) with (text := text)
    in Hdel; [|lia|lia|done|done].
  cbn [app] in Hdel. rewrite cstring_id in Hdel by done.
  injection Hdel as Hp Ht. by split_and!.
Qed.

Lemma typed_text_is_printed_witness :
  exists ws' sent,
    sendFrames input_fuel Scenario.typed = Ret tt ws'
    /\ wire ws' = wire Scenario.typed ++ sent
    /\ input_holds ws' []
    /\ forall (wr : world) (others : list utp_pack) (l : utp_pack),
         recv (buffer wr) = sent ++ others ->
         Z.of_nat (length (recv (buffer wr))) = wsize wr ->
         last (recv (buffer wr)) = Some l ->
         recvNext (status wr) = seqSend (conn Scenario.typed) ->
         (forall f, others !! 0%nat = Some f ->
            wrap64 (seq f - (seqSend (conn Scenario.typed)
                             + Z.of_nat (length sent))) <> 0) ->
         delivery_ok wr -> outPos (ev wr) = 0 ->
         exists wr',
           processReceived (window_fuel wr) wr = Ret tt wr'
           /\ terminal wr'
              = terminal wr ++ [[x3e; x20] ++ Scenario.text_abcde ++ [x0a]]
           /\ pending wr' = []
           /\ recvNext (status wr')
              = wrap64 (recvNext (status wr) + Z.of_nat (length sent)).
Proof.
  apply (typed_text_is_printed Scenario.typed Scenario.text_abcde).
  - unfold input_holds. split_and!.
    + reflexivity.
    + reflexivity.
    + repeat constructor; discriminate.
    + vm_compute. reflexivity.
  - discriminate.
  - vm_compute. split; discriminate.
  - vm_compute. split; discriminate.
  - reflexivity.
  - vm_compute. discriminate.
  - vm_compute. discriminate.
  - vm_compute. discriminate.
  - vm_compute. reflexivity.
Defined.

End RoundTripFacts.

(** ** Frames on the wire and the handshake *)

Module WireFacts.

Import Int Utp Machine Transport Main Logic Window Handshake.
Import IntFacts UtpFacts WindowFacts LogicFacts TransportFacts EventFacts.

Lemma atoi_digits_nul (s t : list byte) :
  forall acc, atoi_digits acc (s ++ x00 :: t) = atoi_digits acc (s ++ [x00]).
Proof.
  induction s as [|b s IH]; intros acc; [done|].
  cbn [app atoi_digits]. by destruct (digit_value b).
Qed.

Lemma skip_space_nul (s : list byte) :
  exists s', forall t, skip_space (s ++ x00 :: t) = s' ++ x00 :: t.
Proof.
  induction s as [|b s [s' IH]].
  - by exists [].
  - cbn [app skip_space]. destruct (isspace b).
    + by exists s'.
    + by exists (b :: s).
Qed.

(** [atoi] reads no further than the terminator. *)
Lemma atoi_nul (s t : list byte) : atoi (s ++ x00 :: t) = atoi (s ++ [x00]).
Proof.
  unfold atoi. destruct (skip_space_nul s) as [s' H]. rewrite (H t), (H []).
  destruct s' as [|b s']; [done|]. cbn [app].
  destruct b; first [apply (atoi_digits_nul (_ :: s')) | f_equal; apply atoi_digits_nul
                     | apply atoi_digits_nul].
Qed.

Lemma digit_value_byte (d : Z) :
  0 <= d <= 9 -> digit_value (digit_byte d) = Some d.
Proof.
  intros H.
  assert (d = 0 \/ d = 1 \/ d = 2 \/ d = 3 \/ d = 4 \/ d = 5 \/ d = 6 \/ d = 7
          \/ d = 8 \/ d = 9) as Hd by lia.
  repeat destruct Hd as [->|Hd]; try reflexivity. by subst.
Qed.

Lemma atoi_digit_head (d : Z) (r : list byte) :
  0 <= d <= 9 -> atoi (digit_byte d :: r) = atoi_digits 0 (digit_byte d :: r).
Proof.
  intros H.
  assert (d = 0 \/ d = 1 \/ d = 2 \/ d = 3 \/ d = 4 \/ d = 5 \/ d = 6 \/ d = 7
          \/ d = 8 \/ d = 9) as Hd by lia.
  repeat destruct Hd as [->|Hd]; try reflexivity. by subst.
Qed.

(** Reading the digits of a number gives the number. *)
Lemma atoi_digits_digits (n : nat) :
  forall (z : Z) (tail : list byte),
    0 <= z < 10 ^ Z.of_nat n ->
    atoi_digits 0 (digits n z tail) = atoi_digits z tail.
Proof.
  induction n as [|n IH]; intros z tail Hz.
  - change (10 ^ Z.of_nat 0) with 1 in Hz. by replace z with 0 by lia.
  - rewrite Nat2Z.inj_succ, Z.pow_succ_r in Hz by lia.
    assert (Hd : 0 <= z mod 10 <= 9) by (pose proof (Z.mod_pos_bound z 10); lia).
    cbn [digits]. destruct (Z.eqb_spec (z / 10) 0) as [E|E].
    + cbn [atoi_digits]. rewrite digit_value_byte by done. f_equal.
      pose proof (Z.div_mod z 10). lia.
    + rewrite IH by (split; [apply Z.div_pos; lia|apply Z.div_lt_upper_bound; lia]).
      cbn [atoi_digits]. rewrite digit_value_byte by done. f_equal.
      pose proof (Z.div_mod z 10). lia.
Qed.

Lemma digits_head (n : nat) :
  forall (z : Z) (tail : list byte),
    exists d r, 0 <= d <= 9 /\ digits (S n) z tail = digit_byte d :: r.
Proof.
  induction n as [|n IH]; intros z tail.
  - exists (z mod 10), tail. split; [pose proof (Z.mod_pos_bound z 10); lia|].
    cbn [digits]. by destruct (z / 10 =? 0).
  - assert (E : digits (S (S n)) z tail
                = if z / 10 =? 0 then digit_byte (z mod 10) :: tail
                  else digits (S n) (z / 10) (digit_byte (z mod 10) :: tail))
      by reflexivity.
    rewrite E. destruct (z / 10 =? 0).
    + exists (z mod 10), tail. split; [pose proof (Z.mod_pos_bound z 10); lia|done].
    + apply IH.
Qed.

Lemma digits_length (n : nat) :
  forall (k : nat) (z : Z) (tail : list byte),
    0 <= z < 10 ^ Z.of_nat (S k) ->
    (length (digits n z tail) <= S k + length tail)%nat.
Proof.
  induction n as [|n IH]; intros k z tail Hz.
  - cbn [digits]. lia.
  - cbn [digits]. destruct (Z.eqb_spec (z / 10) 0) as [E|E].
    + cbn [length]. lia.
    + destruct k as [|k].
      { change (10 ^ Z.of_nat 1) with 10 in Hz.
        rewrite Z.div_small in E by lia. done. }
      rewrite Nat2Z.inj_succ, Z.pow_succ_r in Hz by lia.
      etransitivity.
      { apply (IH k). split; [apply Z.div_pos; lia|apply Z.div_lt_upper_bound; lia]. }
      cbn [length]. lia.
Qed.

Lemma digits_app (n : nat) :
  forall (z : Z) (acc t : list byte),
    digits n z acc ++ t = digits n z (acc ++ t).
Proof.
  induction n as [|n IH]; intros z acc t; [done|].
  cbn [digits]. destruct (z / 10 =? 0); [done|]. by rewrite IH.
Qed.

(** Every [int16_t] is read back from its decimal text, which takes at most
    seven bytes. *)
Lemma atoi_sprintf_d (v : Z) :
  -32768 <= v <= 32767 ->
  atoi (sprintf_d v) = v /\ (length (sprintf_d v) <= 7)%nat.
Proof.
  intros Hv. unfold sprintf_d. destruct (Z.ltb_spec v 0) as [Hneg|Hpos].
  - cbn [app]. rewrite digits_app. cbn [app]. split.
    + change (atoi (x2d :: digits 10 (- v) [x00]))
        with (- atoi_digits 0 (digits 10 (- v) [x00])).
      rewrite atoi_digits_digits by (change (10 ^ Z.of_nat 10) with 10000000000; lia).
      destruct (- v) eqn:E; cbn [atoi_digits digit_value]; lia.
    + cbn [length].
      pose proof (digits_length 10 4 (- v) [x00]) as H.
      change (10 ^ Z.of_nat 5) with 100000 in H. cbn [length] in H. lia.
  - rewrite digits_app. cbn [app]. split.
    + destruct (digits_head 9 v [x00]) as (d & r & Hd & E).
      rewrite E, atoi_digit_head, <- E by done.
      rewrite atoi_digits_digits by (change (10 ^ Z.of_nat 10) with 10000000000; lia).
      reflexivity.
    + pose proof (digits_length 10 4 v [x00]) as H.
      change (10 ^ Z.of_nat 5) with 100000 in H. cbn [length] in H. lia.
Qed.

(** The parameters of a handshake frame on the wire and back. *)
Lemma pack_handshake_sizes (c : config) (sq fl psize wsize : Z) (f : utp_pack) :
  -32768 <= wsize <= 32767 ->
  0 <= UTP_PAYLOAD c <= Z.of_nat (length (msg f)) ->
  7 <= Z.of_nat (length (msg f)) ->
  exists f',
    UTP_PACK_HANDSHAKE c sq fl psize wsize f = Some f'
    /\ handshake_sizes f' = (wsize, wrap16 psize)
    /\ seq f' = wrap64 sq /\ flags f' = wrap8u fl
    /\ length (msg f') = length (msg f).
Proof.
  intros Hw HP Hlen. unfold UTP_PACK_HANDSHAKE.
  destruct (UTP_PACK_PROPERTIES_Some c UTP_HANDSHAKE_SIZE sq fl f HP)
    as (m & -> & Hm).
  cbn [mbind option_bind msg set_size]. rewrite (CodecFacts.wrap16_id wsize) by lia.
  destruct (atoi_sprintf_d wsize Hw) as [Hatoi Hshort].
  rewrite mem_write_Some by lia.
  cbn [mbind option_bind]. eexists. split; [reflexivity|].
  unfold handshake_sizes. cbn [msg size seq flags set_msg].
  change (Z.to_nat 0) with 0%nat. rewrite take_0. cbn [app Nat.add].
  split_and!; try done.
  - f_equal. unfold sprintf_d in *. rewrite <- app_assoc. cbn [app].
    by rewrite atoi_nul.
  - rewrite length_app, length_drop. lia.
Qed.

(** X24. A frame handed to [UTP_SEND] arrives: when the datagram that
    [UTP_SEND] puts on the wire is what the socket of a peer yields, and the
    payload region of the peer's frame is as long as that of the frame sent,
    [UTP_RECV] returns 1 and leaves in the peer's frame exactly the frame
    sent, time stamp and tag included. *)
Theorem UTP_SEND_then_UTP_RECV (ws : world) (f : utp_pack) :
  exists d ws',
    UTP_SEND f ws = Ret d ws'
    /\ wire ws' = wire ws ++ [d]
    /\ time d = clock ws (ticks ws)
    /\ forall wr,
         socket wr (reads wr) = Datagram d ->
         length (msg (frame wr)) = length (msg f) ->
         UTP_RECV wr = Ret 1 (with_frame d (with_reads (S (reads wr)) wr)).
Proof.
  exists (UTP_MD5_ADD (set_time (clock ws (ticks ws)) f)).
  exists (with_wire (wire ws ++ [UTP_MD5_ADD (set_time (clock ws (ticks ws)) f)])
            (with_ticks (S (ticks ws)) ws)).
  split_and!; [reflexivity|reflexivity|reflexivity|].
  intros wr Hsock Hlen. apply EventFacts.wp_exact. apply wp_UTP_RECV.
  { intros Hno. congruence. }
  intros d' Hd'. rewrite Hsock in Hd'. injection Hd' as <-. cbv zeta.
  set (d := UTP_MD5_ADD (set_time (clock ws (ticks ws)) f)).
  assert (Hrecv : recvfrom d (frame wr) = d).
  { unfold recvfrom. change (msg d) with (msg f).
    rewrite (drop_ge (msg (frame wr))) by lia.
    rewrite app_nil_r, take_ge by lia.
    unfold d, UTP_MD5_ADD, set_md5, set_time, set_msg. by destruct f. }
  rewrite Hrecv. split.
  - apply CodecFacts.UTP_MD5_VERIFY_after_ADD.
  - unfold UTP_MD5_VERIFY. cbn [fst]. unfold d.
    by rewrite CodecFacts.UTP_MD5_ADD_idempotent.
Qed.

Lemma UTP_SEND_then_UTP_RECV_witness :
  exists d ws' wr',
    UTP_SEND (zero_frame Scenario.small) (Scenario.small_world Scenario.silence)
    = Ret d ws'
    /\ UTP_RECV (Scenario.with_socket_of (Scenario.small_world Scenario.silence)
                   (fun _ => Datagram d)) = Ret 1 wr'
    /\ frame wr' = d.
Proof.
  destruct (UTP_SEND_then_UTP_RECV (Scenario.small_world Scenario.silence)
              (zero_frame Scenario.small)) as (d & ws' & Hsend & _ & _ & Hrecv).
  exists d, ws'. eexists. split; [exact Hsend|].
  split; [apply Hrecv; reflexivity|reflexivity].
Defined.

(** X25. The parameters of the handshake survive their encoding: a frame
    packed by [UTP_PACK_HANDSHAKE] carries the payload size in its size
    field and the window size as decimal text, and [atoi] on the payload and
    the size field give both back, for every window size that an [int16_t]
    holds.  The size passed on to [UTP_PACK_PROPERTIES] is overwritten. *)
Theorem handshake_sizes_round_trip (c : config) (sq fl psize wsize : Z)
    (f : utp_pack) :
  -32768 <= wsize <= 32767 ->
  0 <= UTP_PAYLOAD c <= Z.of_nat (length (msg f)) ->
  7 <= Z.of_nat (length (msg f)) ->
  exists f',
    UTP_PACK_HANDSHAKE c sq fl psize wsize f = Some f'
    /\ handshake_sizes f' = (wsize, wrap16 psize)
    /\ seq f' = wrap64 sq /\ flags f' = wrap8u fl
    /\ length (msg f') = length (msg f).
Proof. exact (pack_handshake_sizes c sq fl psize wsize f). Qed.

Lemma handshake_sizes_round_trip_witness :
  exists f',
    UTP_PACK_HANDSHAKE config_init 1000 SYN 32 (-16)
      (Pack 0 0 0 0 (zeros 16) (zeros 16)) = Some f'
    /\ handshake_sizes f' = (-16, wrap16 32)
    /\ seq f' = wrap64 1000 /\ flags f' = wrap8u SYN
    /\ length (msg f') = length (msg (Pack 0 0 0 0 (zeros 16) (zeros 16))).
Proof.
  apply (handshake_sizes_round_trip config_init 1000 SYN 32 (-16)
           (Pack 0 0 0 0 (zeros 16) (zeros 16))).
  - lia.
  - vm_compute. split; discriminate.
  - vm_compute. discriminate.
Defined.



End WireFacts.
